(** * Book Swap canister: a shallow embedding of [dfinity_js_backend/src/index.ts]

    The canister keeps four [StableBTreeMap]s (users, books, swap requests,
    feedback) and exposes update and query methods over them.  Each method is
    embedded as a function over an explicit [State]; what the source reads
    from its surroundings ([ic.caller()], [new Date()], [uuidv4()]) is passed
    in an [Env].

    Text reaches the canister as Candid [text], which is UTF-8, and a
    [string] holds these bytes.  The JavaScript code sees a text as a
    sequence of UTF-16 code units, [Js.units]; the two places of the source
    that look at the characters of a text, the regular expressions and
    [toLowerCase], are embedded on code units. *)

From Stdlib Require Import ZArith Ascii String List Sorting.Sorted Permutation.
From stdpp Require Import gmap strings list fin_maps.

Local Open Scope string_scope.
Local Open Scope Z_scope.

(** ** The character data that [toLowerCase] uses

    [String.prototype.toLowerCase] follows the Unicode default case
    conversion: the lower-case mappings of [UnicodeData.txt] and the
    mappings of [SpecialCasing.txt] that depend on no language.  The tables
    are those of Unicode 14.0. *)

Module Unicode.

(** The code points with a lower-case mapping.  [(first, last, step, image)]
    sends [first + k * step], up to [last], to [image + k * step]. *)
Definition lowercase_runs : list (N * N * N * N) :=
  [
   (0x41, 0x5A, 1, 0x61); (0xC0, 0xD6, 1, 0xE0); (0xD8, 0xDE, 1, 0xF8);
   (0x100, 0x12E, 2, 0x101); (0x132, 0x136, 2, 0x133); (0x139, 0x147, 2, 0x13A);
   (0x14A, 0x176, 2, 0x14B); (0x178, 0x178, 1, 0xFF); (0x179, 0x17D, 2, 0x17A);
   (0x181, 0x181, 1, 0x253); (0x182, 0x184, 2, 0x183); (0x186, 0x186, 1, 0x254);
   (0x187, 0x187, 1, 0x188); (0x189, 0x18A, 1, 0x256); (0x18B, 0x18B, 1, 0x18C);
   (0x18E, 0x18E, 1, 0x1DD); (0x18F, 0x18F, 1, 0x259); (0x190, 0x190, 1, 0x25B);
   (0x191, 0x191, 1, 0x192); (0x193, 0x193, 1, 0x260); (0x194, 0x194, 1, 0x263);
   (0x196, 0x196, 1, 0x269); (0x197, 0x197, 1, 0x268); (0x198, 0x198, 1, 0x199);
   (0x19C, 0x19C, 1, 0x26F); (0x19D, 0x19D, 1, 0x272); (0x19F, 0x19F, 1, 0x275);
   (0x1A0, 0x1A4, 2, 0x1A1); (0x1A6, 0x1A6, 1, 0x280); (0x1A7, 0x1A7, 1, 0x1A8);
   (0x1A9, 0x1A9, 1, 0x283); (0x1AC, 0x1AC, 1, 0x1AD); (0x1AE, 0x1AE, 1, 0x288);
   (0x1AF, 0x1AF, 1, 0x1B0); (0x1B1, 0x1B2, 1, 0x28A); (0x1B3, 0x1B5, 2, 0x1B4);
   (0x1B7, 0x1B7, 1, 0x292); (0x1B8, 0x1B8, 1, 0x1B9); (0x1BC, 0x1BC, 1, 0x1BD);
   (0x1C4, 0x1C4, 1, 0x1C6); (0x1C5, 0x1C5, 1, 0x1C6); (0x1C7, 0x1C7, 1, 0x1C9);
   (0x1C8, 0x1C8, 1, 0x1C9); (0x1CA, 0x1CA, 1, 0x1CC); (0x1CB, 0x1DB, 2, 0x1CC);
   (0x1DE, 0x1EE, 2, 0x1DF); (0x1F1, 0x1F1, 1, 0x1F3); (0x1F2, 0x1F4, 2, 0x1F3);
   (0x1F6, 0x1F6, 1, 0x195); (0x1F7, 0x1F7, 1, 0x1BF); (0x1F8, 0x21E, 2, 0x1F9);
   (0x220, 0x220, 1, 0x19E); (0x222, 0x232, 2, 0x223); (0x23A, 0x23A, 1, 0x2C65);
   (0x23B, 0x23B, 1, 0x23C); (0x23D, 0x23D, 1, 0x19A); (0x23E, 0x23E, 1, 0x2C66);
   (0x241, 0x241, 1, 0x242); (0x243, 0x243, 1, 0x180); (0x244, 0x244, 1, 0x289);
   (0x245, 0x245, 1, 0x28C); (0x246, 0x24E, 2, 0x247); (0x370, 0x372, 2, 0x371);
   (0x376, 0x376, 1, 0x377); (0x37F, 0x37F, 1, 0x3F3); (0x386, 0x386, 1, 0x3AC);
   (0x388, 0x38A, 1, 0x3AD); (0x38C, 0x38C, 1, 0x3CC); (0x38E, 0x38F, 1, 0x3CD);
   (0x391, 0x3A1, 1, 0x3B1); (0x3A3, 0x3AB, 1, 0x3C3); (0x3CF, 0x3CF, 1, 0x3D7);
   (0x3D8, 0x3EE, 2, 0x3D9); (0x3F4, 0x3F4, 1, 0x3B8); (0x3F7, 0x3F7, 1, 0x3F8);
   (0x3F9, 0x3F9, 1, 0x3F2); (0x3FA, 0x3FA, 1, 0x3FB); (0x3FD, 0x3FF, 1, 0x37B);
   (0x400, 0x40F, 1, 0x450); (0x410, 0x42F, 1, 0x430); (0x460, 0x480, 2, 0x461);
   (0x48A, 0x4BE, 2, 0x48B); (0x4C0, 0x4C0, 1, 0x4CF); (0x4C1, 0x4CD, 2, 0x4C2);
   (0x4D0, 0x52E, 2, 0x4D1); (0x531, 0x556, 1, 0x561); (0x10A0, 0x10C5, 1, 0x2D00);
   (0x10C7, 0x10C7, 1, 0x2D27); (0x10CD, 0x10CD, 1, 0x2D2D); (0x13A0, 0x13EF, 1, 0xAB70);
   (0x13F0, 0x13F5, 1, 0x13F8); (0x1C90, 0x1CBA, 1, 0x10D0); (0x1CBD, 0x1CBF, 1, 0x10FD);
   (0x1E00, 0x1E94, 2, 0x1E01); (0x1E9E, 0x1E9E, 1, 0xDF); (0x1EA0, 0x1EFE, 2, 0x1EA1);
   (0x1F08, 0x1F0F, 1, 0x1F00); (0x1F18, 0x1F1D, 1, 0x1F10); (0x1F28, 0x1F2F, 1, 0x1F20);
   (0x1F38, 0x1F3F, 1, 0x1F30); (0x1F48, 0x1F4D, 1, 0x1F40); (0x1F59, 0x1F5F, 2, 0x1F51);
   (0x1F68, 0x1F6F, 1, 0x1F60); (0x1F88, 0x1F8F, 1, 0x1F80); (0x1F98, 0x1F9F, 1, 0x1F90);
   (0x1FA8, 0x1FAF, 1, 0x1FA0); (0x1FB8, 0x1FB9, 1, 0x1FB0); (0x1FBA, 0x1FBB, 1, 0x1F70);
   (0x1FBC, 0x1FBC, 1, 0x1FB3); (0x1FC8, 0x1FCB, 1, 0x1F72); (0x1FCC, 0x1FCC, 1, 0x1FC3);
   (0x1FD8, 0x1FD9, 1, 0x1FD0); (0x1FDA, 0x1FDB, 1, 0x1F76); (0x1FE8, 0x1FE9, 1, 0x1FE0);
   (0x1FEA, 0x1FEB, 1, 0x1F7A); (0x1FEC, 0x1FEC, 1, 0x1FE5); (0x1FF8, 0x1FF9, 1, 0x1F78);
   (0x1FFA, 0x1FFB, 1, 0x1F7C); (0x1FFC, 0x1FFC, 1, 0x1FF3); (0x2126, 0x2126, 1, 0x3C9);
   (0x212A, 0x212A, 1, 0x6B); (0x212B, 0x212B, 1, 0xE5); (0x2132, 0x2132, 1, 0x214E);
   (0x2160, 0x216F, 1, 0x2170); (0x2183, 0x2183, 1, 0x2184); (0x24B6, 0x24CF, 1, 0x24D0);
   (0x2C00, 0x2C2F, 1, 0x2C30); (0x2C60, 0x2C60, 1, 0x2C61); (0x2C62, 0x2C62, 1, 0x26B);
   (0x2C63, 0x2C63, 1, 0x1D7D); (0x2C64, 0x2C64, 1, 0x27D); (0x2C67, 0x2C6B, 2, 0x2C68);
   (0x2C6D, 0x2C6D, 1, 0x251); (0x2C6E, 0x2C6E, 1, 0x271); (0x2C6F, 0x2C6F, 1, 0x250);
   (0x2C70, 0x2C70, 1, 0x252); (0x2C72, 0x2C72, 1, 0x2C73); (0x2C75, 0x2C75, 1, 0x2C76);
   (0x2C7E, 0x2C7F, 1, 0x23F); (0x2C80, 0x2CE2, 2, 0x2C81); (0x2CEB, 0x2CED, 2, 0x2CEC);
   (0x2CF2, 0x2CF2, 1, 0x2CF3); (0xA640, 0xA66C, 2, 0xA641); (0xA680, 0xA69A, 2, 0xA681);
   (0xA722, 0xA72E, 2, 0xA723); (0xA732, 0xA76E, 2, 0xA733); (0xA779, 0xA77B, 2, 0xA77A);
   (0xA77D, 0xA77D, 1, 0x1D79); (0xA77E, 0xA786, 2, 0xA77F); (0xA78B, 0xA78B, 1, 0xA78C);
   (0xA78D, 0xA78D, 1, 0x265); (0xA790, 0xA792, 2, 0xA791); (0xA796, 0xA7A8, 2, 0xA797);
   (0xA7AA, 0xA7AA, 1, 0x266); (0xA7AB, 0xA7AB, 1, 0x25C); (0xA7AC, 0xA7AC, 1, 0x261);
   (0xA7AD, 0xA7AD, 1, 0x26C); (0xA7AE, 0xA7AE, 1, 0x26A); (0xA7B0, 0xA7B0, 1, 0x29E);
   (0xA7B1, 0xA7B1, 1, 0x287); (0xA7B2, 0xA7B2, 1, 0x29D); (0xA7B3, 0xA7B3, 1, 0xAB53);
   (0xA7B4, 0xA7C2, 2, 0xA7B5); (0xA7C4, 0xA7C4, 1, 0xA794); (0xA7C5, 0xA7C5, 1, 0x282);
   (0xA7C6, 0xA7C6, 1, 0x1D8E); (0xA7C7, 0xA7C9, 2, 0xA7C8); (0xA7D0, 0xA7D0, 1, 0xA7D1);
   (0xA7D6, 0xA7D8, 2, 0xA7D7); (0xA7F5, 0xA7F5, 1, 0xA7F6); (0xFF21, 0xFF3A, 1, 0xFF41);
   (0x10400, 0x10427, 1, 0x10428); (0x104B0, 0x104D3, 1, 0x104D8);
   (0x10570, 0x1057A, 1, 0x10597); (0x1057C, 0x1058A, 1, 0x105A3);
   (0x1058C, 0x10592, 1, 0x105B3); (0x10594, 0x10595, 1, 0x105BB);
   (0x10C80, 0x10CB2, 1, 0x10CC0); (0x118A0, 0x118BF, 1, 0x118C0);
   (0x16E40, 0x16E5F, 1, 0x16E60); (0x1E900, 0x1E921, 1, 0x1E922)
  ]%N.

(** The code points with the property [Cased]. *)
Definition cased_ranges : list (N * N) :=
  [
   (0x41, 0x5A); (0x61, 0x7A); (0xAA, 0xAA); (0xB5, 0xB5); (0xBA, 0xBA); (0xC0, 0xD6);
   (0xD8, 0xF6); (0xF8, 0x1BA); (0x1BC, 0x1BF); (0x1C4, 0x293); (0x295, 0x2B8); (0x2C0, 0x2C1);
   (0x2E0, 0x2E4); (0x345, 0x345); (0x370, 0x373); (0x376, 0x377); (0x37A, 0x37D);
   (0x37F, 0x37F); (0x386, 0x386); (0x388, 0x38A); (0x38C, 0x38C); (0x38E, 0x3A1);
   (0x3A3, 0x3F5); (0x3F7, 0x481); (0x48A, 0x52F); (0x531, 0x556); (0x560, 0x588);
   (0x10A0, 0x10C5); (0x10C7, 0x10C7); (0x10CD, 0x10CD); (0x10D0, 0x10FA); (0x10FD, 0x10FF);
   (0x13A0, 0x13F5); (0x13F8, 0x13FD); (0x1C80, 0x1C88); (0x1C90, 0x1CBA); (0x1CBD, 0x1CBF);
   (0x1D00, 0x1DBF); (0x1E00, 0x1F15); (0x1F18, 0x1F1D); (0x1F20, 0x1F45); (0x1F48, 0x1F4D);
   (0x1F50, 0x1F57); (0x1F59, 0x1F59); (0x1F5B, 0x1F5B); (0x1F5D, 0x1F5D); (0x1F5F, 0x1F7D);
   (0x1F80, 0x1FB4); (0x1FB6, 0x1FBC); (0x1FBE, 0x1FBE); (0x1FC2, 0x1FC4); (0x1FC6, 0x1FCC);
   (0x1FD0, 0x1FD3); (0x1FD6, 0x1FDB); (0x1FE0, 0x1FEC); (0x1FF2, 0x1FF4); (0x1FF6, 0x1FFC);
   (0x2071, 0x2071); (0x207F, 0x207F); (0x2090, 0x209C); (0x2102, 0x2102); (0x2107, 0x2107);
   (0x210A, 0x2113); (0x2115, 0x2115); (0x2119, 0x211D); (0x2124, 0x2124); (0x2126, 0x2126);
   (0x2128, 0x2128); (0x212A, 0x212D); (0x212F, 0x2134); (0x2139, 0x2139); (0x213C, 0x213F);
   (0x2145, 0x2149); (0x214E, 0x214E); (0x2160, 0x217F); (0x2183, 0x2184); (0x24B6, 0x24E9);
   (0x2C00, 0x2CE4); (0x2CEB, 0x2CEE); (0x2CF2, 0x2CF3); (0x2D00, 0x2D25); (0x2D27, 0x2D27);
   (0x2D2D, 0x2D2D); (0xA640, 0xA66D); (0xA680, 0xA69D); (0xA722, 0xA787); (0xA78B, 0xA78E);
   (0xA790, 0xA7CA); (0xA7D0, 0xA7D1); (0xA7D3, 0xA7D3); (0xA7D5, 0xA7D9); (0xA7F5, 0xA7F6);
   (0xA7F8, 0xA7FA); (0xAB30, 0xAB5A); (0xAB5C, 0xAB68); (0xAB70, 0xABBF); (0xFB00, 0xFB06);
   (0xFB13, 0xFB17); (0xFF21, 0xFF3A); (0xFF41, 0xFF5A); (0x10400, 0x1044F); (0x104B0, 0x104D3);
   (0x104D8, 0x104FB); (0x10570, 0x1057A); (0x1057C, 0x1058A); (0x1058C, 0x10592);
   (0x10594, 0x10595); (0x10597, 0x105A1); (0x105A3, 0x105B1); (0x105B3, 0x105B9);
   (0x105BB, 0x105BC); (0x10780, 0x10780); (0x10783, 0x10785); (0x10787, 0x107B0);
   (0x107B2, 0x107BA); (0x10C80, 0x10CB2); (0x10CC0, 0x10CF2); (0x118A0, 0x118DF);
   (0x16E40, 0x16E7F); (0x1D400, 0x1D454); (0x1D456, 0x1D49C); (0x1D49E, 0x1D49F);
   (0x1D4A2, 0x1D4A2); (0x1D4A5, 0x1D4A6); (0x1D4A9, 0x1D4AC); (0x1D4AE, 0x1D4B9);
   (0x1D4BB, 0x1D4BB); (0x1D4BD, 0x1D4C3); (0x1D4C5, 0x1D505); (0x1D507, 0x1D50A);
   (0x1D50D, 0x1D514); (0x1D516, 0x1D51C); (0x1D51E, 0x1D539); (0x1D53B, 0x1D53E);
   (0x1D540, 0x1D544); (0x1D546, 0x1D546); (0x1D54A, 0x1D550); (0x1D552, 0x1D6A5);
   (0x1D6A8, 0x1D6C0); (0x1D6C2, 0x1D6DA); (0x1D6DC, 0x1D6FA); (0x1D6FC, 0x1D714);
   (0x1D716, 0x1D734); (0x1D736, 0x1D74E); (0x1D750, 0x1D76E); (0x1D770, 0x1D788);
   (0x1D78A, 0x1D7A8); (0x1D7AA, 0x1D7C2); (0x1D7C4, 0x1D7CB); (0x1DF00, 0x1DF09);
   (0x1DF0B, 0x1DF1E); (0x1E900, 0x1E943); (0x1F130, 0x1F149); (0x1F150, 0x1F169);
   (0x1F170, 0x1F189)
  ]%N.

(** The code points with the property [Case_Ignorable]. *)
Definition case_ignorable_ranges : list (N * N) :=
  [
   (0x27, 0x27); (0x2E, 0x2E); (0x3A, 0x3A); (0x5E, 0x5E); (0x60, 0x60); (0xA8, 0xA8);
   (0xAD, 0xAD); (0xAF, 0xAF); (0xB4, 0xB4); (0xB7, 0xB8); (0x2B0, 0x36F); (0x374, 0x375);
   (0x37A, 0x37A); (0x384, 0x385); (0x387, 0x387); (0x483, 0x489); (0x559, 0x559);
   (0x55F, 0x55F); (0x591, 0x5BD); (0x5BF, 0x5BF); (0x5C1, 0x5C2); (0x5C4, 0x5C5);
   (0x5C7, 0x5C7); (0x5F4, 0x5F4); (0x600, 0x605); (0x610, 0x61A); (0x61C, 0x61C);
   (0x640, 0x640); (0x64B, 0x65F); (0x670, 0x670); (0x6D6, 0x6DD); (0x6DF, 0x6E8);
   (0x6EA, 0x6ED); (0x70F, 0x70F); (0x711, 0x711); (0x730, 0x74A); (0x7A6, 0x7B0);
   (0x7EB, 0x7F5); (0x7FA, 0x7FA); (0x7FD, 0x7FD); (0x816, 0x82D); (0x859, 0x85B);
   (0x888, 0x888); (0x890, 0x891); (0x898, 0x89F); (0x8C9, 0x902); (0x93A, 0x93A);
   (0x93C, 0x93C); (0x941, 0x948); (0x94D, 0x94D); (0x951, 0x957); (0x962, 0x963);
   (0x971, 0x971); (0x981, 0x981); (0x9BC, 0x9BC); (0x9C1, 0x9C4); (0x9CD, 0x9CD);
   (0x9E2, 0x9E3); (0x9FE, 0x9FE); (0xA01, 0xA02); (0xA3C, 0xA3C); (0xA41, 0xA42);
   (0xA47, 0xA48); (0xA4B, 0xA4D); (0xA51, 0xA51); (0xA70, 0xA71); (0xA75, 0xA75);
   (0xA81, 0xA82); (0xABC, 0xABC); (0xAC1, 0xAC5); (0xAC7, 0xAC8); (0xACD, 0xACD);
   (0xAE2, 0xAE3); (0xAFA, 0xAFF); (0xB01, 0xB01); (0xB3C, 0xB3C); (0xB3F, 0xB3F);
   (0xB41, 0xB44); (0xB4D, 0xB4D); (0xB55, 0xB56); (0xB62, 0xB63); (0xB82, 0xB82);
   (0xBC0, 0xBC0); (0xBCD, 0xBCD); (0xC00, 0xC00); (0xC04, 0xC04); (0xC3C, 0xC3C);
   (0xC3E, 0xC40); (0xC46, 0xC48); (0xC4A, 0xC4D); (0xC55, 0xC56); (0xC62, 0xC63);
   (0xC81, 0xC81); (0xCBC, 0xCBC); (0xCBF, 0xCBF); (0xCC6, 0xCC6); (0xCCC, 0xCCD);
   (0xCE2, 0xCE3); (0xD00, 0xD01); (0xD3B, 0xD3C); (0xD41, 0xD44); (0xD4D, 0xD4D);
   (0xD62, 0xD63); (0xD81, 0xD81); (0xDCA, 0xDCA); (0xDD2, 0xDD4); (0xDD6, 0xDD6);
   (0xE31, 0xE31); (0xE34, 0xE3A); (0xE46, 0xE4E); (0xEB1, 0xEB1); (0xEB4, 0xEBC);
   (0xEC6, 0xEC6); (0xEC8, 0xECD); (0xF18, 0xF19); (0xF35, 0xF35); (0xF37, 0xF37);
   (0xF39, 0xF39); (0xF71, 0xF7E); (0xF80, 0xF84); (0xF86, 0xF87); (0xF8D, 0xF97);
   (0xF99, 0xFBC); (0xFC6, 0xFC6); (0x102D, 0x1030); (0x1032, 0x1037); (0x1039, 0x103A);
   (0x103D, 0x103E); (0x1058, 0x1059); (0x105E, 0x1060); (0x1071, 0x1074); (0x1082, 0x1082);
   (0x1085, 0x1086); (0x108D, 0x108D); (0x109D, 0x109D); (0x10FC, 0x10FC); (0x135D, 0x135F);
   (0x1712, 0x1714); (0x1732, 0x1733); (0x1752, 0x1753); (0x1772, 0x1773); (0x17B4, 0x17B5);
   (0x17B7, 0x17BD); (0x17C6, 0x17C6); (0x17C9, 0x17D3); (0x17D7, 0x17D7); (0x17DD, 0x17DD);
   (0x180B, 0x180F); (0x1843, 0x1843); (0x1885, 0x1886); (0x18A9, 0x18A9); (0x1920, 0x1922);
   (0x1927, 0x1928); (0x1932, 0x1932); (0x1939, 0x193B); (0x1A17, 0x1A18); (0x1A1B, 0x1A1B);
   (0x1A56, 0x1A56); (0x1A58, 0x1A5E); (0x1A60, 0x1A60); (0x1A62, 0x1A62); (0x1A65, 0x1A6C);
   (0x1A73, 0x1A7C); (0x1A7F, 0x1A7F); (0x1AA7, 0x1AA7); (0x1AB0, 0x1ACE); (0x1B00, 0x1B03);
   (0x1B34, 0x1B34); (0x1B36, 0x1B3A); (0x1B3C, 0x1B3C); (0x1B42, 0x1B42); (0x1B6B, 0x1B73);
   (0x1B80, 0x1B81); (0x1BA2, 0x1BA5); (0x1BA8, 0x1BA9); (0x1BAB, 0x1BAD); (0x1BE6, 0x1BE6);
   (0x1BE8, 0x1BE9); (0x1BED, 0x1BED); (0x1BEF, 0x1BF1); (0x1C2C, 0x1C33); (0x1C36, 0x1C37);
   (0x1C78, 0x1C7D); (0x1CD0, 0x1CD2); (0x1CD4, 0x1CE0); (0x1CE2, 0x1CE8); (0x1CED, 0x1CED);
   (0x1CF4, 0x1CF4); (0x1CF8, 0x1CF9); (0x1D2C, 0x1D6A); (0x1D78, 0x1D78); (0x1D9B, 0x1DFF);
   (0x1FBD, 0x1FBD); (0x1FBF, 0x1FC1); (0x1FCD, 0x1FCF); (0x1FDD, 0x1FDF); (0x1FED, 0x1FEF);
   (0x1FFD, 0x1FFE); (0x200B, 0x200F); (0x2018, 0x2019); (0x2024, 0x2024); (0x2027, 0x2027);
   (0x202A, 0x202E); (0x2060, 0x2064); (0x2066, 0x206F); (0x2071, 0x2071); (0x207F, 0x207F);
   (0x2090, 0x209C); (0x20D0, 0x20F0); (0x2C7C, 0x2C7D); (0x2CEF, 0x2CF1); (0x2D6F, 0x2D6F);
   (0x2D7F, 0x2D7F); (0x2DE0, 0x2DFF); (0x2E2F, 0x2E2F); (0x3005, 0x3005); (0x302A, 0x302D);
   (0x3031, 0x3035); (0x303B, 0x303B); (0x3099, 0x309E); (0x30FC, 0x30FE); (0xA015, 0xA015);
   (0xA4F8, 0xA4FD); (0xA60C, 0xA60C); (0xA66F, 0xA672); (0xA674, 0xA67D); (0xA67F, 0xA67F);
   (0xA69C, 0xA69F); (0xA6F0, 0xA6F1); (0xA700, 0xA721); (0xA770, 0xA770); (0xA788, 0xA78A);
   (0xA7F2, 0xA7F4); (0xA7F8, 0xA7F9); (0xA802, 0xA802); (0xA806, 0xA806); (0xA80B, 0xA80B);
   (0xA825, 0xA826); (0xA82C, 0xA82C); (0xA8C4, 0xA8C5); (0xA8E0, 0xA8F1); (0xA8FF, 0xA8FF);
   (0xA926, 0xA92D); (0xA947, 0xA951); (0xA980, 0xA982); (0xA9B3, 0xA9B3); (0xA9B6, 0xA9B9);
   (0xA9BC, 0xA9BD); (0xA9CF, 0xA9CF); (0xA9E5, 0xA9E6); (0xAA29, 0xAA2E); (0xAA31, 0xAA32);
   (0xAA35, 0xAA36); (0xAA43, 0xAA43); (0xAA4C, 0xAA4C); (0xAA70, 0xAA70); (0xAA7C, 0xAA7C);
   (0xAAB0, 0xAAB0); (0xAAB2, 0xAAB4); (0xAAB7, 0xAAB8); (0xAABE, 0xAABF); (0xAAC1, 0xAAC1);
   (0xAADD, 0xAADD); (0xAAEC, 0xAAED); (0xAAF3, 0xAAF4); (0xAAF6, 0xAAF6); (0xAB5B, 0xAB5F);
   (0xAB69, 0xAB6B); (0xABE5, 0xABE5); (0xABE8, 0xABE8); (0xABED, 0xABED); (0xFB1E, 0xFB1E);
   (0xFBB2, 0xFBC2); (0xFE00, 0xFE0F); (0xFE13, 0xFE13); (0xFE20, 0xFE2F); (0xFE52, 0xFE52);
   (0xFE55, 0xFE55); (0xFEFF, 0xFEFF); (0xFF07, 0xFF07); (0xFF0E, 0xFF0E); (0xFF1A, 0xFF1A);
   (0xFF3E, 0xFF3E); (0xFF40, 0xFF40); (0xFF70, 0xFF70); (0xFF9E, 0xFF9F); (0xFFE3, 0xFFE3);
   (0xFFF9, 0xFFFB); (0x101FD, 0x101FD); (0x102E0, 0x102E0); (0x10376, 0x1037A);
   (0x10780, 0x10785); (0x10787, 0x107B0); (0x107B2, 0x107BA); (0x10A01, 0x10A03);
   (0x10A05, 0x10A06); (0x10A0C, 0x10A0F); (0x10A38, 0x10A3A); (0x10A3F, 0x10A3F);
   (0x10AE5, 0x10AE6); (0x10D24, 0x10D27); (0x10EAB, 0x10EAC); (0x10F46, 0x10F50);
   (0x10F82, 0x10F85); (0x11001, 0x11001); (0x11038, 0x11046); (0x11070, 0x11070);
   (0x11073, 0x11074); (0x1107F, 0x11081); (0x110B3, 0x110B6); (0x110B9, 0x110BA);
   (0x110BD, 0x110BD); (0x110C2, 0x110C2); (0x110CD, 0x110CD); (0x11100, 0x11102);
   (0x11127, 0x1112B); (0x1112D, 0x11134); (0x11173, 0x11173); (0x11180, 0x11181);
   (0x111B6, 0x111BE); (0x111C9, 0x111CC); (0x111CF, 0x111CF); (0x1122F, 0x11231);
   (0x11234, 0x11234); (0x11236, 0x11237); (0x1123E, 0x1123E); (0x112DF, 0x112DF);
   (0x112E3, 0x112EA); (0x11300, 0x11301); (0x1133B, 0x1133C); (0x11340, 0x11340);
   (0x11366, 0x1136C); (0x11370, 0x11374); (0x11438, 0x1143F); (0x11442, 0x11444);
   (0x11446, 0x11446); (0x1145E, 0x1145E); (0x114B3, 0x114B8); (0x114BA, 0x114BA);
   (0x114BF, 0x114C0); (0x114C2, 0x114C3); (0x115B2, 0x115B5); (0x115BC, 0x115BD);
   (0x115BF, 0x115C0); (0x115DC, 0x115DD); (0x11633, 0x1163A); (0x1163D, 0x1163D);
   (0x1163F, 0x11640); (0x116AB, 0x116AB); (0x116AD, 0x116AD); (0x116B0, 0x116B5);
   (0x116B7, 0x116B7); (0x1171D, 0x1171F); (0x11722, 0x11725); (0x11727, 0x1172B);
   (0x1182F, 0x11837); (0x11839, 0x1183A); (0x1193B, 0x1193C); (0x1193E, 0x1193E);
   (0x11943, 0x11943); (0x119D4, 0x119D7); (0x119DA, 0x119DB); (0x119E0, 0x119E0);
   (0x11A01, 0x11A0A); (0x11A33, 0x11A38); (0x11A3B, 0x11A3E); (0x11A47, 0x11A47);
   (0x11A51, 0x11A56); (0x11A59, 0x11A5B); (0x11A8A, 0x11A96); (0x11A98, 0x11A99);
   (0x11C30, 0x11C36); (0x11C38, 0x11C3D); (0x11C3F, 0x11C3F); (0x11C92, 0x11CA7);
   (0x11CAA, 0x11CB0); (0x11CB2, 0x11CB3); (0x11CB5, 0x11CB6); (0x11D31, 0x11D36);
   (0x11D3A, 0x11D3A); (0x11D3C, 0x11D3D); (0x11D3F, 0x11D45); (0x11D47, 0x11D47);
   (0x11D90, 0x11D91); (0x11D95, 0x11D95); (0x11D97, 0x11D97); (0x11EF3, 0x11EF4);
   (0x13430, 0x13438); (0x16AF0, 0x16AF4); (0x16B30, 0x16B36); (0x16B40, 0x16B43);
   (0x16F4F, 0x16F4F); (0x16F8F, 0x16F9F); (0x16FE0, 0x16FE1); (0x16FE3, 0x16FE4);
   (0x1AFF0, 0x1AFF3); (0x1AFF5, 0x1AFFB); (0x1AFFD, 0x1AFFE); (0x1BC9D, 0x1BC9E);
   (0x1BCA0, 0x1BCA3); (0x1CF00, 0x1CF2D); (0x1CF30, 0x1CF46); (0x1D167, 0x1D169);
   (0x1D173, 0x1D182); (0x1D185, 0x1D18B); (0x1D1AA, 0x1D1AD); (0x1D242, 0x1D244);
   (0x1DA00, 0x1DA36); (0x1DA3B, 0x1DA6C); (0x1DA75, 0x1DA75); (0x1DA84, 0x1DA84);
   (0x1DA9B, 0x1DA9F); (0x1DAA1, 0x1DAAF); (0x1E000, 0x1E006); (0x1E008, 0x1E018);
   (0x1E01B, 0x1E021); (0x1E023, 0x1E024); (0x1E026, 0x1E02A); (0x1E130, 0x1E13D);
   (0x1E2AE, 0x1E2AE); (0x1E2EC, 0x1E2EF); (0x1E8D0, 0x1E8D6); (0x1E944, 0x1E94B);
   (0x1F3FB, 0x1F3FF); (0xE0001, 0xE0001); (0xE0020, 0xE007F); (0xE0100, 0xE01EF)
  ]%N.


Fixpoint lookup_run (runs : list (N * N * N * N)) (c : N) : option N :=
  match runs with
  | [] => None
  | (first, last, step, image) :: runs' =>
      if ((first <=? c) && (c <=? last) && ((c - first) mod step =? 0))%N
      then Some (image + (c - first))%N
      else lookup_run runs' c
  end.

Definition in_ranges (ranges : list (N * N)) (c : N) : bool :=
  existsb (fun r => (fst r <=? c) && (c <=? snd r))%N ranges.

Definition simple_lowercase (c : N) : N := default c (lookup_run lowercase_runs c).
Definition cased (c : N) : bool := in_ranges cased_ranges c.
Definition case_ignorable (c : N) : bool := in_ranges case_ignorable_ranges c.

(** Going away from a capital sigma over the code points [cs], nearest
    first: the case-ignorable code points are passed over, and the first
    other code point is cased. *)
Fixpoint cased_letter_next (cs : list N) : bool :=
  match cs with
  | [] => false
  | c :: cs' => if case_ignorable c then cased_letter_next cs' else cased c
  end.

(** The condition [Final_Sigma] of [SpecialCasing.txt]: a cased letter
    before the sigma and none after it. *)
Definition final_sigma (before after : list N) : bool :=
  cased_letter_next before && negb (cased_letter_next after).

(** The lower case of [cs]; [before] holds the code points already passed,
    nearest first.  U+03A3 becomes U+03C2 at the end of a word and U+03C3
    elsewhere, U+0130 becomes U+0069 U+0307. *)
Fixpoint lowercase_after (before cs : list N) : list N :=
  match cs with
  | [] => []
  | c :: cs' =>
      (if (c =? 0x3A3)%N then (if final_sigma before cs' then [0x3C2] else [0x3C3])%N
       else if (c =? 0x130)%N then [0x69; 0x307]%N
       else [simple_lowercase c])
      ++ lowercase_after (c :: before) cs'
  end.

Definition toLowercase (cs : list N) : list N := lowercase_after [] cs.

End Unicode.

(** ** Strings as JavaScript uses them *)

Module Js.

(** A JavaScript string: its UTF-16 code units. *)
Definition text : Type := list N.

Definition continuation (b : N) : bool := ((0x80 <=? b) && (b <=? 0xBF))%N.

(** The second byte of a sequence of three or four has less room after the
    first bytes E0, ED, F0 and F4: no code point is encoded on more bytes
    than it needs, none is a surrogate, none lies above U+10FFFF. *)
Definition second_of_three (b1 b2 : N) : bool :=
  (if b1 =? 0xE0 then (0xA0 <=? b2) && (b2 <=? 0xBF)
   else if b1 =? 0xED then (0x80 <=? b2) && (b2 <=? 0x9F)
   else continuation b2)%N.

Definition second_of_four (b1 b2 : N) : bool :=
  (if b1 =? 0xF0 then (0x90 <=? b2) && (b2 <=? 0xBF)
   else if b1 =? 0xF4 then (0x80 <=? b2) && (b2 <=? 0x8F)
   else continuation b2)%N.

(** The code points of a text from its UTF-8 bytes.  Candid refuses a [text]
    that is not UTF-8, so the code never sees the last case; there a byte is
    read as U+FFFD. *)
Fixpoint codePointsOfUtf8 (s : string) : list N :=
  match s with
  | EmptyString => []
  | String a1 s1 =>
      let b1 := N_of_ascii a1 in
      if (b1 <? 0x80)%N then b1 :: codePointsOfUtf8 s1
      else
        match s1 with
        | String a2 s2 =>
            let b2 := N_of_ascii a2 in
            if ((0xC2 <=? b1) && (b1 <=? 0xDF) && continuation b2)%N
            then ((b1 - 0xC0) * 0x40 + (b2 - 0x80))%N :: codePointsOfUtf8 s2
            else
              match s2 with
              | String a3 s3 =>
                  let b3 := N_of_ascii a3 in
                  if ((0xE0 <=? b1) && (b1 <=? 0xEF) && second_of_three b1 b2
                      && continuation b3)%N
                  then ((b1 - 0xE0) * 0x1000 + (b2 - 0x80) * 0x40 + (b3 - 0x80))%N
                       :: codePointsOfUtf8 s3
                  else
                    match s3 with
                    | String a4 s4 =>
                        let b4 := N_of_ascii a4 in
                        if ((0xF0 <=? b1) && (b1 <=? 0xF4) && second_of_four b1 b2
                            && continuation b3 && continuation b4)%N
                        then ((b1 - 0xF0) * 0x40000 + (b2 - 0x80) * 0x1000
                              + (b3 - 0x80) * 0x40 + (b4 - 0x80))%N
                             :: codePointsOfUtf8 s4
                        else 0xFFFD%N :: codePointsOfUtf8 s1
                    | EmptyString => 0xFFFD%N :: codePointsOfUtf8 s1
                    end
              | EmptyString => 0xFFFD%N :: codePointsOfUtf8 s1
              end
        | EmptyString => [0xFFFD%N]
        end
  end.

(** [CodePointsToString] on one code point: itself, or a surrogate pair. *)
Definition unitsOfCodePoint (c : N) : text :=
  (if c <? 0x10000 then [c]
   else [0xD800 + (c - 0x10000) / 0x400; 0xDC00 + (c - 0x10000) mod 0x400])%N.

Definition fromCodePoints (cs : list N) : text := flat_map unitsOfCodePoint cs.

(** The string that the code holds for a text. *)
Definition units (s : string) : text := fromCodePoints (codePointsOfUtf8 s).

Definition leading_surrogate (u : N) : bool := ((0xD800 <=? u) && (u <=? 0xDBFF))%N.
Definition trailing_surrogate (u : N) : bool := ((0xDC00 <=? u) && (u <=? 0xDFFF))%N.

(** [StringToCodePoints]: a surrogate pair is one code point, any other
    code unit is a code point by itself. *)
Fixpoint codePoints (t : text) : list N :=
  match t with
  | [] => []
  | u :: t' =>
      match t' with
      | v :: t'' =>
          if leading_surrogate u && trailing_surrogate v
          then (0x10000 + (u - 0xD800) * 0x400 + (v - 0xDC00))%N :: codePoints t''
          else u :: codePoints t'
      | [] => [u]
      end
  end.

(** [String.prototype.toLowerCase] *)
Definition toLowerCase (t : text) : text :=
  fromCodePoints (Unicode.toLowercase (codePoints t)).

(** [t] is an initial segment of [s]. *)
Fixpoint startsWith (s t : text) {struct t} : bool :=
  match t, s with
  | [], _ => true
  | _ :: _, [] => false
  | b :: t', a :: s' => (a =? b)%N && startsWith s' t'
  end.

(** [s.includes(t)]: [t] occurs in [s] at some position. *)
Fixpoint includes (s t : text) : bool :=
  startsWith s t ||
  match s with
  | [] => false
  | _ :: s' => includes s' t
  end.

(** Truthiness of a text value: only the empty string is falsy. *)
Definition truthy (s : string) : bool :=
  match s with EmptyString => false | String _ _ => true end.

End Js.

(** ** Regular expressions, by derivatives

    Enough of the regular expression language for the two patterns of the
    source; both are anchored with [^] and [$], so [test] is a match of the
    whole text.  Neither pattern has the flag [u]: a character is a code
    unit. *)

Module Regex.

Inductive re : Type :=
| Void : re
| Eps : re
| Cls (p : N -> bool) : re
| Cat (r1 r2 : re) : re
| Alt (r1 r2 : re) : re
| Star (r : re) : re.

Definition Plus (r : re) : re := Cat r (Star r).

Fixpoint Rep (n : nat) (r : re) : re :=
  match n with
  | O => Eps
  | S n' => Cat r (Rep n' r)
  end.

Fixpoint nullable (r : re) : bool :=
  match r with
  | Void => false
  | Eps => true
  | Cls _ => false
  | Cat r1 r2 => nullable r1 && nullable r2
  | Alt r1 r2 => nullable r1 || nullable r2
  | Star _ => true
  end.

Fixpoint deriv (c : N) (r : re) : re :=
  match r with
  | Void => Void
  | Eps => Void
  | Cls p => if p c then Eps else Void
  | Cat r1 r2 =>
      if nullable r1 then Alt (Cat (deriv c r1) r2) (deriv c r2)
      else Cat (deriv c r1) r2
  | Alt r1 r2 => Alt (deriv c r1) (deriv c r2)
  | Star r1 => Cat (deriv c r1) (Star r1)
  end.

Fixpoint accepts (r : re) (t : Js.text) : bool :=
  match t with
  | [] => nullable r
  | c :: t' => accepts (deriv c r) t'
  end.

(** [RegExp.prototype.test] *)
Definition test (r : re) (s : string) : bool := accepts r (Js.units s).

(** [\s]: the white space and the line terminators of ECMAScript, that is
    TAB, LF, VT, FF, CR, the space separators of Unicode (SPACE, NO-BREAK
    SPACE, U+1680, U+2000..U+200A, U+202F, U+205F, U+3000), the separators
    U+2028 and U+2029, and U+FEFF. *)
Definition is_space (c : N) : bool :=
  (((9 <=? c) && (c <=? 13)) || (c =? 32) || (c =? 160)
   || (c =? 0x1680) || ((0x2000 <=? c) && (c <=? 0x200A))
   || (c =? 0x2028) || (c =? 0x2029) || (c =? 0x202F) || (c =? 0x205F)
   || (c =? 0x3000) || (c =? 0xFEFF))%N.

(** [\d] *)
Definition is_digit (c : N) : bool := ((48 <=? c) && (c <=? 57))%N.

Definition is_char (a : ascii) (c : N) : bool := (c =? N_of_ascii a)%N.

(** [[^\s@]] *)
Definition not_space_at (c : N) : bool :=
  negb (is_space c) && negb (is_char "@" c).

End Regex.

(** [/^[^\s@]+@[^\s@]+\.[^\s@]+$/] *)
Definition emailRegex : Regex.re :=
  Regex.Cat (Regex.Plus (Regex.Cls Regex.not_space_at))
    (Regex.Cat (Regex.Cls (Regex.is_char "@"))
       (Regex.Cat (Regex.Plus (Regex.Cls Regex.not_space_at))
          (Regex.Cat (Regex.Cls (Regex.is_char "."))
             (Regex.Plus (Regex.Cls Regex.not_space_at))))).

(** [/^\d{10}$/] *)
Definition phoneNumberRegex : Regex.re :=
  Regex.Rep 10 (Regex.Cls Regex.is_digit).

Definition isValidEmail (email : string) : bool := Regex.test emailRegex email.

Definition isValidPhoneNumber (phoneNumber : string) : bool :=
  Regex.test phoneNumberRegex phoneNumber.

(** ** Dates

    A [Date] holds a time value: milliseconds since 1970-01-01T00:00:00Z, or
    NaN for an invalid date, here [None].  The canister runs in UTC, so the
    local-time getters are the UTC ones. *)

Module Date.

Definition msPerDay : Z := 86400000.

(** Days since the epoch of a proleptic Gregorian date. *)
Definition days_from_civil (y m d : Z) : Z :=
  let y' := if m <=? 2 then y - 1 else y in
  let era := y' / 400 in
  let yoe := y' - era * 400 in
  let mp := if 2 <? m then m - 3 else m + 9 in
  let doy := (153 * mp + 2) / 5 + d - 1 in
  let doe := yoe * 365 + yoe / 4 - yoe / 100 + doy in
  era * 146097 + doe - 719468.

(** Year within the 400-year era, month (1..12, the year starting in March)
    and day of month of the day [doe] of an era, counted from its first
    1 March. *)
Definition date_in_era (doe : Z) : Z * Z * Z :=
  let yoe := (doe - doe / 1460 + doe / 36524 - doe / 146096) / 365 in
  let doy := doe - (365 * yoe + yoe / 4 - yoe / 100) in
  let mp := (5 * doy + 2) / 153 in
  let d := doy - (153 * mp + 2) / 5 + 1 in
  let m := if mp <? 10 then mp + 3 else mp - 9 in
  (yoe, m, d).

(** Year, month (1..12) and day of month of a day number. *)
Definition civil_from_days (z : Z) : Z * Z * Z :=
  let z' := z + 719468 in
  let era := z' / 146097 in
  let '(yoe, m, d) := date_in_era (z' - era * 146097) in
  let y := yoe + era * 400 in
  ((if m <=? 2 then y + 1 else y), m, d).

Definition yearFromTime (t : Z) : Z := fst (fst (civil_from_days (t / msPerDay))).
Definition monthFromTime (t : Z) : Z := snd (fst (civil_from_days (t / msPerDay))) - 1.
Definition dateFromTime (t : Z) : Z := snd (civil_from_days (t / msPerDay)).

Definition digit (n : Z) : ascii := ascii_of_N (48 + Z.to_N (n mod 10)).

Definition pad2 (n : Z) : string :=
  String (digit (n / 10)) (String (digit n) EmptyString).
Definition pad3 (n : Z) : string := String (digit (n / 100)) (pad2 n).
Definition pad4 (n : Z) : string := String (digit (n / 1000)) (pad3 n).
Definition pad6 (n : Z) : string :=
  String (digit (n / 100000)) (String (digit (n / 10000)) (pad4 n)).

(** Years 0..9999 print with four digits, the others with a sign and six. *)
Definition year_string (y : Z) : string :=
  if (0 <=? y) && (y <=? 9999) then pad4 y
  else if y <? 0 then String "-" (pad6 (- y))
  else String "+" (pad6 y).

(** [new Date(t).toISOString()] for a finite time value [t]. *)
Definition toISOString (t : Z) : string :=
  let '(y, m, d) := civil_from_days (t / msPerDay) in
  let r := t mod msPerDay in
  year_string y ++ "-" ++ pad2 m ++ "-" ++ pad2 d ++ "T" ++
  pad2 (r / 3600000) ++ ":" ++ pad2 (r / 60000 mod 60) ++ ":" ++
  pad2 (r / 1000 mod 60) ++ "." ++ pad3 (r mod 1000) ++ "Z".

Definition digit_val (c : ascii) : option Z :=
  if Regex.is_digit (N_of_ascii c) then Some (Z.of_N (N_of_ascii c) - 48) else None.

(** A run of decimal digits, most significant first. *)
Fixpoint number (acc : Z) (cs : list ascii) : option Z :=
  match cs with
  | [] => Some acc
  | c :: cs' =>
      match digit_val c with
      | Some v => number (acc * 10 + v) cs'
      | None => None
      end
  end.

Definition is_leap (y : Z) : bool :=
  ((y mod 4 =? 0) && negb (y mod 100 =? 0)) || (y mod 400 =? 0).

Definition days_in_month (y m : Z) : Z :=
  if m =? 2 then (if is_leap y then 29 else 28)
  else if (m =? 4) || (m =? 6) || (m =? 9) || (m =? 11) then 30
  else 31.

(** The part after the year: [-MM-DDTHH:mm:ss.sssZ]. *)
Definition parse_rest (y : Z) (cs : list ascii) : option Z :=
  match cs with
  | [s1; m1; m2; s2; d1; d2; s3; h1; h2; s4; n1; n2; s5; c1; c2; s6; f1; f2; f3; s7] =>
      if Ascii.eqb s1 "-" && Ascii.eqb s2 "-" && Ascii.eqb s3 "T" &&
         Ascii.eqb s4 ":" && Ascii.eqb s5 ":" && Ascii.eqb s6 "." &&
         Ascii.eqb s7 "Z"
      then
        match number 0 [m1; m2], number 0 [d1; d2], number 0 [h1; h2],
              number 0 [n1; n2], number 0 [c1; c2], number 0 [f1; f2; f3] with
        | Some m, Some d, Some h, Some mi, Some sec, Some ms =>
            if (1 <=? m) && (m <=? 12) && (1 <=? d) && (d <=? days_in_month y m) &&
               (h <=? 23) && (mi <=? 59) && (sec <=? 59)
            then Some (days_from_civil y m d * msPerDay
                       + h * 3600000 + mi * 60000 + sec * 1000 + ms)
            else None
        | _, _, _, _, _, _ => None
        end
      else None
  | _ => None
  end.

(** [Date.parse] on the date-time format that [toISOString] writes.  Text
    in any other syntax is an invalid date here; the records of the
    canister only ever hold [toISOString] output in [createdAt]. *)
Definition parse (s : string) : option Z :=
  match list_ascii_of_string s with
  | y1 :: y2 :: y3 :: y4 :: rest =>
      if Ascii.eqb y1 "+" || Ascii.eqb y1 "-" then
        match rest with
        | y5 :: y6 :: y7 :: rest' =>
            match number 0 [y2; y3; y4; y5; y6; y7] with
            | Some y =>
                if Ascii.eqb y1 "-" then
                  (if y =? 0 then None else parse_rest (- y) rest')
                else parse_rest y rest'
            | None => None
            end
        | _ => None
        end
      else
        match number 0 [y1; y2; y3; y4] with
        | Some y => parse_rest y rest
        | None => None
        end
  | _ => None
  end.

(** [new Date(s).getTime()], [.getMonth()] (0..11) and [.getFullYear()];
    [None] stands for NaN. *)
Definition getTime (s : string) : option Z := parse s.
Definition getMonth (s : string) : option Z := monthFromTime <$> parse s.
Definition getFullYear (s : string) : option Z := yearFromTime <$> parse s.

End Date.

(** ** Records of the canister *)

Record Principal : Type := mkPrincipal { toText : string }.

Module User.
Record t : Type := mk {
  userId : string;
  owner : Principal;
  name : string;
  email : string;
  phoneNumber : string;
  createdAt : string
}.
End User.

Module Book.
Record t : Type := mk {
  bookId : string;
  userId : string;
  title : string;
  author : string;
  genre : string;
  description : string;
  imageUrl : string;
  createdAt : string
}.
End Book.

Module SwapRequest.
Record t : Type := mk {
  swapRequestId : string;
  ownerId : string;
  requesterId : string;
  bookId : string;
  status : string;
  createdAt : string
}.
End SwapRequest.

Module Feedback.
Record t : Type := mk {
  feedbackId : string;
  userId : string;
  swapRequestId : string;
  rating : N;
  comment : string;
  createdAt : string
}.
End Feedback.

Inductive Message : Type :=
| Success (msg : string)
| Error (msg : string)
| NotFound (msg : string)
| InvalidPayload (msg : string).

Module UserPayload.
Record t : Type := mk {
  name : string;
  email : string;
  phoneNumber : string
}.
End UserPayload.

Module BookPayload.
Record t : Type := mk {
  userId : string;
  title : string;
  author : string;
  genre : string;
  description : string;
  imageUrl : string
}.
End BookPayload.

Module SwapRequestPayload.
Record t : Type := mk {
  ownerId : string;
  requesterId : string;
  bookId : string
}.
End SwapRequestPayload.

Module FeedbackPayload.
Record t : Type := mk {
  userId : string;
  swapRequestId : string;
  rating : N;
  comment : string
}.
End FeedbackPayload.

(** [Result(T, Message)] *)
Inductive Result (T : Type) : Type :=
| Ok (v : T)
| Err (m : Message).
Arguments Ok {T} v.
Arguments Err {T} m.

(** ** Storage

    One map per entity, keyed by text.  [values] lists a map in its iteration
    order; no method below may depend on that order except through an
    explicit sort. *)

Record State : Type := mkState {
  usersStorage : gmap string User.t;
  booksStorage : gmap string Book.t;
  swapRequestsStorage : gmap string SwapRequest.t;
  feedbackStorage : gmap string Feedback.t
}.

Definition empty_state : State :=
  {| usersStorage := ∅; booksStorage := ∅;
     swapRequestsStorage := ∅; feedbackStorage := ∅ |}.

Definition values {V : Type} (m : gmap string V) : list V := (map_to_list m).*2.

(** What a call reads from outside the canister: the caller, the clock (in
    milliseconds) and the identifier that [uuidv4()] draws. *)
Record Env : Type := mkEnv {
  caller : Principal;
  now : Z;
  uuid : string
}.

Definition set_users (st : State) (m : gmap string User.t) : State :=
  {| usersStorage := m; booksStorage := booksStorage st;
     swapRequestsStorage := swapRequestsStorage st;
     feedbackStorage := feedbackStorage st |}.

Definition set_books (st : State) (m : gmap string Book.t) : State :=
  {| usersStorage := usersStorage st; booksStorage := m;
     swapRequestsStorage := swapRequestsStorage st;
     feedbackStorage := feedbackStorage st |}.

Definition set_swapRequests (st : State) (m : gmap string SwapRequest.t) : State :=
  {| usersStorage := usersStorage st; booksStorage := booksStorage st;
     swapRequestsStorage := m;
     feedbackStorage := feedbackStorage st |}.

Definition set_feedback (st : State) (m : gmap string Feedback.t) : State :=
  {| usersStorage := usersStorage st; booksStorage := booksStorage st;
     swapRequestsStorage := swapRequestsStorage st;
     feedbackStorage := m |}.

(** ** Users *)

Definition createUserProfile (env : Env) (payload : UserPayload.t) (st : State)
  : Result User.t * State :=
  if negb (Js.truthy (UserPayload.name payload))
     || negb (Js.truthy (UserPayload.email payload))
     || negb (Js.truthy (UserPayload.phoneNumber payload))
  then (Err (InvalidPayload "All fields (name, email, phone number) are required."), st)
  else if negb (isValidEmail (UserPayload.email payload))
  then (Err (InvalidPayload "Invalid email format."), st)
  else if negb (isValidPhoneNumber (UserPayload.phoneNumber payload))
  then (Err (InvalidPayload "Phone number must be a 10-digit number."), st)
  else if existsb (fun user => String.eqb (User.email user) (UserPayload.email payload))
            (values (usersStorage st))
  then (Err (InvalidPayload "Email already exists."), st)
  else
    let userId := uuid env in
    let newUser :=
      {| User.userId := userId;
         User.owner := caller env;
         User.name := UserPayload.name payload;
         User.email := UserPayload.email payload;
         User.phoneNumber := UserPayload.phoneNumber payload;
         User.createdAt := Date.toISOString (now env) |} in
    (Ok newUser, set_users st (<[userId := newUser]> (usersStorage st))).

Definition updateUserProfile (userId : string) (payload : UserPayload.t) (st : State)
  : Result User.t * State :=
  if negb (Js.truthy (UserPayload.name payload))
     || negb (Js.truthy (UserPayload.email payload))
     || negb (Js.truthy (UserPayload.phoneNumber payload))
  then (Err (InvalidPayload "Ensure 'name', 'email', and 'phoneNumber' are provided."), st)
  else if negb (Regex.test emailRegex (UserPayload.email payload))
  then (Err (InvalidPayload
               "Invalid email format: Ensure the email is in the correct format."), st)
  else if existsb (fun user =>
                     String.eqb (User.email user) (UserPayload.email payload)
                     && negb (String.eqb (User.userId user) userId))
            (values (usersStorage st))
  then (Err (InvalidPayload "Email already exists: Ensure the email is unique."), st)
  else if negb (Regex.test phoneNumberRegex (UserPayload.phoneNumber payload))
  then (Err (InvalidPayload
               "Invalid phone number: Ensure the phone number is in the correct format."), st)
  else
    match usersStorage st !! userId with
    | None => (Err (NotFound "User not found"), st)
    | Some user =>
        let updatedUser :=
          {| User.userId := User.userId user;
             User.owner := User.owner user;
             User.name := UserPayload.name payload;
             User.email := UserPayload.email payload;
             User.phoneNumber := UserPayload.phoneNumber payload;
             User.createdAt := User.createdAt user |} in
        (Ok updatedUser, set_users st (<[userId := updatedUser]> (usersStorage st)))
    end.

Definition getUserProfile (userId : string) (st : State) : Result User.t :=
  match usersStorage st !! userId with
  | None => Err (NotFound "User not found")
  | Some user => Ok user
  end.

(** ** Arrays

    [Array.prototype.sort] is stable and takes a comparator whose result may
    be NaN ([None]), which it reads as 0.  It is embedded as a stable
    insertion sort; for a comparator that orders the elements consistently
    every conforming sort returns the same array. *)

Module Array.
Section Sort.
Context {A : Type} (compare : A -> A -> option Z).

(** [a] may stay in front of [b]. *)
Definition in_order (a b : A) : bool :=
  match compare a b with
  | Some v => v <=? 0
  | None => true
  end.

Fixpoint insert_sorted (x : A) (l : list A) : list A :=
  match l with
  | [] => [x]
  | y :: l' => if in_order x y then x :: y :: l' else y :: insert_sorted x l'
  end.

Definition sort (l : list A) : list A := foldr insert_sorted [] l.
End Sort.

(** [l.slice(0, n)] *)
Definition slice0 {A : Type} (n : nat) (l : list A) : list A := firstn n l.
End Array.

(** [(a, b) => new Date(b.createdAt).getTime() - new Date(a.createdAt).getTime()] *)
Definition newest_first (a b : Book.t) : option Z :=
  match Date.getTime (Book.createdAt b), Date.getTime (Book.createdAt a) with
  | Some tb, Some ta => Some (tb - ta)
  | _, _ => None
  end.

(** ** Books *)

Definition listBook (env : Env) (payload : BookPayload.t) (st : State)
  : Result Book.t * State :=
  if negb (Js.truthy (BookPayload.title payload))
     || negb (Js.truthy (BookPayload.author payload))
     || negb (Js.truthy (BookPayload.description payload))
     || negb (Js.truthy (BookPayload.imageUrl payload))
  then (Err (InvalidPayload
               "Ensure 'title', 'author', 'description', and 'imageUrl' are provided."), st)
  else
    match usersStorage st !! BookPayload.userId payload with
    | None => (Err (NotFound "User not found"), st)
    | Some _ =>
        let bookId := uuid env in
        let book :=
          {| Book.bookId := bookId;
             Book.userId := BookPayload.userId payload;
             Book.title := BookPayload.title payload;
             Book.author := BookPayload.author payload;
             Book.genre := BookPayload.genre payload;
             Book.description := BookPayload.description payload;
             Book.imageUrl := BookPayload.imageUrl payload;
             Book.createdAt := Date.toISOString (now env) |} in
        (Ok book, set_books st (<[bookId := book]> (booksStorage st)))
    end.

Definition updateBook (bookId : string) (payload : BookPayload.t) (st : State)
  : Result Book.t * State :=
  if negb (Js.truthy bookId)
  then (Err (InvalidPayload "Ensure 'bookId' is provided."), st)
  else
    match booksStorage st !! bookId with
    | None => (Err (NotFound "Book not found"), st)
    | Some book =>
        let updatedBook :=
          {| Book.bookId := Book.bookId book;
             Book.userId := BookPayload.userId payload;
             Book.title := BookPayload.title payload;
             Book.author := BookPayload.author payload;
             Book.genre := BookPayload.genre payload;
             Book.description := BookPayload.description payload;
             Book.imageUrl := BookPayload.imageUrl payload;
             Book.createdAt := Book.createdAt book |} in
        (Ok updatedBook, set_books st (<[bookId := updatedBook]> (booksStorage st)))
    end.

Definition getBook (bookId : string) (st : State) : Result Book.t :=
  match booksStorage st !! bookId with
  | None => Err (NotFound "Book not found")
  | Some book => Ok book
  end.

(** The filter of [searchBooks]. *)
Definition book_matches (searchTerm : string) (book : Book.t) : bool :=
  Js.includes (Js.toLowerCase (Js.units (Book.title book)))
    (Js.toLowerCase (Js.units searchTerm))
  || Js.includes (Js.toLowerCase (Js.units (Book.author book)))
       (Js.toLowerCase (Js.units searchTerm))
  || Js.includes (Js.toLowerCase (Js.units (Book.genre book)))
       (Js.toLowerCase (Js.units searchTerm)).

Definition searchBooks (searchTerm : string) (st : State) : Result (list Book.t) :=
  let books := List.filter (book_matches searchTerm) (values (booksStorage st)) in
  if (length books =? 0)%nat
  then Err (NotFound "No books found matching the search term.")
  else Ok books.

Definition getRecentBooks (st : State) : Result (list Book.t) :=
  let recentBooks :=
    Array.slice0 10 (Array.sort newest_first (values (booksStorage st))) in
  if (length recentBooks =? 0)%nat
  then Err (NotFound "No recent books found.")
  else Ok recentBooks.

Definition deleteBook (bookId : string) (st : State) : Result unit * State :=
  match booksStorage st !! bookId with
  | None => (Err (NotFound "Book not found."), st)
  | Some _ => (Ok tt, set_books st (delete bookId (booksStorage st)))
  end.

(** ** Swap requests *)

(** The test both loops of [createSwapRequest] apply to a stored request. *)
Definition same_triple (payload : SwapRequestPayload.t) (swapRequest : SwapRequest.t) : bool :=
  String.eqb (SwapRequest.ownerId swapRequest) (SwapRequestPayload.ownerId payload)
  && String.eqb (SwapRequest.requesterId swapRequest) (SwapRequestPayload.requesterId payload)
  && String.eqb (SwapRequest.bookId swapRequest) (SwapRequestPayload.bookId payload).

Definition createSwapRequest (env : Env) (payload : SwapRequestPayload.t) (st : State)
  : Result SwapRequest.t * State :=
  if negb (Js.truthy (SwapRequestPayload.ownerId payload))
     || negb (Js.truthy (SwapRequestPayload.requesterId payload))
     || negb (Js.truthy (SwapRequestPayload.bookId payload))
  then (Err (InvalidPayload
               "Ensure 'ownerId', 'requesterId', and 'bookId' are provided."), st)
  else
    match usersStorage st !! SwapRequestPayload.ownerId payload with
    | None => (Err (NotFound "User not found"), st)
    | Some _ =>
    match usersStorage st !! SwapRequestPayload.requesterId payload with
    | None => (Err (NotFound "Requester not found"), st)
    | Some _ =>
    match booksStorage st !! SwapRequestPayload.bookId payload with
    | None => (Err (NotFound "Book not found"), st)
    | Some _ =>
        let swapRequests := values (swapRequestsStorage st) in
        if existsb (same_triple payload) swapRequests
        then (Err (InvalidPayload
                     "Swap request already exists: Ensure the swap request is unique."), st)
        else
          let acceptedSwapRequests :=
            List.filter (fun swapRequest =>
                           String.eqb (SwapRequest.status swapRequest) "Completed")
              swapRequests in
          if existsb (same_triple payload) acceptedSwapRequests
          then (Err (InvalidPayload
                       "Swap request already exists: Ensure the swap request is unique."), st)
          else
            let swapRequestId := uuid env in
            let swapRequest :=
              {| SwapRequest.swapRequestId := swapRequestId;
                 SwapRequest.ownerId := SwapRequestPayload.ownerId payload;
                 SwapRequest.requesterId := SwapRequestPayload.requesterId payload;
                 SwapRequest.bookId := SwapRequestPayload.bookId payload;
                 SwapRequest.status := "Pending";
                 SwapRequest.createdAt := Date.toISOString (now env) |} in
            (Ok swapRequest,
             set_swapRequests st (<[swapRequestId := swapRequest]> (swapRequestsStorage st)))
    end end end.

Definition updateSwapRequest (swapRequestId : string) (payload : SwapRequestPayload.t)
    (st : State) : Result SwapRequest.t * State :=
  match swapRequestsStorage st !! swapRequestId with
  | None => (Err (NotFound "Swap request not found."), st)
  | Some swapRequest =>
      let updatedSwapRequest :=
        {| SwapRequest.swapRequestId := SwapRequest.swapRequestId swapRequest;
           SwapRequest.ownerId := SwapRequestPayload.ownerId payload;
           SwapRequest.requesterId := SwapRequestPayload.requesterId payload;
           SwapRequest.bookId := SwapRequestPayload.bookId payload;
           SwapRequest.status := SwapRequest.status swapRequest;
           SwapRequest.createdAt := SwapRequest.createdAt swapRequest |} in
      (Ok updatedSwapRequest,
       set_swapRequests st (<[swapRequestId := updatedSwapRequest]> (swapRequestsStorage st)))
  end.

Definition getSwapRequest (swapRequestId : string) (st : State) : Result SwapRequest.t :=
  match swapRequestsStorage st !! swapRequestId with
  | None => Err (NotFound "Swap request not found.")
  | Some swapRequest => Ok swapRequest
  end.

(** [{...swapRequest, status}] *)
Definition with_status (swapRequest : SwapRequest.t) (status : string) : SwapRequest.t :=
  {| SwapRequest.swapRequestId := SwapRequest.swapRequestId swapRequest;
     SwapRequest.ownerId := SwapRequest.ownerId swapRequest;
     SwapRequest.requesterId := SwapRequest.requesterId swapRequest;
     SwapRequest.bookId := SwapRequest.bookId swapRequest;
     SwapRequest.status := status;
     SwapRequest.createdAt := SwapRequest.createdAt swapRequest |}.

Definition acceptSwapRequest (swapRequestId : string) (st : State)
  : Result SwapRequest.t * State :=
  match swapRequestsStorage st !! swapRequestId with
  | None => (Err (NotFound "Swap request not found."), st)
  | Some swapRequest =>
      let updatedSwapRequest := with_status swapRequest "Completed" in
      (Ok updatedSwapRequest,
       set_swapRequests st (<[swapRequestId := updatedSwapRequest]> (swapRequestsStorage st)))
  end.

Definition rejectSwapRequest (swapRequestId : string) (st : State)
  : Result SwapRequest.t * State :=
  match swapRequestsStorage st !! swapRequestId with
  | None => (Err (NotFound "Swap request not found"), st)
  | Some swapRequest =>
      let updatedSwapRequest := with_status swapRequest "Rejected" in
      (Ok updatedSwapRequest,
       set_swapRequests st (<[swapRequestId := updatedSwapRequest]> (swapRequestsStorage st)))
  end.

Definition deleteSwapRequest (swapRequestId : string) (st : State) : Result unit * State :=
  match swapRequestsStorage st !! swapRequestId with
  | None => (Err (NotFound "Swap request not found"), st)
  | Some _ => (Ok tt, set_swapRequests st (delete swapRequestId (swapRequestsStorage st)))
  end.

(** ** Feedback *)

(** [!payload.rating || !payload.comment]: a [nat64] is falsy when it is 0. *)
Definition feedback_incomplete (payload : FeedbackPayload.t) : bool :=
  (FeedbackPayload.rating payload =? 0)%N || negb (Js.truthy (FeedbackPayload.comment payload)).

Definition createFeedback (env : Env) (payload : FeedbackPayload.t) (st : State)
  : Result Feedback.t * State :=
  if feedback_incomplete payload
  then (Err (InvalidPayload "Ensure 'rating' and 'comment' are provided."), st)
  else
    match usersStorage st !! FeedbackPayload.userId payload with
    | None => (Err (NotFound "User not found."), st)
    | Some _ =>
    match swapRequestsStorage st !! FeedbackPayload.swapRequestId payload with
    | None => (Err (NotFound "Swap request not found."), st)
    | Some _ =>
        let feedbackId := uuid env in
        let feedback :=
          {| Feedback.feedbackId := feedbackId;
             Feedback.userId := FeedbackPayload.userId payload;
             Feedback.swapRequestId := FeedbackPayload.swapRequestId payload;
             Feedback.rating := FeedbackPayload.rating payload;
             Feedback.comment := FeedbackPayload.comment payload;
             Feedback.createdAt := Date.toISOString (now env) |} in
        (Ok feedback, set_feedback st (<[feedbackId := feedback]> (feedbackStorage st)))
    end end.

Definition updateFeedback (env : Env) (payload : FeedbackPayload.t) (st : State)
  : Result Feedback.t * State :=
  if feedback_incomplete payload
  then (Err (InvalidPayload "Ensure 'rating' and 'comment' are provided."), st)
  else
    let feedbackId := toText (caller env) in
    match feedbackStorage st !! feedbackId with
    | None => (Err (NotFound "Feedback not found"), st)
    | Some feedback =>
        let updatedFeedback :=
          {| Feedback.feedbackId := Feedback.feedbackId feedback;
             Feedback.userId := FeedbackPayload.userId payload;
             Feedback.swapRequestId := FeedbackPayload.swapRequestId payload;
             Feedback.rating := FeedbackPayload.rating payload;
             Feedback.comment := FeedbackPayload.comment payload;
             Feedback.createdAt := Feedback.createdAt feedback |} in
        (Ok updatedFeedback,
         set_feedback st (<[feedbackId := updatedFeedback]> (feedbackStorage st)))
    end.

Definition getFeedback (feedbackId : string) (st : State) : Result Feedback.t :=
  match feedbackStorage st !! feedbackId with
  | None => Err (NotFound "Feedback not found")
  | Some feedback => Ok feedback
  end.

Definition deleteFeedback (feedbackId : string) (st : State) : Result unit * State :=
  match feedbackStorage st !! feedbackId with
  | None => (Err (NotFound "Feedback not found"), st)
  | Some _ => (Ok tt, set_feedback st (delete feedbackId (feedbackStorage st)))
  end.

(** ** Featured swappers *)

(** A [Map<string, number>]: entries in insertion order, [set] on a key
    already present keeps its place. *)
Module JsMap.
Definition t : Type := list (string * N).

Fixpoint get (m : t) (k : string) : option N :=
  match m with
  | [] => None
  | (k', v) :: m' => if String.eqb k' k then Some v else get m' k
  end.

Fixpoint set (m : t) (k : string) (v : N) : t :=
  match m with
  | [] => [(k, v)]
  | (k', v') :: m' =>
      if String.eqb k' k then (k', v) :: m' else (k', v') :: set m' k v
  end.
End JsMap.

Module FeaturedSwapper.
Record t : Type := mk {
  username : string;
  booksSwapped : N;
  userId : string;
  bookDetails : option Book.t
}.
End FeaturedSwapper.

(** The filter of [getFeaturedSwappers]: completed, and created in the month
    and year of the call.  A getter of an invalid date gives NaN, which is
    equal to nothing. *)
Definition completed_this_month (currentMonth currentYear : Z)
    (swapRequest : SwapRequest.t) : bool :=
  String.eqb (SwapRequest.status swapRequest) "Completed"
  && match Date.getMonth (SwapRequest.createdAt swapRequest) with
     | Some m => m =? currentMonth
     | None => false
     end
  && match Date.getFullYear (SwapRequest.createdAt swapRequest) with
     | Some y => y =? currentYear
     | None => false
     end.

(** The body of the [forEach]: both counts are read before either is written. *)
Definition count_swap (swapCountPerUser : JsMap.t) (swapRequest : SwapRequest.t) : JsMap.t :=
  let requesterCount :=
    default 0%N (JsMap.get swapCountPerUser (SwapRequest.requesterId swapRequest)) in
  let ownerCount :=
    default 0%N (JsMap.get swapCountPerUser (SwapRequest.ownerId swapRequest)) in
  JsMap.set
    (JsMap.set swapCountPerUser (SwapRequest.requesterId swapRequest) (requesterCount + 1)%N)
    (SwapRequest.ownerId swapRequest) (ownerCount + 1)%N.

Definition swapCountPerUser (completedSwapRequests : list SwapRequest.t) : JsMap.t :=
  fold_left count_swap completedSwapRequests [].

(** [(a, b) => b[1] - a[1]] *)
Definition most_swaps_first (a b : string * N) : option Z :=
  Some (Z.of_N (snd b) - Z.of_N (snd a)).

(** The callback of [map]: [None] is the [undefined] of a user that is not
    stored. *)
Definition featured_entry (st : State) (entry : string * N) : option FeaturedSwapper.t :=
  let '(userId, booksSwapped) := entry in
  match usersStorage st !! userId with
  | Some user =>
      let userBooks :=
        Array.sort newest_first
          (List.filter (fun book => String.eqb (Book.userId book) userId)
             (values (booksStorage st))) in
      let bookDetails := head userBooks in
      Some {| FeaturedSwapper.username := User.name user;
              FeaturedSwapper.booksSwapped := booksSwapped;
              FeaturedSwapper.userId := User.userId user;
              FeaturedSwapper.bookDetails := bookDetails |}
  | None => None
  end.

Definition completedSwapRequests (now : Z) (st : State) : list SwapRequest.t :=
  List.filter (completed_this_month (Date.monthFromTime now) (Date.yearFromTime now))
    (values (swapRequestsStorage st)).

Definition getFeaturedSwappers (now : Z) (st : State) : Result (list FeaturedSwapper.t) :=
  let featuredSwappers :=
    Array.slice0 5
      (omap (featured_entry st)
         (Array.sort most_swaps_first (swapCountPerUser (completedSwapRequests now st)))) in
  if (length featuredSwappers =? 0)%nat
  then Err (NotFound "No featured swappers found for this month.")
  else Ok featuredSwappers.

(** ** Identifiers drawn from outside

    [uuidv4()] returns 36 characters, lower-case hexadecimal in the groups
    8-4-4-4-12 with the version and variant digits fixed.  The text of a
    principal is groups of five base-32 characters separated by dashes, 8 to
    63 characters long.  [new Date()] holds a time value. *)

Definition is_hex (c : ascii) : bool :=
  let n := N_of_ascii c in
  (((48 <=? n) && (n <=? 57)) || ((97 <=? n) && (n <=? 102)))%N.

Definition is_base32 (c : ascii) : bool :=
  let n := N_of_ascii c in
  (((97 <=? n) && (n <=? 122)) || ((50 <=? n) && (n <=? 55)))%N.

(** In the pattern, [x] is a hexadecimal digit, [y] one of 8, 9, a, b, and
    any other character is itself. *)
Fixpoint matches_pattern (pattern s : string) : bool :=
  match pattern, s with
  | EmptyString, EmptyString => true
  | String p pattern', String c s' =>
      (if Ascii.eqb p "x" then is_hex c
       else if Ascii.eqb p "y"
       then Ascii.eqb c "8" || Ascii.eqb c "9" || Ascii.eqb c "a" || Ascii.eqb c "b"
       else Ascii.eqb c p)
      && matches_pattern pattern' s'
  | _, _ => false
  end.

Definition is_uuid_v4 (s : string) : bool :=
  matches_pattern "xxxxxxxx-xxxx-4xxx-yxxx-xxxxxxxxxxxx" s.

(** [n] characters of the current group have been read. *)
Fixpoint principal_groups (n : nat) (s : string) : bool :=
  match s with
  | EmptyString => (0 <? n)%nat
  | String c s' =>
      if Ascii.eqb c "-" then (n =? 5)%nat && principal_groups 0 s'
      else is_base32 c && (n <? 5)%nat && principal_groups (S n) s'
  end.

Definition is_principal_text (s : string) : bool :=
  principal_groups 0 s
  && (8 <=? String.length s)%nat && (String.length s <=? 63)%nat.

(** The time values a [Date] can hold: 100 000 000 days either side of the
    epoch. *)
Definition is_time_value (t : Z) : Prop :=
  -8640000000000000 ≤ t ≤ 8640000000000000.

Definition env_ok (env : Env) : Prop :=
  is_uuid_v4 (uuid env) = true
  ∧ is_principal_text (toText (caller env)) = true
  ∧ is_time_value (now env).

(** ** The update methods as one step function *)

Inductive Op : Type :=
| CreateUserProfile (payload : UserPayload.t)
| UpdateUserProfile (userId : string) (payload : UserPayload.t)
| ListBook (payload : BookPayload.t)
| UpdateBook (bookId : string) (payload : BookPayload.t)
| DeleteBook (bookId : string)
| CreateSwapRequest (payload : SwapRequestPayload.t)
| UpdateSwapRequest (swapRequestId : string) (payload : SwapRequestPayload.t)
| AcceptSwapRequest (swapRequestId : string)
| RejectSwapRequest (swapRequestId : string)
| DeleteSwapRequest (swapRequestId : string)
| CreateFeedback (payload : FeedbackPayload.t)
| UpdateFeedback (payload : FeedbackPayload.t)
| DeleteFeedback (feedbackId : string).

Definition step (env : Env) (op : Op) (st : State) : State :=
  match op with
  | CreateUserProfile payload => snd (createUserProfile env payload st)
  | UpdateUserProfile userId payload => snd (updateUserProfile userId payload st)
  | ListBook payload => snd (listBook env payload st)
  | UpdateBook bookId payload => snd (updateBook bookId payload st)
  | DeleteBook bookId => snd (deleteBook bookId st)
  | CreateSwapRequest payload => snd (createSwapRequest env payload st)
  | UpdateSwapRequest swapRequestId payload => snd (updateSwapRequest swapRequestId payload st)
  | AcceptSwapRequest swapRequestId => snd (acceptSwapRequest swapRequestId st)
  | RejectSwapRequest swapRequestId => snd (rejectSwapRequest swapRequestId st)
  | DeleteSwapRequest swapRequestId => snd (deleteSwapRequest swapRequestId st)
  | CreateFeedback payload => snd (createFeedback env payload st)
  | UpdateFeedback payload => snd (updateFeedback env payload st)
  | DeleteFeedback feedbackId => snd (deleteFeedback feedbackId st)
  end.

(** Calls run one after the other, each to completion. *)
Definition run (calls : list (Env * Op)) (st : State) : State :=
  fold_left (fun st call => step (fst call) (snd call) st) calls st.

Inductive reachable : State -> Prop :=
| reachable_init : reachable empty_state
| reachable_step (st : State) (env : Env) (op : Op) :
    reachable st -> env_ok env -> reachable (step env op st).


(** * Predicates used in the statements *)

(** [out] is a success that stored, under [id], the request [r] with its
    status replaced by [status], and touched nothing else. *)
Definition only_status_set (id status : string) (r : SwapRequest.t) (st : State)
    (out : Result SwapRequest.t * State) : Prop :=
  ∃ r',
    out.1 = Ok r'
    ∧ swapRequestsStorage out.2 !! id = Some r'
    ∧ SwapRequest.status r' = status
    ∧ SwapRequest.swapRequestId r' = SwapRequest.swapRequestId r
    ∧ SwapRequest.ownerId r' = SwapRequest.ownerId r
    ∧ SwapRequest.requesterId r' = SwapRequest.requesterId r
    ∧ SwapRequest.bookId r' = SwapRequest.bookId r
    ∧ SwapRequest.createdAt r' = SwapRequest.createdAt r
    ∧ (∀ j, j ≠ id → swapRequestsStorage out.2 !! j = swapRequestsStorage st !! j)
    ∧ usersStorage out.2 = usersStorage st
    ∧ booksStorage out.2 = booksStorage st
    ∧ feedbackStorage out.2 = feedbackStorage st.


(** Some field of a [BookPayload] is empty. *)
Definition some_book_field_empty (payload : BookPayload.t) : Prop :=
  BookPayload.userId payload = "" ∨ BookPayload.title payload = ""
  ∨ BookPayload.author payload = "" ∨ BookPayload.genre payload = ""
  ∨ BookPayload.description payload = "" ∨ BookPayload.imageUrl payload = "".

(** One of the four fields that [listBook] tests is empty. *)
Definition some_tested_book_field_empty (payload : BookPayload.t) : Prop :=
  BookPayload.title payload = "" ∨ BookPayload.author payload = ""
  ∨ BookPayload.description payload = "" ∨ BookPayload.imageUrl payload = "".

(** A stored request carries the triple of [payload]. *)
Definition triple_stored (payload : SwapRequestPayload.t) (st : State) : Prop :=
  ∃ k r, swapRequestsStorage st !! k = Some r
         ∧ SwapRequest.ownerId r = SwapRequestPayload.ownerId payload
         ∧ SwapRequest.requesterId r = SwapRequestPayload.requesterId payload
         ∧ SwapRequest.bookId r = SwapRequestPayload.bookId payload.

(** The owner, the requester and the book of [payload] are stored. *)
Definition triple_resolves (payload : SwapRequestPayload.t) (st : State) : Prop :=
  is_Some (usersStorage st !! SwapRequestPayload.ownerId payload)
  ∧ is_Some (usersStorage st !! SwapRequestPayload.requesterId payload)
  ∧ is_Some (booksStorage st !! SwapRequestPayload.bookId payload).

(** Payloads that the creating methods accept in a state. *)
Definition user_payload_accepted (payload : UserPayload.t) (st : State) : Prop :=
  UserPayload.name payload ≠ "" ∧ UserPayload.email payload ≠ ""
  ∧ UserPayload.phoneNumber payload ≠ ""
  ∧ isValidEmail (UserPayload.email payload) = true
  ∧ isValidPhoneNumber (UserPayload.phoneNumber payload) = true
  ∧ (∀ k user, usersStorage st !! k = Some user →
               User.email user ≠ UserPayload.email payload).

Definition book_payload_accepted (payload : BookPayload.t) (st : State) : Prop :=
  BookPayload.title payload ≠ "" ∧ BookPayload.author payload ≠ ""
  ∧ BookPayload.description payload ≠ "" ∧ BookPayload.imageUrl payload ≠ ""
  ∧ is_Some (usersStorage st !! BookPayload.userId payload).

Definition swap_payload_accepted (payload : SwapRequestPayload.t) (st : State) : Prop :=
  SwapRequestPayload.ownerId payload ≠ "" ∧ SwapRequestPayload.requesterId payload ≠ ""
  ∧ SwapRequestPayload.bookId payload ≠ ""
  ∧ triple_resolves payload st
  ∧ ¬ triple_stored payload st.

Definition feedback_payload_accepted (payload : FeedbackPayload.t) (st : State) : Prop :=
  FeedbackPayload.rating payload ≠ 0%N ∧ FeedbackPayload.comment payload ≠ ""
  ∧ is_Some (usersStorage st !! FeedbackPayload.userId payload)
  ∧ is_Some (swapRequestsStorage st !! FeedbackPayload.swapRequestId payload).

(** [book] has the fields of [payload], the identifier [id] and the creation
    time [createdAt]. *)
Definition book_from_payload (payload : BookPayload.t) (id createdAt : string)
    (book : Book.t) : Prop :=
  Book.bookId book = id
  ∧ Book.createdAt book = createdAt
  ∧ Book.userId book = BookPayload.userId payload
  ∧ Book.title book = BookPayload.title payload
  ∧ Book.author book = BookPayload.author payload
  ∧ Book.genre book = BookPayload.genre payload
  ∧ Book.description book = BookPayload.description payload
  ∧ Book.imageUrl book = BookPayload.imageUrl payload.

Definition user_from_payload (payload : UserPayload.t) (id createdAt : string)
    (user : User.t) : Prop :=
  User.userId user = id
  ∧ User.createdAt user = createdAt
  ∧ User.name user = UserPayload.name payload
  ∧ User.email user = UserPayload.email payload
  ∧ User.phoneNumber user = UserPayload.phoneNumber payload.

Definition swapRequest_from_payload (payload : SwapRequestPayload.t)
    (id createdAt : string) (swapRequest : SwapRequest.t) : Prop :=
  SwapRequest.swapRequestId swapRequest = id
  ∧ SwapRequest.createdAt swapRequest = createdAt
  ∧ SwapRequest.ownerId swapRequest = SwapRequestPayload.ownerId payload
  ∧ SwapRequest.requesterId swapRequest = SwapRequestPayload.requesterId payload
  ∧ SwapRequest.bookId swapRequest = SwapRequestPayload.bookId payload.

Definition feedback_from_payload (payload : FeedbackPayload.t) (id createdAt : string)
    (feedback : Feedback.t) : Prop :=
  Feedback.feedbackId feedback = id
  ∧ Feedback.createdAt feedback = createdAt
  ∧ Feedback.userId feedback = FeedbackPayload.userId payload
  ∧ Feedback.swapRequestId feedback = FeedbackPayload.swapRequestId payload
  ∧ Feedback.rating feedback = FeedbackPayload.rating payload
  ∧ Feedback.comment feedback = FeedbackPayload.comment payload.

(** The string that [toLowerCase] makes of a text. *)
Definition lowered (s : string) : Js.text := Js.toLowerCase (Js.units s).

(** The lower-cased [field] contains, at some position, the lower-cased
    [term]. *)
Definition lowered_contains (field term : string) : Prop :=
  ∃ pre post : Js.text, lowered field = (pre ++ lowered term ++ post)%list.

(** What [searchBooks] looks for in a book. *)
Definition book_found_by (searchTerm : string) (book : Book.t) : Prop :=
  lowered_contains (Book.title book) searchTerm
  ∨ lowered_contains (Book.author book) searchTerm
  ∨ lowered_contains (Book.genre book) searchTerm.



(** A code unit that [toLowerCase] maps by itself to one code unit: not half
    of a surrogate pair, not the capital sigma U+03A3, whose lower case
    depends on its place in the word, and not the dotted capital I U+0130,
    whose lower case is two code units. *)
Definition plain_unit (u : N) : bool :=
  ((u <? 0xD800) || ((0xE000 <=? u) && (u <? 0x10000)))%N
  && negb (u =? 0x3A3)%N && negb (u =? 0x130)%N.

Definition plain (s : string) : Prop :=
  Forall (λ u, plain_unit u = true) (Js.units s).

(** The three texts of a book that [searchBooks] reads are plain. *)
Definition plain_book (book : Book.t) : Prop :=
  plain (Book.title book) ∧ plain (Book.author book) ∧ plain (Book.genre book).


(** Every key of the feedback store has the form of a version-4 UUID. *)
Definition feedback_keys_are_uuids (st : State) : Prop :=
  ∀ k feedback, feedbackStorage st !! k = Some feedback → is_uuid_v4 k = true.

(** No two stored users have the same email. *)
Definition emails_unique (st : State) : Prop :=
  ∀ k1 k2 user1 user2,
    usersStorage st !! k1 = Some user1 → usersStorage st !! k2 = Some user2 →
    k1 ≠ k2 → User.email user1 ≠ User.email user2.

(** Every user is stored under its own [userId]. *)
Definition users_keyed_by_id (st : State) : Prop :=
  ∀ k user, usersStorage st !! k = Some user → User.userId user = k.

(** Some stored user has the email. *)
Definition email_taken (email : string) (st : State) : Prop :=
  ∃ k user, usersStorage st !! k = Some user ∧ User.email user = email.

(** Some stored user other than [userId] has the email. *)
Definition email_taken_by_other (userId email : string) (st : State) : Prop :=
  ∃ k user, usersStorage st !! k = Some user
            ∧ User.email user = email ∧ User.userId user ≠ userId.

(** The creation time of the book is a valid date. *)
Definition book_dated (book : Book.t) : Prop :=
  is_Some (Date.getTime (Book.createdAt book)).

(** [a] was created at the same time as [b] or later. *)
Definition not_older (a b : Book.t) : Prop :=
  ∃ ta tb, Date.getTime (Book.createdAt a) = Some ta
           ∧ Date.getTime (Book.createdAt b) = Some tb
           ∧ tb ≤ ta.

(** The request is completed and was created in the calendar month and year
    of the time [now]. *)
Definition completed_in_month_of (now : Z) (swapRequest : SwapRequest.t) : Prop :=
  SwapRequest.status swapRequest = "Completed"
  ∧ ∃ t, Date.getTime (SwapRequest.createdAt swapRequest) = Some t
         ∧ Date.monthFromTime t = Date.monthFromTime now
         ∧ Date.yearFromTime t = Date.yearFromTime now.

(** The number of requests of [l] in which the user is the owner or the
    requester; a request in which the user is both counts once. *)
Definition swaps_of (userId : string) (l : list SwapRequest.t) : N :=
  N.of_nat (length (filter (λ r, SwapRequest.ownerId r = userId
                                 ∨ SwapRequest.requesterId r = userId) l)).

(** [entry] is the line of the ranking for the user stored under [key],
    computed over the requests [window]. *)
Definition ranks (st : State) (window : list SwapRequest.t) (key : string)
    (entry : FeaturedSwapper.t) : Prop :=
  ∃ user, usersStorage st !! key = Some user
          ∧ FeaturedSwapper.username entry = User.name user
          ∧ FeaturedSwapper.userId entry = User.userId user
          ∧ FeaturedSwapper.booksSwapped entry = swaps_of key window
          ∧ (0 < swaps_of key window)%N.

(** [a] has at least as many swaps as [b]. *)
Definition at_least_as_busy (a b : FeaturedSwapper.t) : Prop :=
  (FeaturedSwapper.booksSwapped b ≤ FeaturedSwapper.booksSwapped a)%N.

(** The count a user has in the map, 0 when the user has no entry. *)
Definition count_in (m : JsMap.t) (userId : string) : N :=
  default 0%N (JsMap.get m userId).

(** Two requests carry the same [(ownerId, requesterId, bookId)]. *)
Definition same_triple_as (r1 r2 : SwapRequest.t) : Prop :=
  SwapRequest.ownerId r1 = SwapRequest.ownerId r2
  ∧ SwapRequest.requesterId r1 = SwapRequest.requesterId r2
  ∧ SwapRequest.bookId r1 = SwapRequest.bookId r2.

(** At most one request that is not completed is stored for a triple. *)
Definition one_open_request_per_triple (st : State) : Prop :=
  ∀ k1 k2 r1 r2,
    swapRequestsStorage st !! k1 = Some r1 → swapRequestsStorage st !! k2 = Some r2 →
    same_triple_as r1 r2 →
    SwapRequest.status r1 ≠ "Completed" → SwapRequest.status r2 ≠ "Completed" →
    k1 = k2.

(** At most one request, in whatever status, is stored for a triple. *)
Definition one_request_per_triple (st : State) : Prop :=
  ∀ k1 k2 r1 r2,
    swapRequestsStorage st !! k1 = Some r1 → swapRequestsStorage st !! k2 = Some r2 →
    same_triple_as r1 r2 → k1 = k2.

Definition is_UpdateSwapRequest (op : Op) : bool :=
  match op with
  | UpdateSwapRequest _ _ => true
  | _ => false
  end.

(** Every stored book carries as [createdAt] what [toISOString] writes for
    some time value. *)
Definition books_timestamped (st : State) : Prop :=
  ∀ k book, booksStorage st !! k = Some book →
            ∃ t, is_time_value t ∧ Book.createdAt book = Date.toISOString t.

(** The check, on one day of an era, that [date_in_era] gives a date of the
    calendar and that [days_from_civil] leads back to the day. *)
Definition era_day_ok (doe : Z) : bool :=
  let '(yoe, m, d) := Date.date_in_era doe in
  let y := if m <=? 2 then yoe + 1 else yoe in
  (0 <=? yoe) && (yoe <=? 399) && (1 <=? m) && (m <=? 12) && (1 <=? d)
  && (d <=? Date.days_in_month y m) && (Date.days_from_civil y m d + 719468 =? doe).

(** [f] holds on the [n] integers from [from] on. *)
Fixpoint all_from (f : Z -> bool) (n : nat) (from : Z) : bool :=
  match n with
  | O => true
  | S n' => f from && all_from f n' (from + 1)
  end.

(** ** Concrete calls used as examples *)

Module Scenario.

Definition ann_principal : Principal := mkPrincipal "aaaaa-aa".
Definition bob_principal : Principal := mkPrincipal "2vxsx-fae".

(** 2024-11-01T22:26:40.123Z *)
Definition t0 : Z := 1730500000123.

Definition annId : string := "00000000-0000-4000-8000-00000000000a".
Definition bobId : string := "00000000-0000-4000-8000-00000000000b".
Definition cyId : string := "00000000-0000-4000-8000-00000000000c".
Definition duneId : string := "00000000-0000-4000-8000-0000000000b1".
Definition emmaId : string := "00000000-0000-4000-8000-0000000000b2".
Definition swap1 : string := "00000000-0000-4000-8000-0000000000c1".
Definition swap2 : string := "00000000-0000-4000-8000-0000000000c2".
Definition swap3 : string := "00000000-0000-4000-8000-0000000000c3".
Definition swap4 : string := "00000000-0000-4000-8000-0000000000c4".
Definition feedback1 : string := "00000000-0000-4000-8000-0000000000f1".
Definition freshId : string := "00000000-0000-4000-8000-0000000000ff".

Definition ann : UserPayload.t := UserPayload.mk "Ann" "ann@books.org" "0123456789".
Definition bob : UserPayload.t := UserPayload.mk "Bob" "bob@books.org" "0123456780".
Definition cy : UserPayload.t := UserPayload.mk "Cy" "cy@books.org" "0123456781".

(** Bob's data with Ann's email. *)
Definition bob_as_ann : UserPayload.t := UserPayload.mk "Bob" "ann@books.org" "0123456780".

Definition dune : BookPayload.t :=
  BookPayload.mk annId "Dune" "Frank Herbert" "Science Fiction" "Arrakis" "dune.png".
Definition emma : BookPayload.t :=
  BookPayload.mk bobId "Emma" "Jane Austen" "Fantasy" "Highbury" "emma.png".
(** As [dune], without a genre. *)
Definition dune_no_genre : BookPayload.t :=
  BookPayload.mk annId "Dune" "Frank Herbert" "" "Arrakis" "dune.png".
(** As [dune], without a title. *)
Definition dune_no_title : BookPayload.t :=
  BookPayload.mk annId "" "Frank Herbert" "Science Fiction" "Arrakis" "dune.png".

Definition ann_bob_dune : SwapRequestPayload.t := SwapRequestPayload.mk annId bobId duneId.
Definition bob_ann_dune : SwapRequestPayload.t := SwapRequestPayload.mk bobId annId duneId.
Definition ann_cy_dune : SwapRequestPayload.t := SwapRequestPayload.mk annId cyId duneId.
Definition bob_ann_emma : SwapRequestPayload.t := SwapRequestPayload.mk bobId annId emmaId.
Definition ann_ann_dune : SwapRequestPayload.t := SwapRequestPayload.mk annId annId duneId.

Definition praise : FeedbackPayload.t := FeedbackPayload.mk bobId swap1 5 "Smooth swap".

(** A later call by Ann, drawing an identifier not used before. *)
Definition later : Env := mkEnv ann_principal (t0 + 60000) freshId.

(** Three users and two books. *)
Definition setup : list (Env * Op) :=
  [ (mkEnv ann_principal t0 annId, CreateUserProfile ann);
    (mkEnv bob_principal (t0 + 1000) bobId, CreateUserProfile bob);
    (mkEnv bob_principal (t0 + 2000) cyId, CreateUserProfile cy);
    (mkEnv ann_principal (t0 + 3000) duneId, ListBook dune);
    (mkEnv bob_principal (t0 + 4000) emmaId, ListBook emma) ].

Definition library : State := run setup empty_state.

(** Bob asks Ann for Dune. *)
Definition one_request : State :=
  step (mkEnv bob_principal (t0 + 5000) swap1) (CreateSwapRequest ann_bob_dune) library.

(** ... and Ann then withdraws the book. *)
Definition book_withdrawn : State :=
  step (mkEnv ann_principal (t0 + 6000) swap2) (DeleteBook duneId) one_request.

(** A second request is created for another triple and then rewritten to
    the triple of the first. *)
Definition rewrite_calls : list (Env * Op) :=
  [ (mkEnv ann_principal (t0 + 6000) swap2, CreateSwapRequest bob_ann_dune);
    (mkEnv ann_principal (t0 + 7000) swap3, UpdateSwapRequest swap2 ann_bob_dune) ].

Definition rewritten : State := run rewrite_calls one_request.

(** Three requests, all accepted: Ann takes part in three, Bob in two, Cy in
    one. *)
Definition busy_calls : list (Env * Op) :=
  [ (mkEnv ann_principal (t0 + 6000) swap2, CreateSwapRequest ann_cy_dune);
    (mkEnv ann_principal (t0 + 7000) swap3, CreateSwapRequest bob_ann_emma);
    (mkEnv ann_principal (t0 + 8000) swap4, AcceptSwapRequest swap1);
    (mkEnv ann_principal (t0 + 9000) swap4, AcceptSwapRequest swap2);
    (mkEnv ann_principal (t0 + 10000) swap4, AcceptSwapRequest swap3) ].

Definition busy : State := run busy_calls one_request.

(** Ann requests her own book and accepts. *)
Definition own_request_calls : list (Env * Op) :=
  [ (mkEnv ann_principal (t0 + 5000) swap1, CreateSwapRequest ann_ann_dune);
    (mkEnv ann_principal (t0 + 6000) swap2, AcceptSwapRequest swap1) ].

Definition own_request : State := run own_request_calls library.

(** 2024-12-01T00:00:00.000Z, the first instant of the next month. *)
Definition next_month : Z := 1733011200000.

Definition after_feedback : State :=
  step (mkEnv bob_principal (t0 + 6000) feedback1) (CreateFeedback praise) one_request.

End Scenario.

(** * The other methods of the canister *)

(** ** Users *)

(** [userProfile[0]] of a filtered array that is not empty. *)
Definition getUserProfileByOwner (env : Env) (st : State) : Result User.t :=
  let userProfile :=
    List.filter (fun user =>
                   String.eqb (toText (User.owner user)) (toText (caller env)))
      (values (usersStorage st)) in
  match userProfile with
  | [] => Err (NotFound "User not found")
  | user :: _ => Ok user
  end.

(** [BigInt(users.length) as nat64] *)
Definition getTotalUsers (st : State) : Result N :=
  Ok (N.of_nat (length (values (usersStorage st)))).

(** ** Books *)

Definition getBooksByUser (userId : string) (st : State) : Result (list Book.t) :=
  Ok (List.filter (fun book => String.eqb (Book.userId book) userId)
        (values (booksStorage st))).

Definition getBooksByGenre (genre : string) (st : State) : Result (list Book.t) :=
  Ok (List.filter (fun book => String.eqb (Book.genre book) genre)
        (values (booksStorage st))).

Definition getAllBooks (st : State) : Result (list Book.t) :=
  let books := values (booksStorage st) in
  if (length books =? 0)%nat
  then Err (NotFound "No books found")
  else Ok books.

Definition getTotalBooks (st : State) : Result N :=
  Ok (N.of_nat (length (values (booksStorage st)))).

Definition getNumberOfBooks (userId : string) (st : State) : Result N :=
  let books :=
    List.filter (fun book => String.eqb (Book.userId book) userId)
      (values (booksStorage st)) in
  Ok (N.of_nat (length books)).

(** ** Swap requests *)

(** [swap.ownerId === userId || swap.requesterId === userId] *)
Definition takes_part (userId : string) (swapRequest : SwapRequest.t) : bool :=
  String.eqb (SwapRequest.ownerId swapRequest) userId
  || String.eqb (SwapRequest.requesterId swapRequest) userId.

Definition getSwapsByUser (userId : string) (st : State) : Result N :=
  let swapCount :=
    length (List.filter (takes_part userId) (values (swapRequestsStorage st))) in
  Ok (N.of_nat swapCount).

Definition getSwapRequestsByUser (userId : string) (st : State)
  : Result (list SwapRequest.t) :=
  Ok (List.filter (takes_part userId) (values (swapRequestsStorage st))).

Definition getNumberOfPendingSwapRequests (userId : string) (st : State) : Result N :=
  let swapRequests :=
    List.filter (fun swapRequest =>
                   takes_part userId swapRequest
                   && String.eqb (SwapRequest.status swapRequest) "Pending")
      (values (swapRequestsStorage st)) in
  Ok (N.of_nat (length swapRequests)).

Definition getNumberOfCompletedSwapRequests (userId : string) (st : State) : Result N :=
  let swapRequests :=
    List.filter (fun swapRequest =>
                   takes_part userId swapRequest
                   && String.eqb (SwapRequest.status swapRequest) "Completed")
      (values (swapRequestsStorage st)) in
  Ok (N.of_nat (length swapRequests)).

Definition getSwapRequestsForUser (userId : string) (st : State)
  : Result (list SwapRequest.t) :=
  match usersStorage st !! userId with
  | None => Err (NotFound "User not found")
  | Some _ =>
      let swapRequests :=
        List.filter (fun swapRequest =>
                       String.eqb (SwapRequest.ownerId swapRequest) userId)
          (values (swapRequestsStorage st)) in
      if (length swapRequests =? 0)%nat
      then Err (NotFound "No swap requests found for this user.")
      else Ok swapRequests
  end.

Definition getAllSwapRequests (st : State) : Result (list SwapRequest.t) :=
  let swapRequests := values (swapRequestsStorage st) in
  if (length swapRequests =? 0)%nat
  then Err (NotFound "No swap requests found")
  else Ok swapRequests.

Definition getTotalCompletedSwapRequests (st : State) : Result N :=
  let swapRequests :=
    List.filter (fun swapRequest =>
                   String.eqb (SwapRequest.status swapRequest) "Completed")
      (values (swapRequestsStorage st)) in
  Ok (N.of_nat (length swapRequests)).

(** ** Feedback *)

(** The canister object defines [getFeedbacksByUser] twice; the later
    property of an object literal replaces the earlier one, so this is the
    method that answers.  It has no failure. *)
Definition getFeedbacksByUser (userId : string) (st : State) : Result (list Feedback.t) :=
  Ok (List.filter (fun feedback => String.eqb (Feedback.userId feedback) userId)
        (values (feedbackStorage st))).

(** The earlier, replaced definition. *)
Definition getFeedbacksByUser_replaced (userId : string) (st : State)
  : Result (list Feedback.t) :=
  let feedbacks :=
    List.filter (fun feedback => String.eqb (Feedback.userId feedback) userId)
      (values (feedbackStorage st)) in
  if (length feedbacks =? 0)%nat
  then Err (NotFound "No feedbacks found for the user.")
  else Ok feedbacks.

Definition getAllFeedbacks (st : State) : Result (list Feedback.t) :=
  let feedbacks := values (feedbackStorage st) in
  if (length feedbacks =? 0)%nat
  then Err (NotFound "No feedbacks found")
  else Ok feedbacks.

Definition getFeedbacksBySwapRequest (swapRequestId : string) (st : State)
  : Result (list Feedback.t) :=
  Ok (List.filter (fun feedback =>
                     String.eqb (Feedback.swapRequestId feedback) swapRequestId)
        (values (feedbackStorage st))).

(** ** Top swappers *)

(** A [Map<string, { count, lastBook }>], entries in insertion order. *)
Module SwapCount.
Record t : Type := mk {
  count : N;
  lastBook : option Book.t
}.
End SwapCount.

Module SwapCountMap.
Definition t : Type := list (string * SwapCount.t).

Fixpoint get (m : t) (k : string) : option SwapCount.t :=
  match m with
  | [] => None
  | (k', v) :: m' => if String.eqb k' k then Some v else get m' k
  end.

Fixpoint set (m : t) (k : string) (v : SwapCount.t) : t :=
  match m with
  | [] => [(k, v)]
  | (k', v') :: m' =>
      if String.eqb k' k then (k', v) :: m' else (k', v') :: set m' k v
  end.
End SwapCountMap.

Module TopSwapper.
Record t : Type := mk {
  userId : string;
  name : string;
  swapsCompleted : N;
  lastBookDetails : option Book.t
}.
End TopSwapper.

(** The most recently listed book of a user, if any. *)
Definition lastBookOf (st : State) (userId : string) : option Book.t :=
  let userBooks :=
    Array.sort newest_first
      (List.filter (fun book => String.eqb (Book.userId book) userId)
         (values (booksStorage st))) in
  head userBooks.

(** The body of the [forEach] of [getTopSwappers]: only the owner counts. *)
Definition count_owner (st : State) (swapCountMap : SwapCountMap.t)
    (swap : SwapRequest.t) : SwapCountMap.t :=
  let userId := SwapRequest.ownerId swap in
  let lastBook := lastBookOf st userId in
  let currentCount :=
    default 0%N (SwapCount.count <$> SwapCountMap.get swapCountMap userId) in
  SwapCountMap.set swapCountMap userId
    {| SwapCount.count := (currentCount + 1)%N; SwapCount.lastBook := lastBook |}.

Definition swapCountMap (st : State) (completedSwaps : list SwapRequest.t)
  : SwapCountMap.t :=
  fold_left (count_owner st) completedSwaps [].

(** [(a, b) => b[1].count - a[1].count] *)
Definition most_owned_first (a b : string * SwapCount.t) : option Z :=
  Some (Z.of_N (SwapCount.count (snd b)) - Z.of_N (SwapCount.count (snd a))).

Definition top_entry (st : State) (entry : string * SwapCount.t) : option TopSwapper.t :=
  let '(userId, data) := entry in
  match usersStorage st !! userId with
  | Some user =>
      Some {| TopSwapper.userId := userId;
              TopSwapper.name := User.name user;
              TopSwapper.swapsCompleted := SwapCount.count data;
              TopSwapper.lastBookDetails := SwapCount.lastBook data |}
  | None => None
  end.

(** The cut to five comes before the users that are not stored are dropped. *)
Definition getTopSwappers (now : Z) (st : State) : Result (list TopSwapper.t) :=
  let completedSwaps := completedSwapRequests now st in
  let topSwappers :=
    omap (top_entry st)
      (Array.slice0 5
         (Array.sort most_owned_first (swapCountMap st completedSwaps))) in
  if (length topSwappers =? 0)%nat
  then Err (NotFound "No top swappers found this month.")
  else Ok topSwappers.

(** ** What a call answers *)

(** The failure of an update method, [None] when it succeeds. *)
Definition failure {T : Type} (out : Result T * State) : option Message :=
  match fst out with
  | Ok _ => None
  | Err m => Some m
  end.

Definition failure_of (env : Env) (op : Op) (st : State) : option Message :=
  match op with
  | CreateUserProfile payload => failure (createUserProfile env payload st)
  | UpdateUserProfile userId payload => failure (updateUserProfile userId payload st)
  | ListBook payload => failure (listBook env payload st)
  | UpdateBook bookId payload => failure (updateBook bookId payload st)
  | DeleteBook bookId => failure (deleteBook bookId st)
  | CreateSwapRequest payload => failure (createSwapRequest env payload st)
  | UpdateSwapRequest swapRequestId payload =>
      failure (updateSwapRequest swapRequestId payload st)
  | AcceptSwapRequest swapRequestId => failure (acceptSwapRequest swapRequestId st)
  | RejectSwapRequest swapRequestId => failure (rejectSwapRequest swapRequestId st)
  | DeleteSwapRequest swapRequestId => failure (deleteSwapRequest swapRequestId st)
  | CreateFeedback payload => failure (createFeedback env payload st)
  | UpdateFeedback payload => failure (updateFeedback env payload st)
  | DeleteFeedback feedbackId => failure (deleteFeedback feedbackId st)
  end.

(** * Predicates used in the further statements *)

(** The strings a regular expression denotes. *)
Inductive matches : Regex.re -> Js.text -> Prop :=
| matches_eps : matches Regex.Eps []
| matches_cls (p : N -> bool) (c : N) :
    p c = true -> matches (Regex.Cls p) [c]
| matches_cat (r1 r2 : Regex.re) (s1 s2 : Js.text) :
    matches r1 s1 -> matches r2 s2 -> matches (Regex.Cat r1 r2) (s1 ++ s2)%list
| matches_alt_l (r1 r2 : Regex.re) (s : Js.text) :
    matches r1 s -> matches (Regex.Alt r1 r2) s
| matches_alt_r (r1 r2 : Regex.re) (s : Js.text) :
    matches r2 s -> matches (Regex.Alt r1 r2) s
| matches_star_nil (r : Regex.re) : matches (Regex.Star r) []
| matches_star_cons (r : Regex.re) (s1 s2 : Js.text) :
    matches r s1 -> matches (Regex.Star r) s2 -> matches (Regex.Star r) (s1 ++ s2)%list.

(** Every character of the string satisfies [p]. *)
Definition all_chars (p : N -> bool) (s : Js.text) : Prop :=
  Forall (fun c => p c = true) s.

(** The at sign and the dot, as code units. *)
Definition at_sign : N := N_of_ascii "@".
Definition dot : N := N_of_ascii ".".

(** A part of an email address: not empty, without white space and
    without an at sign. *)
Definition email_part (s : Js.text) : Prop :=
  s ≠ [] ∧ Forall (fun c => Regex.is_space c = false ∧ c ≠ at_sign) s.

(** The ten decimal digits. *)
Definition decimal_digits : list ascii :=
  ["0"; "1"; "2"; "3"; "4"; "5"; "6"; "7"; "8"; "9"]%char.

(** The four stores. *)
Inductive Store : Type := Users | Books | SwapRequests | Feedbacks.

(** The store an update method writes to. *)
Definition store_of (op : Op) : Store :=
  match op with
  | CreateUserProfile _ | UpdateUserProfile _ _ => Users
  | ListBook _ | UpdateBook _ _ | DeleteBook _ => Books
  | CreateSwapRequest _ | UpdateSwapRequest _ _ | AcceptSwapRequest _
  | RejectSwapRequest _ | DeleteSwapRequest _ => SwapRequests
  | CreateFeedback _ | UpdateFeedback _ | DeleteFeedback _ => Feedbacks
  end.

(** The two states agree on every store but [s]. *)
Definition same_outside (s : Store) (st st' : State) : Prop :=
  (s ≠ Users → usersStorage st' = usersStorage st)
  ∧ (s ≠ Books → booksStorage st' = booksStorage st)
  ∧ (s ≠ SwapRequests → swapRequestsStorage st' = swapRequestsStorage st)
  ∧ (s ≠ Feedbacks → feedbackStorage st' = feedbackStorage st).

(** The message is one of the two failures the methods use. *)
Definition not_found_or_invalid (m : Message) : Prop :=
  (∃ msg, m = NotFound msg) ∨ (∃ msg, m = InvalidPayload msg).

(** What [updateUserProfile] needs to go through. *)
Definition user_update_accepted (userId : string) (payload : UserPayload.t)
    (st : State) : Prop :=
  UserPayload.name payload ≠ "" ∧ UserPayload.email payload ≠ ""
  ∧ UserPayload.phoneNumber payload ≠ ""
  ∧ isValidEmail (UserPayload.email payload) = true
  ∧ isValidPhoneNumber (UserPayload.phoneNumber payload) = true
  ∧ ¬ email_taken_by_other userId (UserPayload.email payload) st
  ∧ is_Some (usersStorage st !! userId).

(** The three fields of the payload are given. *)
Definition swap_fields_given (payload : SwapRequestPayload.t) : Prop :=
  SwapRequestPayload.ownerId payload ≠ "" ∧ SwapRequestPayload.requesterId payload ≠ ""
  ∧ SwapRequestPayload.bookId payload ≠ "".

(** A rating other than 0 and a comment are given. *)
Definition feedback_fields_given (payload : FeedbackPayload.t) : Prop :=
  FeedbackPayload.rating payload ≠ 0%N ∧ FeedbackPayload.comment payload ≠ "".

(** No stored user is owned by the caller of [env]. *)
Definition no_profile (env : Env) (st : State) : Prop :=
  ∀ k user, usersStorage st !! k = Some user →
            toText (User.owner user) ≠ toText (caller env).

(** The text is what [toISOString] writes for some time value. *)
Definition timestamp (s : string) : Prop :=
  ∃ t, is_time_value t ∧ s = Date.toISOString t.

(** Every entity is stored under its own identifier and carries a
    timestamp as [createdAt]. *)
Definition entities_well_formed (st : State) : Prop :=
  (∀ k user, usersStorage st !! k = Some user →
             User.userId user = k ∧ timestamp (User.createdAt user))
  ∧ (∀ k book, booksStorage st !! k = Some book →
               Book.bookId book = k ∧ timestamp (Book.createdAt book))
  ∧ (∀ k r, swapRequestsStorage st !! k = Some r →
            SwapRequest.swapRequestId r = k ∧ timestamp (SwapRequest.createdAt r))
  ∧ (∀ k feedback, feedbackStorage st !! k = Some feedback →
                   Feedback.feedbackId feedback = k
                   ∧ timestamp (Feedback.createdAt feedback)).

(** Every stored request is pending, completed or rejected. *)
Definition statuses_known (st : State) : Prop :=
  ∀ k r, swapRequestsStorage st !! k = Some r →
         SwapRequest.status r = "Pending" ∨ SwapRequest.status r = "Completed"
         ∨ SwapRequest.status r = "Rejected".

(** [user'] is [user] up to name, email and phone number. *)
Definition same_identity (user user' : User.t) : Prop :=
  User.userId user' = User.userId user
  ∧ User.owner user' = User.owner user
  ∧ User.createdAt user' = User.createdAt user.

(** The status counts as completed: 1, or 0. *)
Definition completed_count (r : SwapRequest.t) : N :=
  if String.eqb (SwapRequest.status r) "Completed" then 1%N else 0%N.

(** The number of requests of [l] of which the user is the owner. *)
Definition owned_in (userId : string) (l : list SwapRequest.t) : N :=
  N.of_nat (length (filter (λ r, SwapRequest.ownerId r = userId) l)).

(** The count a user has in the map of [getTopSwappers], 0 without entry. *)
Definition owner_count_in (m : SwapCountMap.t) (userId : string) : N :=
  default 0%N (SwapCount.count <$> SwapCountMap.get m userId).

(** [entry] is the line [getTopSwappers] makes of the user stored under
    [key], over the requests [window]. *)
Definition top_line (st : State) (window : list SwapRequest.t) (key : string)
    (entry : TopSwapper.t) : Prop :=
  ∃ user, usersStorage st !! key = Some user
          ∧ TopSwapper.userId entry = key
          ∧ TopSwapper.name entry = User.name user
          ∧ TopSwapper.swapsCompleted entry = owned_in key window
          ∧ (0 < owned_in key window)%N
          ∧ TopSwapper.lastBookDetails entry = lastBookOf st key.

(** [a] has completed at least as many swaps as [b]. *)
Definition at_least_as_many (a b : TopSwapper.t) : Prop :=
  (TopSwapper.swapsCompleted b ≤ TopSwapper.swapsCompleted a)%N.

(** The same order on the entries of the map: the owner of [a] has at least
    as many requests as the owner of [b]. *)
Definition owns_at_least (a b : string * SwapCount.t) : Prop :=
  (SwapCount.count (snd b) ≤ SwapCount.count (snd a))%N.

(** What the map of [getTopSwappers] holds after any number of requests:
    distinct keys, positive counts, and for each key the last book of that
    user. *)
Definition owner_map_ok (st : State) (m : SwapCountMap.t) : Prop :=
  NoDup m.*1
  ∧ ∀ k v, SwapCountMap.get m k = Some v →
           (0 < SwapCount.count v)%N ∧ SwapCount.lastBook v = lastBookOf st k.


(** [found] is the most recently created book of the user, or nothing when
    the user has no book. *)
Definition newest_book_of (st : State) (userId : string) (found : option Book.t) : Prop :=
  match found with
  | None => ∀ k book, booksStorage st !! k = Some book → Book.userId book ≠ userId
  | Some newest =>
      (∃ k, booksStorage st !! k = Some newest)
      ∧ Book.userId newest = userId
      ∧ ∀ k book, booksStorage st !! k = Some book → Book.userId book = userId →
                  not_older newest book
  end.

(** ** Further concrete calls *)

Module Cases.

(** The three users of [Scenario.setup], before any book is listed. *)
Definition users_only : State := run (take 3 Scenario.setup) empty_state.

(** A caller that has no profile yet. *)
Definition dee_principal : Principal := mkPrincipal "rrkah-fqaaa-aaaaa-aaaaq-cai".
Definition dee : UserPayload.t := UserPayload.mk "Dee" "dee@books.org" "0123456782".
Definition dee_env : Env := mkEnv dee_principal (Scenario.t0 + 60000) Scenario.freshId.

(** A shelf with a Greek and a Russian title in capitals, listed by Ann. *)
Definition iliasId : string := "00000000-0000-4000-8000-0000000000b3".
Definition voinaId : string := "00000000-0000-4000-8000-0000000000b4".

Definition ilias : BookPayload.t :=
  BookPayload.mk Scenario.annId "ΙΛΙΑΣ" "ΟΜΗΡΟΣ" "Epic" "Troy" "ilias.png".
Definition voina : BookPayload.t :=
  BookPayload.mk Scenario.annId "ВОЙНА И МИР" "Лев Толстой" "Novel" "1812" "voina.png".

Definition shelf_calls : list (Env * Op) :=
  [ (mkEnv Scenario.ann_principal (Scenario.t0 + 5000) iliasId, ListBook ilias);
    (mkEnv Scenario.ann_principal (Scenario.t0 + 6000) voinaId, ListBook voina) ].

Definition shelf : State := run shelf_calls Scenario.library.

(** Six owners of completed requests: Ann, Bob, Cy, Eli and Fay own one
    each, Dan owns three; Gus asks for Dune six times, Ann and Bob once.
    Every request is accepted. *)
Definition danId : string := "00000000-0000-4000-8000-0000000000d4".
Definition eliId : string := "00000000-0000-4000-8000-0000000000d5".
Definition fayId : string := "00000000-0000-4000-8000-0000000000d6".
Definition gusId : string := "00000000-0000-4000-8000-0000000000d7".

Definition dan : UserPayload.t := UserPayload.mk "Dan" "dan@books.org" "0123456784".
Definition eli : UserPayload.t := UserPayload.mk "Eli" "eli@books.org" "0123456785".
Definition fay : UserPayload.t := UserPayload.mk "Fay" "fay@books.org" "0123456786".
Definition gus : UserPayload.t := UserPayload.mk "Gus" "gus@books.org" "0123456787".

Definition requestId (n : ascii) : string :=
  "00000000-0000-4000-8000-0000000000e" +:+ String n "".

Definition request (time : Z) (n : ascii) (ownerId requesterId : string)
  : list (Env * Op) :=
  [ (mkEnv Scenario.ann_principal (Scenario.t0 + time) (requestId n),
     CreateSwapRequest (SwapRequestPayload.mk ownerId requesterId Scenario.duneId));
    (mkEnv Scenario.ann_principal (Scenario.t0 + time + 500) (requestId n),
     AcceptSwapRequest (requestId n)) ].

Definition six_owners_calls : list (Env * Op) :=
  [ (mkEnv Scenario.ann_principal (Scenario.t0 + 5000) danId, CreateUserProfile dan);
    (mkEnv Scenario.ann_principal (Scenario.t0 + 6000) eliId, CreateUserProfile eli);
    (mkEnv Scenario.ann_principal (Scenario.t0 + 7000) fayId, CreateUserProfile fay);
    (mkEnv Scenario.ann_principal (Scenario.t0 + 8000) gusId, CreateUserProfile gus) ]
  ++ request 10000 "1" Scenario.annId gusId
  ++ request 11000 "2" danId gusId
  ++ request 12000 "3" Scenario.cyId gusId
  ++ request 13000 "4" danId Scenario.annId
  ++ request 14000 "5" eliId gusId
  ++ request 15000 "6" fayId gusId
  ++ request 16000 "7" Scenario.bobId gusId
  ++ request 17000 "8" danId Scenario.bobId.

Definition six_owners : State := run six_owners_calls Scenario.library.

End Cases.


(** * Properties *)

(** ** Basic facts about the embedding *)

Lemma truthy_false (s : string) : Js.truthy s = false ↔ s = "".
Proof. destruct s; simpl; split; congruence. Qed.

Lemma truthy_true (s : string) : Js.truthy s = true ↔ s ≠ "".
Proof. destruct s; simpl; split; congruence. Qed.

Lemma elem_of_values {V : Type} (m : gmap string V) (v : V) :
  v ∈ values m ↔ ∃ k, m !! k = Some v.
Proof.
  unfold values. rewrite list_elem_of_fmap. split.
  - intros [[k w] [-> Hin]]. exists k. by apply elem_of_map_to_list.
  - intros [k Hk]. exists (k, v). split; [done | by apply elem_of_map_to_list].
Qed.

Lemma existsb_values {V : Type} (f : V -> bool) (m : gmap string V) :
  existsb f (values m) = true ↔ ∃ k v, m !! k = Some v ∧ f v = true.
Proof.
  rewrite existsb_exists. split.
  - intros [v [Hin Hf]]. apply list_elem_of_In, elem_of_values in Hin.
    destruct Hin as [k Hk]. eauto.
  - intros (k & v & Hk & Hf). exists v. split; [| done].
    apply list_elem_of_In, elem_of_values. eauto.
Qed.

Lemma existsb_values_false {V : Type} (f : V -> bool) (m : gmap string V) :
  existsb f (values m) = false ↔ ∀ k v, m !! k = Some v → f v = false.
Proof.
  split.
  - intros Hex k v Hk. destruct (f v) eqn:Hf; [| done].
    assert (existsb f (values m) = true) by (apply existsb_values; eauto).
    congruence.
  - intros Hall. destruct (existsb f (values m)) eqn:Hex; [| done].
    apply existsb_values in Hex as (k & v & Hk & Hf).
    rewrite (Hall k v Hk) in Hf. discriminate.
Qed.

Lemma same_triple_spec (payload : SwapRequestPayload.t) (r : SwapRequest.t) :
  same_triple payload r = true ↔
  SwapRequest.ownerId r = SwapRequestPayload.ownerId payload
  ∧ SwapRequest.requesterId r = SwapRequestPayload.requesterId payload
  ∧ SwapRequest.bookId r = SwapRequestPayload.bookId payload.
Proof.
  unfold same_triple. rewrite !andb_true_iff, !String.eqb_eq. tauto.
Qed.

(** ** Accepting and rejecting *)

(** C4: on an id that is not stored, [acceptSwapRequest] and
    [rejectSwapRequest] fail with [NotFound] and leave the state as it is; on
    a stored id they succeed, the stored status becomes "Completed",
    respectively "Rejected", and every other field of that request, every
    other request and the three other stores are unchanged. *)
Theorem accept_reject_status_frame (id : string) (st : State) :
  match swapRequestsStorage st !! id with
  | None =>
      (∃ msg, acceptSwapRequest id st = (Err (NotFound msg), st))
      ∧ (∃ msg, rejectSwapRequest id st = (Err (NotFound msg), st))
  | Some r =>
      only_status_set id "Completed" r st (acceptSwapRequest id st)
      ∧ only_status_set id "Rejected" r st (rejectSwapRequest id st)
  end.
Proof.
  unfold acceptSwapRequest, rejectSwapRequest.
  destruct (swapRequestsStorage st !! id) as [r |] eqn:Hget.
  - split; eexists; simpl;
      (split; [reflexivity |]);
      (split; [apply lookup_insert_eq |]);
      repeat (split; [reflexivity |]);
      (split; [intros j Hj; by apply lookup_insert_ne | done]).
  - split; eexists; reflexivity.
Qed.

(** ** Required fields of [listBook] *)

(** C9, as stated, fails: a payload without a genre is accepted and stored. *)
Lemma listBook_accepts_empty_genre :
  some_book_field_empty Scenario.dune_no_genre
  ∧ ∃ book st',
      listBook Scenario.later
        Scenario.dune_no_genre Scenario.library = (Ok book, st')
      ∧ Book.genre book = ""
      ∧ booksStorage st' !! Scenario.freshId = Some book.
Proof.
  split.
  - unfold some_book_field_empty. simpl. tauto.
  - eexists _, _. split; [vm_compute; reflexivity |]. split; [reflexivity |].
    vm_compute. reflexivity.
Qed.

(** C9, amended: when the title, the author, the description or the image
    URL of the payload is empty, [listBook] fails with the [InvalidPayload]
    message that names these four fields, and the state is unchanged. *)
Theorem listBook_required_fields (env : Env) (payload : BookPayload.t) (st : State) :
  some_tested_book_field_empty payload →
  listBook env payload st =
    (Err (InvalidPayload
            "Ensure 'title', 'author', 'description', and 'imageUrl' are provided."), st).
Proof.
  unfold some_tested_book_field_empty, listBook.
  intros H.
  assert (negb (Js.truthy (BookPayload.title payload))
          || negb (Js.truthy (BookPayload.author payload))
          || negb (Js.truthy (BookPayload.description payload))
          || negb (Js.truthy (BookPayload.imageUrl payload)) = true) as ->; [| done].
  rewrite !orb_true_iff, !negb_true_iff, !truthy_false. tauto.
Qed.

Lemma listBook_required_fields_witness :
  some_tested_book_field_empty Scenario.dune_no_title
  ∧ listBook Scenario.later
      Scenario.dune_no_title Scenario.library =
    (Err (InvalidPayload
            "Ensure 'title', 'author', 'description', and 'imageUrl' are provided."),
     Scenario.library).
Proof.
  assert (some_tested_book_field_empty Scenario.dune_no_title) as H.
  { left. reflexivity. }
  split; [exact H |].
  exact (listBook_required_fields _ Scenario.dune_no_title Scenario.library H).
Defined.

(** An empty or otherwise unknown [userId] is answered with [NotFound]. *)
Lemma listBook_unknown_user (env : Env) (payload : BookPayload.t) (st : State) :
  ¬ some_tested_book_field_empty payload →
  usersStorage st !! BookPayload.userId payload = None →
  listBook env payload st = (Err (NotFound "User not found"), st).
Proof.
  unfold some_tested_book_field_empty, listBook. intros Hne Hnone.
  destruct (Js.truthy (BookPayload.title payload)) eqn:H1;
    [| apply truthy_false in H1; tauto].
  destruct (Js.truthy (BookPayload.author payload)) eqn:H2;
    [| apply truthy_false in H2; tauto].
  destruct (Js.truthy (BookPayload.description payload)) eqn:H3;
    [| apply truthy_false in H3; tauto].
  destruct (Js.truthy (BookPayload.imageUrl payload)) eqn:H4;
    [| apply truthy_false in H4; tauto].
  simpl. by rewrite Hnone.
Qed.

(** ** Duplicate swap requests *)

(** C2, as stated, fails: once the book of a stored request has been deleted,
    a second request for the same triple is answered with [NotFound]. *)
Lemma createSwapRequest_duplicate_after_deleteBook :
  triple_stored Scenario.ann_bob_dune Scenario.book_withdrawn
  ∧ createSwapRequest Scenario.later Scenario.ann_bob_dune Scenario.book_withdrawn
    = (Err (NotFound "Book not found"), Scenario.book_withdrawn).
Proof.
  split.
  - exists Scenario.swap1. eexists. split; [vm_compute; reflexivity |].
    repeat split.
  - vm_compute. reflexivity.
Qed.

(** Whatever else holds, a payload whose triple is stored is refused and the
    state is unchanged. *)
Lemma duplicate_triple_refused (env : Env) (payload : SwapRequestPayload.t)
    (st : State) :
  triple_stored payload st →
  ∃ m, createSwapRequest env payload st = (Err m, st)
       ∧ (triple_resolves payload st → ∃ msg, m = InvalidPayload msg).
Proof.
  intros (k & r & Hk & Ho & Hr & Hb).
  assert (existsb (same_triple payload) (values (swapRequestsStorage st)) = true) as Hdup.
  { apply existsb_values. exists k, r. split; [done |]. by apply same_triple_spec. }
  unfold createSwapRequest, triple_resolves.
  destruct (negb (Js.truthy (SwapRequestPayload.ownerId payload))
            || negb (Js.truthy (SwapRequestPayload.requesterId payload))
            || negb (Js.truthy (SwapRequestPayload.bookId payload))).
  { eexists. split; [reflexivity | eauto]. }
  destruct (usersStorage st !! SwapRequestPayload.ownerId payload).
  2: { eexists. split; [reflexivity |]. intros [[? ?] _]. discriminate. }
  destruct (usersStorage st !! SwapRequestPayload.requesterId payload).
  2: { eexists. split; [reflexivity |]. intros (_ & [? ?] & _). discriminate. }
  destruct (booksStorage st !! SwapRequestPayload.bookId payload).
  2: { eexists. split; [reflexivity |]. intros (_ & _ & [? ?]). discriminate. }
  rewrite Hdup. eexists. split; [reflexivity | eauto].
Qed.

(** C2, amended: when a request with the triple of the payload is stored, in
    any status, and the owner, the requester and the book of the triple are
    stored, [createSwapRequest] fails with [InvalidPayload] and leaves the
    whole state, the swap-request store included, unchanged. *)
Theorem createSwapRequest_duplicate (env : Env) (payload : SwapRequestPayload.t)
    (st : State) :
  triple_stored payload st →
  triple_resolves payload st →
  ∃ msg, createSwapRequest env payload st = (Err (InvalidPayload msg), st).
Proof.
  intros Hdup Hres.
  destruct (duplicate_triple_refused env payload st Hdup) as (m & Hm & Hinv).
  destruct (Hinv Hres) as [msg ->]. eauto.
Qed.

Lemma createSwapRequest_duplicate_witness :
  triple_stored Scenario.ann_bob_dune Scenario.one_request
  ∧ triple_resolves Scenario.ann_bob_dune Scenario.one_request
  ∧ ∃ msg, createSwapRequest Scenario.later Scenario.ann_bob_dune Scenario.one_request
           = (Err (InvalidPayload msg), Scenario.one_request).
Proof.
  assert (triple_stored Scenario.ann_bob_dune Scenario.one_request) as H.
  { exists Scenario.swap1. eexists. split; [vm_compute; reflexivity |]. repeat split. }
  assert (triple_resolves Scenario.ann_bob_dune Scenario.one_request) as H'.
  { repeat split; eexists; vm_compute; reflexivity. }
  split; [exact H |]. split; [exact H' |].
  exact (createSwapRequest_duplicate Scenario.later Scenario.ann_bob_dune
           Scenario.one_request H H').
Defined.

(** ** Creating, then reading *)

Ltac truthy_cases :=
  repeat match goal with
    | H : ?s ≠ "" |- context [Js.truthy ?s] =>
        rewrite (proj2 (truthy_true s) H)
    end; simpl.

(** C8: for every payload that [listBook] accepts (title, author, description
    and image URL not empty, [userId] a stored user), the call succeeds, and
    [getBook] on the identifier it returns yields the same book: the fields
    of the payload, the identifier drawn for the call and the time of the
    call as [createdAt]. *)
Theorem listBook_then_getBook (env : Env) (payload : BookPayload.t) (st : State) :
  book_payload_accepted payload st →
  ∃ book st',
    listBook env payload st = (Ok book, st')
    ∧ getBook (Book.bookId book) st' = Ok book
    ∧ book_from_payload payload (uuid env) (Date.toISOString (now env)) book.
Proof.
  intros (Ht & Ha & Hd & Hi & [user Hu]).
  unfold listBook. truthy_cases. rewrite Hu.
  eexists _, _. split; [reflexivity |]. split.
  - unfold getBook. simpl. by rewrite lookup_insert_eq.
  - repeat split.
Qed.

Lemma listBook_then_getBook_witness :
  book_payload_accepted Scenario.dune Scenario.library
  ∧ ∃ book st',
      listBook Scenario.later Scenario.dune Scenario.library = (Ok book, st')
      ∧ getBook (Book.bookId book) st' = Ok book
      ∧ book_from_payload Scenario.dune Scenario.freshId "2024-11-01T22:27:40.123Z" book.
Proof.
  assert (book_payload_accepted Scenario.dune Scenario.library) as H.
  { repeat split; try discriminate. eexists. vm_compute. reflexivity. }
  split; [exact H |].
  exact (listBook_then_getBook Scenario.later Scenario.dune Scenario.library H).
Defined.

(** The same round trip for the three other entities.  A user also carries
    the caller as [owner], a swap request the status "Pending". *)
Lemma createUserProfile_then_getUserProfile (env : Env) (payload : UserPayload.t)
    (st : State) :
  user_payload_accepted payload st →
  ∃ user st',
    createUserProfile env payload st = (Ok user, st')
    ∧ getUserProfile (User.userId user) st' = Ok user
    ∧ user_from_payload payload (uuid env) (Date.toISOString (now env)) user
    ∧ User.owner user = caller env.
Proof.
  intros (Hn & He & Hp & Hve & Hvp & Hfree).
  unfold createUserProfile. truthy_cases. rewrite Hve, Hvp. simpl.
  assert (existsb (fun user => String.eqb (User.email user) (UserPayload.email payload))
            (values (usersStorage st)) = false) as ->.
  { apply existsb_values_false. intros k u Hk. apply String.eqb_neq. eauto. }
  eexists _, _. split; [reflexivity |]. split.
  - unfold getUserProfile. simpl. by rewrite lookup_insert_eq.
  - repeat split.
Qed.

Lemma createSwapRequest_then_getSwapRequest (env : Env) (payload : SwapRequestPayload.t)
    (st : State) :
  swap_payload_accepted payload st →
  ∃ swapRequest st',
    createSwapRequest env payload st = (Ok swapRequest, st')
    ∧ getSwapRequest (SwapRequest.swapRequestId swapRequest) st' = Ok swapRequest
    ∧ swapRequest_from_payload payload (uuid env) (Date.toISOString (now env)) swapRequest
    ∧ SwapRequest.status swapRequest = "Pending".
Proof.
  intros (Ho & Hr & Hb & ([u1 Hu1] & [u2 Hu2] & [b Hbk]) & Hfree).
  unfold createSwapRequest. truthy_cases. rewrite Hu1, Hu2, Hbk.
  assert (∀ k r, swapRequestsStorage st !! k = Some r → same_triple payload r = false)
    as Hnone.
  { intros k r Hk. destruct (same_triple payload r) eqn:Hs; [| done].
    apply same_triple_spec in Hs. exfalso. apply Hfree. exists k, r. tauto. }
  assert (existsb (same_triple payload) (values (swapRequestsStorage st)) = false) as ->.
  { by apply existsb_values_false. }
  assert (existsb (same_triple payload)
            (List.filter (fun swapRequest =>
                            String.eqb (SwapRequest.status swapRequest) "Completed")
               (values (swapRequestsStorage st))) = false) as ->.
  { destruct (existsb _ (List.filter _ _)) eqn:Hex; [| done].
    apply existsb_exists in Hex as (r & Hin & Hs).
    apply filter_In in Hin as [Hin _].
    apply list_elem_of_In, elem_of_values in Hin as [k Hk].
    rewrite (Hnone k r Hk) in Hs. discriminate. }
  eexists _, _. split; [reflexivity |]. split.
  - unfold getSwapRequest. simpl. by rewrite lookup_insert_eq.
  - repeat split.
Qed.

Lemma createFeedback_then_getFeedback (env : Env) (payload : FeedbackPayload.t)
    (st : State) :
  feedback_payload_accepted payload st →
  ∃ feedback st',
    createFeedback env payload st = (Ok feedback, st')
    ∧ getFeedback (Feedback.feedbackId feedback) st' = Ok feedback
    ∧ feedback_from_payload payload (uuid env) (Date.toISOString (now env)) feedback.
Proof.
  intros (Hr & Hc & [u Hu] & [r Hsw]).
  unfold createFeedback, feedback_incomplete.
  apply N.eqb_neq in Hr. rewrite Hr. truthy_cases. rewrite Hu, Hsw.
  eexists _, _. split; [reflexivity |]. split.
  - unfold getFeedback. simpl. by rewrite lookup_insert_eq.
  - repeat split.
Qed.

(** ** Updating feedback *)

Lemma hex_not_dash (c : ascii) : is_hex c = true → Ascii.eqb c "-" = false.
Proof.
  destruct (Ascii.eqb c "-") eqn:E; [| done].
  apply Ascii.eqb_eq in E. subst c. vm_compute. done.
Qed.

(** A UUID has a hexadecimal digit where the text of a principal has its
    first dash. *)
Lemma uuid_not_principal (s : string) :
  is_uuid_v4 s = true → is_principal_text s = false.
Proof.
  unfold is_uuid_v4, is_principal_text. intros H.
  destruct s as [| c0 [| c1 [| c2 [| c3 [| c4 [| c5 s]]]]]];
    simpl in H; rewrite ?andb_false_r in H; try discriminate H.
  repeat (apply andb_true_iff in H as [? H]).
  assert (principal_groups 0
            (String c0 (String c1 (String c2 (String c3 (String c4 (String c5 s))))))
          = false) as ->; [| done].
  simpl.
  repeat match goal with
    | |- context [if Ascii.eqb ?c "-" then _ else _] =>
        destruct (Ascii.eqb c "-") eqn:?; simpl; try done
    end;
    rewrite ?andb_false_r; try done.
  match goal with
  | Hh : is_hex c5 = true, E : Ascii.eqb c5 "-" = true |- _ =>
      rewrite (hex_not_dash c5 Hh) in E; discriminate E
  end.
Qed.

Lemma step_feedback_keys (env : Env) (op : Op) (st : State) :
  is_uuid_v4 (uuid env) = true →
  feedback_keys_are_uuids st → feedback_keys_are_uuids (step env op st).
Proof.
  intros Hid Hinv k f.
  destruct op; simpl;
    unfold createUserProfile, updateUserProfile, listBook, updateBook, deleteBook,
      createSwapRequest, updateSwapRequest, acceptSwapRequest, rejectSwapRequest,
      deleteSwapRequest, createFeedback, updateFeedback, deleteFeedback;
    repeat case_match; simpl; try apply Hinv.
  - (* createFeedback *)
    rewrite lookup_insert. case_decide; [by subst | apply Hinv].
  - (* updateFeedback: the key was already there *)
    rewrite lookup_insert. case_decide; [subst; eauto | apply Hinv].
  - (* deleteFeedback *)
    rewrite lookup_delete. case_decide; [done | apply Hinv].
Qed.

Lemma reachable_feedback_keys (st : State) :
  reachable st → feedback_keys_are_uuids st.
Proof.
  induction 1 as [| st env op _ IH [Hid _]].
  - intros k f Hk. simpl in Hk. by rewrite lookup_empty in Hk.
  - by apply step_feedback_keys.
Qed.

Lemma run_reachable (calls : list (Env * Op)) (st : State) :
  Forall (fun call => env_ok (fst call)) calls →
  reachable st → reachable (run calls st).
Proof.
  revert st. induction calls as [| [env op] calls IH]; intros st Hok Hst; simpl.
  - done.
  - inversion Hok; subst. apply IH; [done |]. by constructor.
Qed.

(** C10: in every state reachable through the update methods, no feedback is
    stored under the text of a principal, so [updateFeedback], which looks
    the record up under the caller's text, changes nothing and never
    succeeds; with a rating and a comment in the payload its answer is
    [NotFound]. *)
Theorem updateFeedback_never_succeeds (env : Env) (payload : FeedbackPayload.t)
    (st : State) :
  reachable st →
  is_principal_text (toText (caller env)) = true →
  feedbackStorage st !! toText (caller env) = None
  ∧ (∃ m, updateFeedback env payload st = (Err m, st))
  ∧ (FeedbackPayload.rating payload ≠ 0%N → FeedbackPayload.comment payload ≠ "" →
     updateFeedback env payload st = (Err (NotFound "Feedback not found"), st)).
Proof.
  intros Hreach Hprincipal.
  assert (feedbackStorage st !! toText (caller env) = None) as Hnone.
  { destruct (feedbackStorage st !! toText (caller env)) as [f |] eqn:Hget; [| done].
    apply (reachable_feedback_keys st Hreach) in Hget.
    apply uuid_not_principal in Hget. congruence. }
  split; [done |]. unfold updateFeedback. rewrite Hnone. split.
  - destruct (feedback_incomplete payload); eauto.
  - intros Hr Hc. unfold feedback_incomplete.
    apply N.eqb_neq in Hr. rewrite Hr. by truthy_cases.
Qed.

Ltac env_ok_here :=
  split; [vm_compute; reflexivity |];
  split; [vm_compute; reflexivity | split; vm_compute; discriminate].

Ltac env_ok_by_computation :=
  repeat (constructor; [env_ok_here |]); constructor.

Lemma library_reachable : reachable Scenario.library.
Proof.
  apply run_reachable; [unfold Scenario.setup; env_ok_by_computation | constructor].
Qed.

Lemma one_request_reachable : reachable Scenario.one_request.
Proof.
  apply reachable_step; [apply library_reachable | env_ok_here].
Qed.

Lemma after_feedback_reachable : reachable Scenario.after_feedback.
Proof.
  apply reachable_step; [apply one_request_reachable | env_ok_here].
Qed.

Lemma updateFeedback_never_succeeds_witness :
  is_Some (feedbackStorage Scenario.after_feedback !! Scenario.feedback1)
  ∧ feedbackStorage Scenario.after_feedback !! "2vxsx-fae" = None
  ∧ (∃ m, updateFeedback Scenario.later Scenario.praise Scenario.after_feedback
          = (Err m, Scenario.after_feedback))
  ∧ (FeedbackPayload.rating Scenario.praise ≠ 0%N →
     FeedbackPayload.comment Scenario.praise ≠ "" →
     updateFeedback (mkEnv Scenario.bob_principal (Scenario.t0 + 60000) Scenario.freshId)
       Scenario.praise Scenario.after_feedback
     = (Err (NotFound "Feedback not found"), Scenario.after_feedback)).
Proof.
  split; [eexists; vm_compute; reflexivity |].
  pose proof (updateFeedback_never_succeeds
                (mkEnv Scenario.bob_principal (Scenario.t0 + 60000) Scenario.freshId)
                Scenario.praise Scenario.after_feedback
                after_feedback_reachable eq_refl) as (Hnone & _ & Hnf).
  split; [exact Hnone |].
  split; [| exact Hnf].
  exact (proj1 (proj2 (updateFeedback_never_succeeds Scenario.later Scenario.praise
                         Scenario.after_feedback after_feedback_reachable eq_refl))).
Defined.

(** ** Searching books *)

Lemma startsWith_spec (s t : Js.text) :
  Js.startsWith s t = true ↔ ∃ post, s = (t ++ post)%list.
Proof.
  revert s. induction t as [| b t IH]; intros s; simpl.
  - split; [intros _; by exists s | done].
  - destruct s as [| a s].
    + split; [done | intros [post H]; discriminate].
    + rewrite andb_true_iff, N.eqb_eq, IH. split.
      * intros [-> [post ->]]. by exists post.
      * intros [post H]. injection H as -> ->. split; [done | by exists post].
Qed.

Lemma includes_spec (s t : Js.text) :
  Js.includes s t = true ↔ ∃ pre post, s = (pre ++ t ++ post)%list.
Proof.
  induction s as [| a s IH]; simpl; rewrite orb_true_iff, startsWith_spec.
  - split.
    + intros [[post H] | H]; [| done]. by exists [], post.
    + intros (pre & post & H). left.
      destruct pre; simpl in H; [by exists post | discriminate].
  - rewrite IH. split.
    + intros [[post H] | (pre & post & ->)].
      * by exists [], post.
      * by exists (a :: pre), post.
    + intros (pre & post & H). destruct pre as [| c pre]; simpl in H.
      * left. by exists post.
      * right. injection H as -> ->. by exists pre, post.
Qed.

Lemma book_matches_spec (searchTerm : string) (book : Book.t) :
  book_matches searchTerm book = true ↔ book_found_by searchTerm book.
Proof.
  unfold book_matches, book_found_by, lowered_contains, lowered.
  rewrite !orb_true_iff, !includes_spec. tauto.
Qed.

(** *** Plain text: lower case, one code unit at a time *)












(** *** What [searchBooks] returns *)




(** ** Unique emails *)

Ltac unfold_methods :=
  unfold createUserProfile, updateUserProfile, listBook, updateBook, deleteBook,
    createSwapRequest, updateSwapRequest, acceptSwapRequest, rejectSwapRequest,
    deleteSwapRequest, createFeedback, updateFeedback, deleteFeedback.

Lemma createUserProfile_taken (env : Env) (payload : UserPayload.t) (st : State) :
  email_taken (UserPayload.email payload) st →
  ∃ msg, createUserProfile env payload st = (Err (InvalidPayload msg), st).
Proof.
  intros (k & user & Hk & He).
  assert (existsb (fun user => String.eqb (User.email user) (UserPayload.email payload))
            (values (usersStorage st)) = true) as Hdup.
  { apply existsb_values. exists k, user. split; [done |]. by apply String.eqb_eq. }
  unfold createUserProfile. rewrite Hdup.
  repeat case_match; eauto.
Qed.

Lemma updateUserProfile_taken (userId : string) (payload : UserPayload.t) (st : State) :
  email_taken_by_other userId (UserPayload.email payload) st →
  ∃ msg, updateUserProfile userId payload st = (Err (InvalidPayload msg), st).
Proof.
  intros (k & user & Hk & He & Hother).
  assert (existsb (fun user =>
                     String.eqb (User.email user) (UserPayload.email payload)
                     && negb (String.eqb (User.userId user) userId))
            (values (usersStorage st)) = true) as Hdup.
  { apply existsb_values. exists k, user. split; [done |].
    apply andb_true_iff. split; [by apply String.eqb_eq |].
    apply negb_true_iff. by apply String.eqb_neq. }
  unfold updateUserProfile. rewrite Hdup.
  repeat case_match; eauto.
Qed.

Lemma createUserProfile_users_inv (env : Env) (payload : UserPayload.t) (st : State) :
  users_keyed_by_id st ∧ emails_unique st →
  users_keyed_by_id (snd (createUserProfile env payload st))
  ∧ emails_unique (snd (createUserProfile env payload st)).
Proof.
  intros [Hkey Huniq]. unfold createUserProfile.
  repeat case_match; simpl; try done.
  match goal with H : existsb _ _ = false |- _ => rename H into Hfree end.
  pose proof (proj1 (existsb_values_false _ _) Hfree) as Hfree'. simpl in Hfree'.
  split.
  - intros k user. simpl. rewrite lookup_insert. case_decide.
    + by intros [= <-].
    + apply Hkey.
  - intros k1 k2 u1 u2. simpl. rewrite !lookup_insert.
    repeat case_decide; subst; intros Hu1 Hu2 Hne; simplify_eq; simpl.
    + specialize (Hfree' _ _ Hu2). apply String.eqb_neq in Hfree'. congruence.
    + specialize (Hfree' _ _ Hu1). by apply String.eqb_neq in Hfree'.
    + by eapply Huniq.
Qed.

Lemma updateUserProfile_users_inv (userId : string) (payload : UserPayload.t)
    (st : State) :
  users_keyed_by_id st ∧ emails_unique st →
  users_keyed_by_id (snd (updateUserProfile userId payload st))
  ∧ emails_unique (snd (updateUserProfile userId payload st)).
Proof.
  intros [Hkey Huniq]. unfold updateUserProfile.
  repeat case_match; simpl; try done.
  match goal with H : existsb _ _ = false |- _ => rename H into Hfree end.
  match goal with H : usersStorage st !! userId = Some _ |- _ => rename H into Hget end.
  pose proof (proj1 (existsb_values_false _ _) Hfree) as Hfree'. simpl in Hfree'.
  assert (∀ k v, usersStorage st !! k = Some v → k ≠ userId →
                 User.email v ≠ UserPayload.email payload) as Hother.
  { intros k v Hk Hne He. specialize (Hfree' k v Hk).
    apply andb_false_iff in Hfree' as [Hf | Hf].
    - apply String.eqb_neq in Hf. done.
    - apply negb_false_iff, String.eqb_eq in Hf. rewrite (Hkey k v Hk) in Hf. done. }
  split.
  - intros k user. simpl. rewrite lookup_insert. case_decide.
    + intros [= <-]. simpl. subst k. by apply Hkey.
    + apply Hkey.
  - intros k1 k2 u1 u2. simpl. rewrite !lookup_insert.
    repeat case_decide; subst; intros Hu1 Hu2 Hne; simplify_eq; simpl.
    + intros He. by eapply Hother.
    + by eapply Hother.
    + by eapply Huniq.
Qed.

Lemma step_users_inv (env : Env) (op : Op) (st : State) :
  users_keyed_by_id st ∧ emails_unique st →
  users_keyed_by_id (step env op st) ∧ emails_unique (step env op st).
Proof.
  intros Hinv. destruct op; simpl;
    try apply createUserProfile_users_inv; try apply updateUserProfile_users_inv;
    try done;
    unfold_methods; repeat case_match; simpl; done.
Qed.

Lemma reachable_users_inv (st : State) :
  reachable st → users_keyed_by_id st ∧ emails_unique st.
Proof.
  induction 1 as [| st env op _ IH _].
  - split; intros ? *; simpl; by rewrite lookup_empty.
  - by apply step_users_inv.
Qed.

(** C3: in every state reached by calls of the update methods, no two stored
    users have the same email (and every user is stored under its own
    [userId]); and in every state whatsoever, [createUserProfile] with an
    email that some user holds, and [updateUserProfile] with an email that a
    user other than the one updated holds, fail with [InvalidPayload] and
    leave the state, the user store included, unchanged. *)
Theorem emails_stay_unique (env : Env) (userId : string) (payload : UserPayload.t)
    (st : State) :
  (reachable st → emails_unique st ∧ users_keyed_by_id st)
  ∧ (email_taken (UserPayload.email payload) st →
     ∃ msg, createUserProfile env payload st = (Err (InvalidPayload msg), st))
  ∧ (email_taken_by_other userId (UserPayload.email payload) st →
     ∃ msg, updateUserProfile userId payload st = (Err (InvalidPayload msg), st)).
Proof.
  split; [| split].
  - intros Hreach. destruct (reachable_users_inv st Hreach). done.
  - apply createUserProfile_taken.
  - apply updateUserProfile_taken.
Qed.

Lemma emails_stay_unique_witness :
  reachable Scenario.library
  ∧ emails_unique Scenario.library
  ∧ email_taken "ann@books.org" Scenario.library
  ∧ (∃ msg, createUserProfile Scenario.later Scenario.bob_as_ann Scenario.library
            = (Err (InvalidPayload msg), Scenario.library))
  ∧ email_taken_by_other Scenario.bobId "ann@books.org" Scenario.library
  ∧ (∃ msg, updateUserProfile Scenario.bobId Scenario.bob_as_ann Scenario.library
            = (Err (InvalidPayload msg), Scenario.library)).
Proof.
  pose proof (emails_stay_unique Scenario.later Scenario.bobId Scenario.bob_as_ann
                Scenario.library) as (Hinv & Hcreate & Hupdate).
  assert (email_taken "ann@books.org" Scenario.library) as Htaken.
  { exists Scenario.annId. eexists. split; [vm_compute; reflexivity | reflexivity]. }
  assert (email_taken_by_other Scenario.bobId "ann@books.org" Scenario.library) as Hother.
  { exists Scenario.annId. eexists. split; [vm_compute; reflexivity |].
    split; [reflexivity | discriminate]. }
  split; [exact library_reachable |].
  split; [exact (proj1 (Hinv library_reachable)) |].
  split; [exact Htaken |].
  split; [exact (Hcreate Htaken) |].
  split; [exact Hother |].
  exact (Hupdate Hother).
Defined.

(** ** Sorting *)

Section SortFacts.
Context {A : Type} (compare : A -> A -> option Z).

Lemma insert_sorted_perm (x : A) (l : list A) :
  Array.insert_sorted compare x l ≡ₚ x :: l.
Proof.
  induction l as [| y l IH]; simpl; [done |].
  destruct (Array.in_order compare x y); [done |].
  rewrite IH. apply Permutation_swap.
Qed.

Lemma sort_perm (l : list A) : Array.sort compare l ≡ₚ l.
Proof.
  induction l as [| x l IH]; simpl; [done |].
  by rewrite insert_sorted_perm, IH.
Qed.

(** When, on the elements that satisfy [P], the comparator decides a
    transitive relation [R], sorting puts them in that relation. *)
Context (P : A -> Prop) (R : A -> A -> Prop).
Hypothesis in_order_R : ∀ a b, P a → P b → Array.in_order compare a b = true → R a b.
Hypothesis out_of_order_R : ∀ a b, P a → P b → Array.in_order compare a b = false → R b a.
Hypothesis R_trans : ∀ a b c, P a → P b → P c → R a b → R b c → R a c.

Lemma insert_sorted_sorted (x : A) (l : list A) :
  P x → Forall P l → StronglySorted R l →
  StronglySorted R (Array.insert_sorted compare x l).
Proof.
  intros Hx HP Hs. induction l as [| y l IH]; simpl.
  - repeat constructor.
  - apply Forall_cons in HP as [Hy HP].
    apply StronglySorted_inv in Hs as [Hs Hyl].
    destruct (Array.in_order compare x y) eqn:Hxy.
    + constructor; [by constructor |].
      constructor; [by apply in_order_R |].
      rewrite Forall_forall in *. intros z Hz.
      apply (R_trans x y z); auto.
    + constructor; [by apply IH |].
      rewrite insert_sorted_perm. constructor; [| done].
      by apply out_of_order_R.
Qed.

Lemma sort_sorted (l : list A) :
  Forall P l → StronglySorted R (Array.sort compare l).
Proof.
  induction l as [| x l IH]; intros HP; simpl; [constructor |].
  apply Forall_cons in HP as [Hx HP].
  apply insert_sorted_sorted; [done | by rewrite sort_perm | by apply IH].
Qed.

End SortFacts.

(** ** Dates: reading back what was written *)

Section DateRoundTrip.

Local Ltac Zify.zify_post_hook ::= Z.div_mod_to_equations.

Lemma all_from_spec (f : Z -> bool) (n : nat) (from : Z) :
  all_from f n from = true → ∀ z, from ≤ z < from + Z.of_nat n → f z = true.
Proof.
  revert from. induction n as [| n IH]; intros from H z Hz; [lia |].
  simpl in H. apply andb_true_iff in H as [Hf H].
  destruct (decide (z = from)) as [-> | Hne]; [done |].
  apply (IH (from + 1)); [done | lia].
Qed.

Lemma era_days_ok : all_from era_day_ok (Z.to_nat 146097) 0 = true.
Proof. vm_compute. reflexivity. Qed.

Lemma is_leap_shift (y e : Z) : Date.is_leap (y + e * 400) = Date.is_leap y.
Proof.
  unfold Date.is_leap.
  replace (y + e * 400) with (y + (e * 100) * 4) at 1 by lia.
  replace (y + e * 400) with (y + (e * 4) * 100) at 1 by lia.
  by rewrite !Z.mod_add.
Qed.

Lemma days_in_month_shift (y e m : Z) :
  Date.days_in_month (y + e * 400) m = Date.days_in_month y m.
Proof. unfold Date.days_in_month. by rewrite is_leap_shift. Qed.

Lemma days_from_civil_shift (y e m d : Z) :
  Date.days_from_civil (y + e * 400) m d = Date.days_from_civil y m d + e * 146097.
Proof.
  unfold Date.days_from_civil. cbv zeta.
  set (y' := if m <=? 2 then y - 1 else y).
  assert ((if m <=? 2 then y + e * 400 - 1 else y + e * 400) = y' + e * 400) as ->.
  { unfold y'. destruct (m <=? 2); lia. }
  rewrite Z.div_add by lia.
  replace (y' + e * 400 - (y' / 400 + e) * 400) with (y' - y' / 400 * 400) by lia.
  lia.
Qed.

Lemma civil_from_days_inverse (day : Z) :
  ∃ y m d,
    Date.civil_from_days day = (y, m, d)
    ∧ 1 ≤ m ≤ 12 ∧ 1 ≤ d ≤ Date.days_in_month y m
    ∧ Date.days_from_civil y m d = day
    ∧ (day + 719468) / 146097 * 400 ≤ y ≤ (day + 719468) / 146097 * 400 + 400.
Proof.
  unfold Date.civil_from_days.
  set (era := (day + 719468) / 146097).
  set (doe := day + 719468 - era * 146097).
  assert (0 ≤ doe < 146097) as Hdoe.
  { unfold doe, era. pose proof (Z.div_mod (day + 719468) 146097).
    pose proof (Z.mod_pos_bound (day + 719468) 146097). lia. }
  pose proof (all_from_spec _ _ _ era_days_ok doe) as Hok.
  specialize (Hok ltac:(lia)). unfold era_day_ok in Hok.
  destruct (Date.date_in_era doe) as [[yoe m] d].
  repeat (apply andb_true_iff in Hok as [Hok ?]).
  exists (if m <=? 2 then yoe + era * 400 + 1 else yoe + era * 400), m, d.
  split; [done |].
  assert ((if m <=? 2 then yoe + era * 400 + 1 else yoe + era * 400)
          = (if m <=? 2 then yoe + 1 else yoe) + era * 400) as ->.
  { destruct (m <=? 2); lia. }
  rewrite days_in_month_shift, days_from_civil_shift.
  split; [lia |]. split; [lia |]. split; [unfold doe in *; lia |].
  destruct (m <=? 2); lia.
Qed.

Lemma digit_cases (n : Z) :
  ∃ k, (k < 10)%N ∧ n mod 10 = Z.of_N k ∧ Date.digit n = ascii_of_N (48 + k).
Proof.
  pose proof (Z.mod_pos_bound n 10 ltac:(lia)) as Hk.
  exists (Z.to_N (n mod 10)). unfold Date.digit. split; [lia |]. split; [lia | done].
Qed.

Lemma digit_val_digit (n : Z) : Date.digit_val (Date.digit n) = Some (n mod 10).
Proof.
  destruct (digit_cases n) as (k & Hk & -> & ->).
  assert (k = 0 ∨ k = 1 ∨ k = 2 ∨ k = 3 ∨ k = 4 ∨ k = 5 ∨ k = 6 ∨ k = 7 ∨ k = 8 ∨ k = 9)%N
    as Hcases by lia.
  repeat (destruct Hcases as [-> | Hcases]; [reflexivity |]). by subst.
Qed.

Lemma digit_not_sign (n : Z) :
  Ascii.eqb (Date.digit n) "+" = false ∧ Ascii.eqb (Date.digit n) "-" = false.
Proof.
  destruct (digit_cases n) as (k & Hk & _ & ->).
  assert (k = 0 ∨ k = 1 ∨ k = 2 ∨ k = 3 ∨ k = 4 ∨ k = 5 ∨ k = 6 ∨ k = 7 ∨ k = 8 ∨ k = 9)%N
    as Hcases by lia.
  repeat (destruct Hcases as [-> | Hcases]; [split; reflexivity |]). by subst.
Qed.

Lemma number_cons (acc n : Z) (cs : list ascii) :
  Date.number acc (Date.digit n :: cs) = Date.number (acc * 10 + n mod 10) cs.
Proof. simpl. by rewrite digit_val_digit. Qed.

Lemma number_2 (n : Z) :
  0 ≤ n < 100 → Date.number 0 [Date.digit (n / 10); Date.digit n] = Some n.
Proof.
  intros Hn. rewrite !number_cons. simpl. f_equal.
  rewrite (Z.mod_small (n / 10) 10) by (split; [apply Z.div_pos | apply Z.div_lt_upper_bound]; lia).
  pose proof (Z.div_mod n 10). lia.
Qed.

Lemma number_3 (n : Z) :
  0 ≤ n < 1000 →
  Date.number 0 [Date.digit (n / 100); Date.digit (n / 10); Date.digit n] = Some n.
Proof.
  intros Hn. rewrite !number_cons. simpl. f_equal. lia.
Qed.

Lemma number_4 (n : Z) :
  0 ≤ n < 10000 →
  Date.number 0 [Date.digit (n / 1000); Date.digit (n / 100); Date.digit (n / 10);
                 Date.digit n] = Some n.
Proof. intros Hn. rewrite !number_cons. simpl. f_equal. lia. Qed.

Lemma number_6 (n : Z) :
  0 ≤ n < 1000000 →
  Date.number 0 [Date.digit (n / 100000); Date.digit (n / 10000); Date.digit (n / 1000);
                 Date.digit (n / 100); Date.digit (n / 10); Date.digit n] = Some n.
Proof. intros Hn. rewrite !number_cons. simpl. f_equal. lia. Qed.

Lemma parse_rest_written (y m d h mi sec ms : Z) :
  1 ≤ m ≤ 12 → 1 ≤ d ≤ Date.days_in_month y m →
  0 ≤ h ≤ 23 → 0 ≤ mi ≤ 59 → 0 ≤ sec ≤ 59 → 0 ≤ ms ≤ 999 →
  Date.parse_rest y
    (list_ascii_of_string
       ("-" ++ Date.pad2 m ++ "-" ++ Date.pad2 d ++ "T" ++ Date.pad2 h ++ ":" ++
        Date.pad2 mi ++ ":" ++ Date.pad2 sec ++ "." ++ Date.pad3 ms ++ "Z"))
  = Some (Date.days_from_civil y m d * Date.msPerDay
          + h * 3600000 + mi * 60000 + sec * 1000 + ms).
Proof.
  intros Hm Hd Hh Hmi Hsec Hms.
  assert (d ≤ 31) as Hd31.
  { unfold Date.days_in_month in Hd. repeat case_match; lia. }
  unfold Date.pad3, Date.pad2, Date.parse_rest.
  cbv [String.append list_ascii_of_string].
  rewrite !Ascii.eqb_refl, !number_2, number_3 by lia. cbn [andb].
  assert ((1 <=? m) && (m <=? 12) && (1 <=? d) && (d <=? Date.days_in_month y m)
          && (h <=? 23) && (mi <=? 59) && (sec <=? 59) = true) as ->; [| done].
  rewrite !andb_true_iff, !Z.leb_le. lia.
Qed.

Lemma parse_year_4 (y : Z) (rest : string) :
  0 ≤ y ≤ 9999 →
  Date.parse (Date.pad4 y ++ rest) = Date.parse_rest y (list_ascii_of_string rest).
Proof.
  intros Hy. unfold Date.parse, Date.pad4, Date.pad3, Date.pad2.
  cbv [String.append list_ascii_of_string].
  destruct (digit_not_sign (y / 1000)) as [-> ->]. cbn [orb].
  by rewrite number_4 by lia.
Qed.

Lemma parse_year_plus (y : Z) (rest : string) :
  0 ≤ y < 1000000 →
  Date.parse (String "+" (Date.pad6 y) ++ rest)
  = Date.parse_rest y (list_ascii_of_string rest).
Proof.
  intros Hy. unfold Date.parse, Date.pad6, Date.pad4, Date.pad3, Date.pad2.
  cbv [String.append list_ascii_of_string].
  change (Ascii.eqb "+" "+") with true. change (Ascii.eqb "+" "-") with false.
  cbn [orb]. by rewrite number_6 by lia.
Qed.

Lemma parse_year_minus (n : Z) (rest : string) :
  0 < n < 1000000 →
  Date.parse (String "-" (Date.pad6 n) ++ rest)
  = Date.parse_rest (- n) (list_ascii_of_string rest).
Proof.
  intros Hn. unfold Date.parse, Date.pad6, Date.pad4, Date.pad3, Date.pad2.
  cbv [String.append list_ascii_of_string].
  change (Ascii.eqb "-" "+") with false. change (Ascii.eqb "-" "-") with true.
  cbn [orb]. rewrite number_6 by lia.
  by rewrite (proj2 (Z.eqb_neq n 0)) by lia.
Qed.

(** Reading back what [toISOString] wrote gives the time value again, for
    every time value a [Date] can hold. *)
Lemma parse_toISOString (t : Z) :
  is_time_value t →
  Date.parse (Date.toISOString t) = Some t.
Proof.
  unfold is_time_value. intros Ht. unfold Date.toISOString.
  destruct (civil_from_days_inverse (t / Date.msPerDay))
    as (y & m & d & -> & Hm & Hd & Hdays & Hy).
  unfold Date.msPerDay in *.
  assert (-272000 ≤ y ≤ 276000) as Hrange by lia.
  set (r := t mod 86400000).
  assert (0 ≤ r < 86400000 ∧ t = t / 86400000 * 86400000 + r) as [Hr Hsplit].
  { unfold r. lia. }
  assert (Date.parse_rest y
            (list_ascii_of_string
               ("-" ++ Date.pad2 m ++ "-" ++ Date.pad2 d ++ "T" ++
                Date.pad2 (r / 3600000) ++ ":" ++ Date.pad2 (r / 60000 mod 60) ++ ":" ++
                Date.pad2 (r / 1000 mod 60) ++ "." ++ Date.pad3 (r mod 1000) ++ "Z"))
          = Some t) as Hrest.
  { rewrite parse_rest_written by lia. f_equal. rewrite Hdays.
    unfold Date.msPerDay. lia. }
  unfold Date.year_string.
  destruct ((0 <=? y) && (y <=? 9999)) eqn:H4.
  - rewrite parse_year_4 by lia. exact Hrest.
  - destruct (y <? 0) eqn:Hneg.
    + rewrite parse_year_minus by lia. by rewrite Z.opp_involutive.
    + rewrite parse_year_plus by lia. exact Hrest.
Qed.

End DateRoundTrip.

(** ** Recent books *)

Lemma values_nil {V : Type} (m : gmap string V) : values m = [] ↔ m = ∅.
Proof.
  unfold values. rewrite <- map_to_list_empty_iff.
  destruct (map_to_list m); simpl; split; congruence.
Qed.

Lemma newest_first_sorted (l : list Book.t) :
  Forall book_dated l → StronglySorted not_older (Array.sort newest_first l).
Proof.
  apply sort_sorted; unfold book_dated, not_older, Array.in_order, newest_first.
  - intros a b [ta Ha] [tb Hb]. rewrite Ha, Hb. intros H%Z.leb_le.
    exists ta, tb. repeat split; [done.. | lia].
  - intros a b [ta Ha] [tb Hb]. rewrite Ha, Hb. intros H%Z.leb_gt.
    exists tb, ta. repeat split; [done.. | lia].
  - intros a b c _ _ _ (ta & tb & Ha & Hb & Hab) (tb' & tc & Hb' & Hc & Hbc).
    exists ta, tc. repeat split; [done.. |]. simplify_eq. lia.
Qed.

Lemma step_books_timestamped (env : Env) (op : Op) (st : State) :
  is_time_value (now env) →
  books_timestamped st → books_timestamped (step env op st).
Proof.
  intros Hnow Hinv k book.
  destruct op; simpl; unfold_methods; repeat case_match; simpl; try apply Hinv.
  - (* listBook *)
    rewrite lookup_insert. case_decide; [| apply Hinv].
    intros [= <-]. by exists (now env).
  - (* updateBook keeps [createdAt] *)
    rewrite lookup_insert. case_decide; [| apply Hinv].
    intros [= <-]. simpl. eauto.
  - (* deleteBook *)
    rewrite lookup_delete. case_decide; [done | apply Hinv].
Qed.

Lemma reachable_books_timestamped (st : State) :
  reachable st → books_timestamped st.
Proof.
  induction 1 as [| st env op _ IH (_ & _ & Hnow)].
  - intros k book Hk. simpl in Hk. by rewrite lookup_empty in Hk.
  - by apply step_books_timestamped.
Qed.

Lemma books_timestamped_dated (st : State) (k : string) (book : Book.t) :
  books_timestamped st → booksStorage st !! k = Some book → book_dated book.
Proof.
  intros Hinv Hk. destruct (Hinv k book Hk) as (t & Ht & Hcreated).
  exists t. unfold Date.getTime. rewrite Hcreated. by apply parse_toISOString.
Qed.

(** C7: [getRecentBooks] answers [NotFound] on an empty book store; on any
    other store it returns the first ten elements (all of them when there
    are fewer) of a rearrangement of all stored books.  That rearrangement
    is in descending order of creation time in every state reached by calls
    of the update methods, and more generally whenever the [createdAt] of
    every stored book is a valid date. *)
Theorem getRecentBooks_newest_ten (st : State) :
  ∃ sorted,
    sorted ≡ₚ values (booksStorage st)
    ∧ (reachable st → StronglySorted not_older sorted)
    ∧ ((∀ k book, booksStorage st !! k = Some book → book_dated book) →
       StronglySorted not_older sorted)
    ∧ (booksStorage st = ∅ → getRecentBooks st = Err (NotFound "No recent books found."))
    ∧ (booksStorage st ≠ ∅ →
       getRecentBooks st = Ok (take 10 sorted)
       ∧ (0 < length (take 10 sorted) ≤ 10)%nat).
Proof.
  exists (Array.sort newest_first (values (booksStorage st))).
  assert ((∀ k book, booksStorage st !! k = Some book → book_dated book) →
          StronglySorted not_older (Array.sort newest_first (values (booksStorage st))))
    as Hsorted.
  { intros Hdated. apply newest_first_sorted, Forall_forall.
    intros book [k Hk]%elem_of_values. eauto. }
  split; [apply sort_perm |]. split; [| split; [done | split]].
  - intros Hreach. apply Hsorted. intros k book.
    apply books_timestamped_dated. by apply reachable_books_timestamped.
  - intros Hempty. unfold getRecentBooks. rewrite Hempty. reflexivity.
  - intros Hne. unfold getRecentBooks, Array.slice0.
    assert (Array.sort newest_first (values (booksStorage st)) ≠ []) as Hnil.
    { intros Hnil. apply Hne, values_nil.
      apply Permutation_nil_r. rewrite <- Hnil. symmetry. apply sort_perm. }
    destruct (Array.sort newest_first (values (booksStorage st))) as [| b l]; [done |].
    split; [reflexivity |]. rewrite length_take. cbn [length]. lia.
Qed.

(** ** Counting swaps *)

Lemma JsMap_get_set (m : JsMap.t) (k k' : string) (v : N) :
  JsMap.get (JsMap.set m k v) k' = if String.eqb k k' then Some v else JsMap.get m k'.
Proof.
  induction m as [| [k0 v0] m IH]; simpl; [done |].
  destruct (String.eqb_spec k0 k) as [-> | Hne]; simpl.
  - by destruct (String.eqb k k').
  - rewrite IH. destruct (String.eqb_spec k0 k') as [-> | Hne']; [| done].
    destruct (String.eqb_spec k k'); congruence.
Qed.

Lemma JsMap_get_elem_of (m : JsMap.t) (k : string) (v : N) :
  JsMap.get m k = Some v → (k, v) ∈ m.
Proof.
  induction m as [| [k0 v0] m IH]; simpl; [done |].
  destruct (String.eqb_spec k0 k) as [-> | Hne].
  - intros [= ->]. by left.
  - intros H. right. by apply IH.
Qed.

Lemma JsMap_elem_of_get (m : JsMap.t) (k : string) (v : N) :
  NoDup m.*1 → (k, v) ∈ m → JsMap.get m k = Some v.
Proof.
  induction m as [| [k0 v0] m IH]; simpl; intros Hnd Hin.
  - by apply elem_of_nil in Hin.
  - apply NoDup_cons in Hnd as [Hk0 Hnd].
    apply elem_of_cons in Hin as [[= -> ->] | Hin].
    + by rewrite String.eqb_refl.
    + destruct (String.eqb_spec k0 k) as [-> | Hne]; [| by apply IH].
      exfalso. apply Hk0. apply list_elem_of_fmap. by exists (k, v).
Qed.

Lemma JsMap_set_keys (m : JsMap.t) (k : string) (v : N) :
  NoDup m.*1 → NoDup (JsMap.set m k v).*1.
Proof.
  induction m as [| [k0 v0] m IH]; simpl; intros Hnd.
  - apply NoDup_singleton.
  - apply NoDup_cons in Hnd as [Hk0 Hnd].
    destruct (String.eqb_spec k0 k) as [-> | Hne]; simpl.
    + by apply NoDup_cons.
    + apply NoDup_cons. split; [| by apply IH].
      rewrite list_elem_of_fmap. intros [[k1 v1] [Hk1 Hin]]. simpl in Hk1. subst k1.
      assert (JsMap.get (JsMap.set m k v) k0 = Some v1) as Hget.
      { apply JsMap_elem_of_get; [by apply IH | done]. }
      rewrite JsMap_get_set in Hget.
      destruct (String.eqb_spec k k0) as [-> | _]; [done |].
      apply JsMap_get_elem_of in Hget. apply Hk0.
      apply list_elem_of_fmap. by exists (k0, v1).
Qed.

Lemma count_swap_count_in (m : JsMap.t) (r : SwapRequest.t) (u : string) :
  count_in (count_swap m r) u =
  (count_in m u +
   if decide (SwapRequest.ownerId r = u ∨ SwapRequest.requesterId r = u) then 1 else 0)%N.
Proof.
  unfold count_in, count_swap. rewrite !JsMap_get_set.
  destruct (String.eqb_spec (SwapRequest.ownerId r) u) as [Ho | Ho];
    destruct (String.eqb_spec (SwapRequest.requesterId r) u) as [Hr | Hr];
    case_decide; simpl; try tauto; try lia.
  - by rewrite Ho.
  - by rewrite Ho.
  - by rewrite Hr.
Qed.

Lemma count_swap_positive (m : JsMap.t) (r : SwapRequest.t) :
  (∀ k v, JsMap.get m k = Some v → (0 < v)%N) →
  ∀ k v, JsMap.get (count_swap m r) k = Some v → (0 < v)%N.
Proof.
  intros Hpos k v. unfold count_swap. rewrite !JsMap_get_set.
  repeat case_match; try (intros [= <-]; lia). apply Hpos.
Qed.

Lemma count_swap_keys (m : JsMap.t) (r : SwapRequest.t) :
  NoDup m.*1 → NoDup (count_swap m r).*1.
Proof. intros H. unfold count_swap. by do 2 apply JsMap_set_keys. Qed.

Lemma fold_count_swap (l : list SwapRequest.t) (m : JsMap.t) :
  NoDup m.*1 →
  (∀ k v, JsMap.get m k = Some v → (0 < v)%N) →
  NoDup (fold_left count_swap l m).*1
  ∧ (∀ k v, JsMap.get (fold_left count_swap l m) k = Some v → (0 < v)%N)
  ∧ ∀ u, count_in (fold_left count_swap l m) u = (count_in m u + swaps_of u l)%N.
Proof.
  revert m. induction l as [| r l IH]; intros m Hnd Hpos; simpl.
  - split; [done |]. split; [done |]. intros u. unfold swaps_of. simpl. lia.
  - destruct (IH (count_swap m r)) as (Hnd' & Hpos' & Hcount).
    { by apply count_swap_keys. }
    { by apply count_swap_positive. }
    split; [done |]. split; [done |]. intros u.
    rewrite Hcount, count_swap_count_in. unfold swaps_of.
    rewrite filter_cons. case_decide; simpl; lia.
Qed.

(** The map built by the [forEach] holds, for each user, the number of
    requests the user takes part in, and has no entry for the others. *)
Lemma swapCountPerUser_spec (l : list SwapRequest.t) (u : string) (n : N) :
  (u, n) ∈ swapCountPerUser l ↔ n = swaps_of u l ∧ (0 < n)%N.
Proof.
  unfold swapCountPerUser.
  destruct (fold_count_swap l []) as (Hnd & Hpos & Hcount).
  { constructor. }
  { intros k v. simpl. done. }
  specialize (Hcount u). unfold count_in in Hcount. simpl in Hcount. split.
  - intros Hin. apply JsMap_elem_of_get in Hin; [| done].
    rewrite Hin in Hcount. simpl in Hcount. split; [lia | by eapply Hpos].
  - intros [-> Hn]. apply JsMap_get_elem_of.
    destruct (JsMap.get (fold_left count_swap l []) u) as [v |]; simpl in Hcount.
    + f_equal. lia.
    + lia.
Qed.

Lemma swapCountPerUser_keys (l : list SwapRequest.t) : NoDup (swapCountPerUser l).*1.
Proof.
  unfold swapCountPerUser. apply (fold_count_swap l []); [constructor |].
  intros k v. simpl. done.
Qed.

(** ** Featured swappers *)

Lemma StronglySorted_omap {A B : Type} (R : A -> A -> Prop) (R' : B -> B -> Prop)
    (f : A -> option B) (l : list A) :
  (∀ x x' y y', f x = Some y → f x' = Some y' → R x x' → R' y y') →
  StronglySorted R l → StronglySorted R' (omap f l).
Proof.
  intros Hf. induction 1 as [| x l Hs IH Hx]; simpl; [constructor |].
  destruct (f x) as [y |] eqn:Hy; [| done].
  constructor; [done |]. apply Forall_forall. intros y' Hin.
  apply list_elem_of_omap in Hin as (x' & Hin & Hy').
  rewrite Forall_forall in Hx. eauto.
Qed.

Lemma StronglySorted_take {A : Type} (R : A -> A -> Prop) (n : nat) (l : list A) :
  StronglySorted R l → StronglySorted R (take n l).
Proof.
  intros Hs. revert n. induction Hs as [| x l Hs IH Hx]; intros [| n]; simpl;
    try constructor; [apply IH | by apply Forall_take].
Qed.

Lemma StronglySorted_lookup {A : Type} (R : A -> A -> Prop) (l : list A)
    (i j : nat) (a b : A) :
  StronglySorted R l → (i < j)%nat → l !! i = Some a → l !! j = Some b → R a b.
Proof.
  intros Hs. revert i j. induction Hs as [| x l Hs IH Hx]; intros i j Hij Hi Hj.
  - done.
  - destruct j as [| j]; [lia |]. destruct i as [| i]; simpl in *.
    + injection Hi as ->. rewrite Forall_forall in Hx. apply Hx.
      by eapply list_elem_of_lookup_2.
    + apply (IH i j); [lia | done..].
Qed.

Lemma completed_this_month_spec (now : Z) (r : SwapRequest.t) :
  completed_this_month (Date.monthFromTime now) (Date.yearFromTime now) r = true
  ↔ completed_in_month_of now r.
Proof.
  unfold completed_this_month, completed_in_month_of, Date.getMonth, Date.getFullYear,
    Date.getTime.
  rewrite !andb_true_iff, String.eqb_eq.
  destruct (Date.parse (SwapRequest.createdAt r)) as [t |]; simpl.
  - rewrite !Z.eqb_eq. split.
    + intros [[Hs Hm] Hy]. split; [done |]. by exists t.
    + intros [Hs (t' & [= <-] & Hm & Hy)]. done.
  - split; [intros [[_ ?] _]; done | intros [_ (t' & ? & _)]; done].
Qed.

Lemma featured_entry_Some (st : State) (key : string) (n : N) (e : FeaturedSwapper.t) :
  featured_entry st (key, n) = Some e →
  ∃ user, usersStorage st !! key = Some user
          ∧ FeaturedSwapper.username e = User.name user
          ∧ FeaturedSwapper.userId e = User.userId user
          ∧ FeaturedSwapper.booksSwapped e = n.
Proof.
  unfold featured_entry.
  destruct (usersStorage st !! key) as [user |]; [| done].
  intros [= <-]. by exists user.
Qed.

Lemma featured_entry_stored (st : State) (key : string) (n : N) (user : User.t) :
  usersStorage st !! key = Some user →
  ∃ e, featured_entry st (key, n) = Some e.
Proof. intros H. unfold featured_entry. rewrite H. eauto. Qed.

Lemma most_swaps_first_sorted (m : JsMap.t) :
  StronglySorted (λ a b, (snd b ≤ snd a)%N) (Array.sort most_swaps_first m).
Proof.
  apply (sort_sorted most_swaps_first (λ _, True)).
  - intros a b _ _. unfold Array.in_order, most_swaps_first. intros H%Z.leb_le. lia.
  - intros a b _ _. unfold Array.in_order, most_swaps_first. intros H%Z.leb_gt. lia.
  - intros a b c _ _ _. lia.
  - by apply Forall_forall.
Qed.

Lemma completedSwapRequests_spec (now : Z) (st : State) (r : SwapRequest.t) :
  r ∈ completedSwapRequests now st
  ↔ (∃ k, swapRequestsStorage st !! k = Some r) ∧ completed_in_month_of now r.
Proof.
  unfold completedSwapRequests.
  rewrite list_elem_of_In, filter_In, <- list_elem_of_In.
  by rewrite elem_of_values, completed_this_month_spec.
Qed.

(** C5: [getFeaturedSwappers] works on the stored requests that are
    completed and were created in the month and year of the call.  It ranks
    the stored users that take part, as owner or as requester, in at least
    one of them, each with the number of those requests, in descending order
    of that number, and returns the first five lines of the ranking; in the
    list returned a user with more swaps (3, say) comes before a user with
    fewer (1).  With no such request, and more generally with an empty
    ranking, the answer is a [NotFound] error. *)
Theorem getFeaturedSwappers_ranking (now : Z) (st : State) :
  let window := completedSwapRequests now st in
  (∀ r, r ∈ window ↔
        (∃ k, swapRequestsStorage st !! k = Some r) ∧ completed_in_month_of now r)
  ∧ ∃ ranked,
      (∀ e, e ∈ ranked → ∃ key, ranks st window key e)
      ∧ (∀ key user, usersStorage st !! key = Some user → (0 < swaps_of key window)%N →
                     ∃ e, e ∈ ranked ∧ ranks st window key e)
      ∧ StronglySorted at_least_as_busy ranked
      ∧ (window = [] →
         getFeaturedSwappers now st
         = Err (NotFound "No featured swappers found for this month."))
      ∧ (ranked = [] →
         getFeaturedSwappers now st
         = Err (NotFound "No featured swappers found for this month."))
      ∧ (ranked ≠ [] → getFeaturedSwappers now st = Ok (take 5 ranked))
      ∧ (length (take 5 ranked) ≤ 5)%nat
      ∧ (∀ i j a b,
           take 5 ranked !! i = Some a → take 5 ranked !! j = Some b →
           (FeaturedSwapper.booksSwapped b < FeaturedSwapper.booksSwapped a)%N →
           (i < j)%nat).
Proof.
  intros window. split; [apply completedSwapRequests_spec |].
  set (sorted := Array.sort most_swaps_first (swapCountPerUser window)).
  assert (∀ key n, (key, n) ∈ sorted ↔ n = swaps_of key window ∧ (0 < n)%N) as Hsorted.
  { intros key n. unfold sorted. rewrite sort_perm. apply swapCountPerUser_spec. }
  assert (StronglySorted at_least_as_busy (omap (featured_entry st) sorted)) as Hdesc.
  { apply (StronglySorted_omap (λ a b, (snd b ≤ snd a)%N));
      [| apply most_swaps_first_sorted].
    intros [k n] [k' n'] e e' He He' Hle. simpl in Hle.
    apply featured_entry_Some in He as (_ & _ & _ & _ & Hn).
    apply featured_entry_Some in He' as (_ & _ & _ & _ & Hn').
    unfold at_least_as_busy. by rewrite Hn, Hn'. }
  exists (omap (featured_entry st) sorted).
  split; [| split; [| split; [done |]]].
  - intros e (entry & Hin & He)%list_elem_of_omap. destruct entry as [key n].
    apply Hsorted in Hin as [-> Hpos].
    apply featured_entry_Some in He as (user & Hu & Hname & Hid & Hn).
    exists key, user. done.
  - intros key user Hu Hpos.
    destruct (featured_entry_stored st key (swaps_of key window) user Hu) as [e He].
    exists e. split.
    + apply list_elem_of_omap. exists (key, swaps_of key window).
      split; [by apply Hsorted | done].
    + apply featured_entry_Some in He as (user' & Hu' & Hname & Hid & Hn).
      by exists user'.
  - assert (∀ l, l = omap (featured_entry st) sorted →
                 getFeaturedSwappers now st =
                 match take 5 l with
                 | [] => Err (NotFound "No featured swappers found for this month.")
                 | _ => Ok (take 5 l)
                 end) as Hresult.
    { intros l ->. unfold getFeaturedSwappers, Array.slice0. fold window. fold sorted.
      by destruct (take 5 (omap (featured_entry st) sorted)). }
    split; [| split; [| split; [| split]]].
    + intros Hwindow. rewrite (Hresult _ eq_refl). unfold sorted. by rewrite Hwindow.
    + intros Hnil. rewrite (Hresult _ eq_refl). by rewrite Hnil.
    + intros Hne. rewrite (Hresult _ eq_refl).
      by destruct (omap (featured_entry st) sorted).
    + rewrite length_take. lia.
    + intros i j a b Hi Hj Hlt.
      pose proof (StronglySorted_take _ 5 _ Hdesc) as Htake.
      destruct (decide (i < j)%nat) as [| Hge]; [done |]. exfalso.
      destruct (decide (i = j)) as [-> | Hne].
      * rewrite Hi in Hj. injection Hj as ->. lia.
      * assert (at_least_as_busy b a) as Hba.
        { apply (StronglySorted_lookup _ _ j i b a Htake); [lia | done..]. }
        unfold at_least_as_busy in Hba. lia.
Qed.

(** ** One request per triple *)

Lemma rewritten_reachable : reachable Scenario.rewritten.
Proof.
  apply run_reachable; [unfold Scenario.rewrite_calls; env_ok_by_computation |].
  apply one_request_reachable.
Qed.

(** C1 fails on the code: after [createSwapRequest] for Ann, Bob and Dune,
    [createSwapRequest] for Bob, Ann and Dune, and [updateSwapRequest] of the
    second request to the triple of the first, two pending requests are
    stored for one triple. *)
Theorem updateSwapRequest_duplicates_triple :
  reachable Scenario.rewritten
  ∧ (∃ r1 r2,
       swapRequestsStorage Scenario.rewritten !! Scenario.swap1 = Some r1
       ∧ swapRequestsStorage Scenario.rewritten !! Scenario.swap2 = Some r2
       ∧ same_triple_as r1 r2
       ∧ SwapRequest.status r1 = "Pending" ∧ SwapRequest.status r2 = "Pending")
  ∧ ¬ one_open_request_per_triple Scenario.rewritten.
Proof.
  assert (∃ r1 r2,
            swapRequestsStorage Scenario.rewritten !! Scenario.swap1 = Some r1
            ∧ swapRequestsStorage Scenario.rewritten !! Scenario.swap2 = Some r2
            ∧ same_triple_as r1 r2
            ∧ SwapRequest.status r1 = "Pending" ∧ SwapRequest.status r2 = "Pending")
    as Htwo.
  { eexists _, _. split; [vm_compute; reflexivity |].
    split; [vm_compute; reflexivity |]. repeat split. }
  split; [apply rewritten_reachable |]. split; [exact Htwo |].
  destruct Htwo as (r1 & r2 & H1 & H2 & Hsame & Hs1 & Hs2). intros Hinv.
  assert (Scenario.swap1 = Scenario.swap2) as Heq.
  { apply (Hinv _ _ r1 r2 H1 H2 Hsame); [by rewrite Hs1 | by rewrite Hs2]. }
  discriminate Heq.
Qed.

Lemma one_request_one_open (st : State) :
  one_request_per_triple st → one_open_request_per_triple st.
Proof. intros H k1 k2 r1 r2 H1 H2 Hsame _ _. by eapply H. Qed.

Lemma createSwapRequest_one_per_triple (env : Env) (payload : SwapRequestPayload.t)
    (st : State) :
  one_request_per_triple st →
  one_request_per_triple (snd (createSwapRequest env payload st)).
Proof.
  intros Hinv. unfold createSwapRequest. repeat case_match; simpl; try done.
  match goal with
  | H : existsb (same_triple payload) (values _) = false |- _ => rename H into Hfree
  end.
  pose proof (proj1 (existsb_values_false _ _) Hfree) as Hnew.
  assert (∀ k r, swapRequestsStorage st !! k = Some r →
                 ¬ (SwapRequest.ownerId r = SwapRequestPayload.ownerId payload
                    ∧ SwapRequest.requesterId r = SwapRequestPayload.requesterId payload
                    ∧ SwapRequest.bookId r = SwapRequestPayload.bookId payload)) as Hno.
  { intros k r Hk Hsame. apply same_triple_spec in Hsame.
    rewrite (Hnew k r Hk) in Hsame. discriminate. }
  intros k1 k2 r1 r2. simpl. rewrite !lookup_insert.
  repeat case_decide; subst; intros Hr1 Hr2 (Ho & Hr & Hb); simplify_eq; simpl in *.
  - done.
  - exfalso. by apply (Hno k2 r2 Hr2).
  - exfalso. by apply (Hno k1 r1 Hr1).
  - by eapply Hinv.
Qed.

Lemma with_status_one_per_triple (id status : string) (r : SwapRequest.t) (st : State) :
  swapRequestsStorage st !! id = Some r →
  one_request_per_triple st →
  one_request_per_triple
    (set_swapRequests st (<[id := with_status r status]> (swapRequestsStorage st))).
Proof.
  intros Hid Hinv k1 k2 r1 r2. simpl. rewrite !lookup_insert.
  repeat case_decide; intros Hr1 Hr2 Hsame; simplify_eq.
  - done.
  - by apply (Hinv _ _ r r2).
  - by apply (Hinv _ _ r1 r).
  - by eapply Hinv.
Qed.

(** Every update method other than [updateSwapRequest] keeps the triples of
    the stored requests distinct. *)
Lemma step_one_per_triple (env : Env) (op : Op) (st : State) :
  is_UpdateSwapRequest op = false →
  one_request_per_triple st → one_request_per_triple (step env op st).
Proof.
  intros Hop Hinv. destruct op; simpl; try discriminate Hop;
    try (by apply createSwapRequest_one_per_triple).
  all: unfold_methods; repeat case_match; simpl; try done.
  - by apply with_status_one_per_triple.
  - by apply with_status_one_per_triple.
  - intros k1 k2 r1 r2. simpl. rewrite !lookup_delete.
    repeat case_decide; try done. apply Hinv.
Qed.

Lemma run_one_per_triple (calls : list (Env * Op)) (st : State) :
  Forall (fun call => is_UpdateSwapRequest (snd call) = false) calls →
  one_request_per_triple st → one_open_request_per_triple (run calls st).
Proof.
  intros Hcalls Hst. apply one_request_one_open.
  revert st Hst. induction calls as [| [env op] calls IH]; intros st Hst; simpl.
  - done.
  - inversion Hcalls; subst. apply IH; [done |]. by apply step_one_per_triple.
Qed.

(** ** The methods on the example states *)

Lemma forallb_values {V : Type} (f : V -> bool) (m : gmap string V) :
  forallb f (values m) = true → ∀ k v, m !! k = Some v → f v = true.
Proof.
  rewrite forallb_forall. intros H k v Hk. apply H, list_elem_of_In, elem_of_values. eauto.
Qed.

Lemma library_books_dated (k : string) (book : Book.t) :
  booksStorage Scenario.library !! k = Some book → book_dated book.
Proof.
  intros Hk.
  assert (forallb (λ b, bool_decide (is_Some (Date.getTime (Book.createdAt b))))
            (values (booksStorage Scenario.library)) = true) as Hall.
  { vm_compute. reflexivity. }
  apply (forallb_values _ _ Hall) in Hk.
  by apply bool_decide_eq_true in Hk.
Qed.

Lemma library_has_books : booksStorage Scenario.library ≠ ∅.
Proof.
  intros H. apply (f_equal (λ m, m !! Scenario.duneId)) in H.
  vm_compute in H. discriminate H.
Qed.

Lemma getRecentBooks_newest_ten_witness :
  reachable Scenario.library
  ∧ booksStorage Scenario.library ≠ ∅
  ∧ (∀ k book, booksStorage Scenario.library !! k = Some book → book_dated book)
  ∧ ∃ sorted,
      sorted ≡ₚ values (booksStorage Scenario.library)
      ∧ StronglySorted not_older sorted
      ∧ getRecentBooks Scenario.library = Ok (take 10 sorted).
Proof.
  split; [exact library_reachable |].
  split; [exact library_has_books |]. split; [exact library_books_dated |].
  destruct (getRecentBooks_newest_ten Scenario.library)
    as (sorted & Hperm & Hsorted & _ & _ & Hok).
  exists sorted. split; [exact Hperm |]. split; [exact (Hsorted library_reachable) |].
  exact (proj1 (Hok library_has_books)).
Defined.

(** Emma was listed a second after Dune and comes first. *)
Example getRecentBooks_library :
  ∃ emma dune,
    getRecentBooks Scenario.library = Ok [emma; dune]
    ∧ Book.title emma = "Emma" ∧ Book.createdAt emma = "2024-11-01T22:26:44.123Z"
    ∧ Book.title dune = "Dune" ∧ Book.createdAt dune = "2024-11-01T22:26:43.123Z".
Proof. eexists _, _. split; [vm_compute; reflexivity | repeat split]. Qed.

(** The term "fantasy" finds the one book of genre "Fantasy". *)
Example searchBooks_fantasy :
  ∃ emma,
    searchBooks "fantasy" Scenario.library = Ok [emma]
    ∧ Book.title emma = "Emma" ∧ Book.genre emma = "Fantasy".
Proof. eexists. split; [vm_compute; reflexivity | repeat split]. Qed.

Example searchBooks_no_match :
  searchBooks "cookery" Scenario.library
  = Err (NotFound "No books found matching the search term.").
Proof. vm_compute. reflexivity. Qed.

(** Titles in capitals are found by the term in small letters, in Russian
    and in Greek; in the Greek term the last letter is the final sigma,
    which no other sigma stands in for. *)
Example searchBooks_shelf :
  (∃ voina, searchBooks "война" Cases.shelf = Ok [voina]
            ∧ Book.title voina = "ВОЙНА И МИР")
  ∧ (∃ ilias, searchBooks "ιλιας" Cases.shelf = Ok [ilias]
              ∧ Book.title ilias = "ΙΛΙΑΣ")
  ∧ searchBooks "ιλιασ" Cases.shelf
    = Err (NotFound "No books found matching the search term.").
Proof.
  split; [| split].
  - eexists. split; [vm_compute; reflexivity | reflexivity].
  - eexists. split; [vm_compute; reflexivity | reflexivity].
  - vm_compute. reflexivity.
Qed.

(** The books of the library are plain, and "fantasy" is in the genre of
    Emma up to case. *)
Example library_plain :
  ∀ k book, booksStorage Scenario.library !! k = Some book → plain_book book.
Proof.
  assert (Forall plain_book (values (booksStorage Scenario.library))) as Hall.
  { apply Forall_forall. intros book Hin.
    assert (forallb (λ b, forallb plain_unit (Js.units (Book.title b))
                          && forallb plain_unit (Js.units (Book.author b))
                          && forallb plain_unit (Js.units (Book.genre b)))
              (values (booksStorage Scenario.library)) = true) as Hb
      by (vm_compute; reflexivity).
    rewrite forallb_forall in Hb. apply list_elem_of_In, Hb in Hin.
    apply andb_true_iff in Hin as [[Ht Ha]%andb_true_iff Hg].
    unfold plain_book, plain. rewrite !Forall_forall.
    rewrite !forallb_forall in Ht, Ha, Hg.
    repeat split; intros u Hu%list_elem_of_In; auto. }
  intros k book Hk. rewrite Forall_forall in Hall. apply Hall.
  apply elem_of_values. eauto.
Qed.

Lemma busy_reachable : reachable Scenario.busy.
Proof.
  apply run_reachable; [unfold Scenario.busy_calls; env_ok_by_computation |].
  apply one_request_reachable.
Qed.

(** Ann, with three completed swaps in the month, comes before Bob with two
    and Cy with one; a month later nobody is featured. *)
Example getFeaturedSwappers_busy :
  (∃ l, getFeaturedSwappers (Scenario.t0 + 60000) Scenario.busy = Ok l
        ∧ map (λ e, (FeaturedSwapper.username e, FeaturedSwapper.booksSwapped e)) l
          = [("Ann", 3%N); ("Bob", 2%N); ("Cy", 1%N)])
  ∧ getFeaturedSwappers Scenario.next_month Scenario.busy
    = Err (NotFound "No featured swappers found for this month.").
Proof.
  split; [eexists; split |]; vm_compute; reflexivity.
Qed.

(** A completed request whose owner is also its requester counts once. *)
Example getFeaturedSwappers_own_request :
  ∃ l, getFeaturedSwappers (Scenario.t0 + 60000) Scenario.own_request = Ok l
       ∧ map (λ e, (FeaturedSwapper.username e, FeaturedSwapper.booksSwapped e)) l
         = [("Ann", 1%N)].
Proof. eexists. split; vm_compute; reflexivity. Qed.

Lemma getFeaturedSwappers_ranking_witness :
  ∃ ranked e,
    e ∈ ranked
    ∧ ranks Scenario.busy (completedSwapRequests (Scenario.t0 + 60000) Scenario.busy)
        Scenario.annId e
    ∧ StronglySorted at_least_as_busy ranked
    ∧ getFeaturedSwappers (Scenario.t0 + 60000) Scenario.busy = Ok (take 5 ranked).
Proof.
  destruct (getFeaturedSwappers_ranking (Scenario.t0 + 60000) Scenario.busy)
    as (_ & ranked & _ & Hcomplete & Hsorted & _ & _ & Hok & _).
  assert (∃ user, usersStorage Scenario.busy !! Scenario.annId = Some user) as [user Hu].
  { eexists. vm_compute. reflexivity. }
  assert (0 < swaps_of Scenario.annId
                (completedSwapRequests (Scenario.t0 + 60000) Scenario.busy))%N as Hpos.
  { vm_compute. reflexivity. }
  destruct (Hcomplete Scenario.annId user Hu Hpos) as (e & Hin & Hranks).
  exists ranked, e. split; [exact Hin |]. split; [exact Hranks |].
  split; [exact Hsorted |]. apply Hok. intros Hnil. rewrite Hnil in Hin.
  by apply elem_of_nil in Hin.
Defined.

(** * Further properties *)

(** ** Texts of ASCII characters *)

Lemma units_cons_ascii (a : ascii) (s : string) :
  (N_of_ascii a < 0x80)%N → Js.units (String a s) = N_of_ascii a :: Js.units s.
Proof.
  intros Ha. unfold Js.units. cbn [Js.codePointsOfUtf8].
  apply N.ltb_lt in Ha as Ha'. rewrite Ha'. unfold Js.fromCodePoints. cbn [flat_map].
  unfold Js.unitsOfCodePoint at 1.
  assert ((N_of_ascii a <? 0x10000)%N = true) as -> by (apply N.ltb_lt; lia). done.
Qed.

Lemma fromCodePoints_head (c : N) (cs : list N) :
  (0x80 ≤ c)%N → ∃ u t, Js.fromCodePoints (c :: cs) = u :: t ∧ (0x80 ≤ u)%N.
Proof.
  intros Hc. unfold Js.fromCodePoints. cbn [flat_map]. unfold Js.unitsOfCodePoint at 1.
  destruct (c <? 0x10000)%N; simpl; eexists _, _; (split; [reflexivity |]); [done |].
  generalize ((c - 0x10000) / 0x400)%N. intros x. lia.
Qed.

Lemma codePointsOfUtf8_head (a : ascii) (s : string) :
  (0x80 ≤ N_of_ascii a)%N →
  ∃ c cs, Js.codePointsOfUtf8 (String a s) = c :: cs ∧ (0x80 ≤ c)%N.
Proof.
  intros Ha. cbn [Js.codePointsOfUtf8].
  assert ((N_of_ascii a <? 0x80)%N = false) as -> by (apply N.ltb_ge; lia).
  revert Ha. generalize (N_of_ascii a). intros b1 Ha.
  destruct s as [| a2 s2]; [eexists _, _; split; [reflexivity | lia] |].
  generalize (N_of_ascii a2). intros b2.
  destruct (_ && Js.continuation b2) eqn:H2.
  { eexists _, _. split; [reflexivity |].
    apply andb_true_iff in H2 as [[H1%N.leb_le _]%andb_true_iff _]. lia. }
  destruct s2 as [| a3 s3]; [eexists _, _; split; [reflexivity | lia] |].
  generalize (N_of_ascii a3). intros b3.
  destruct (_ && Js.continuation b3) eqn:H3.
  { eexists _, _. split; [reflexivity |].
    apply andb_true_iff in H3 as [[[H1%N.leb_le _]%andb_true_iff Hs]%andb_true_iff _].
    unfold Js.second_of_three, Js.continuation in Hs.
    destruct (b1 =? 0xE0)%N eqn:He.
    - apply andb_true_iff in Hs as [Hs%N.leb_le _]. apply N.eqb_eq in He. lia.
    - apply N.eqb_neq in He. lia. }
  destruct s3 as [| a4 s4]; [eexists _, _; split; [reflexivity | lia] |].
  generalize (N_of_ascii a4). intros b4.
  destruct (_ && Js.continuation b4) eqn:H4.
  { eexists _, _. split; [reflexivity |].
    apply andb_true_iff in H4 as [[[[H1%N.leb_le _]%andb_true_iff Hs]%andb_true_iff _]%andb_true_iff _].
    unfold Js.second_of_four in Hs.
    destruct (b1 =? 0xF0)%N eqn:He.
    - apply andb_true_iff in Hs as [Hs%N.leb_le _]. apply N.eqb_eq in He. lia.
    - apply N.eqb_neq in He. lia. }
  eexists _, _. split; [reflexivity | lia].
Qed.

Lemma units_head (a : ascii) (s : string) :
  (0x80 ≤ N_of_ascii a)%N → ∃ u t, Js.units (String a s) = u :: t ∧ (0x80 ≤ u)%N.
Proof.
  intros Ha. unfold Js.units.
  destruct (codePointsOfUtf8_head a s Ha) as (c & cs & -> & Hc).
  by apply fromCodePoints_head.
Qed.

(** A text of ASCII characters is, byte by byte, the string the code sees. *)
Lemma units_ascii (s : string) :
  Forall (λ c, (N_of_ascii c < 0x80)%N) (list_ascii_of_string s) →
  Js.units s = map N_of_ascii (list_ascii_of_string s).
Proof.
  induction s as [| a s IH]; simpl; [done |].
  intros [Ha Hs]%Forall_cons. by rewrite units_cons_ascii, IH.
Qed.

(** ... and a string of ASCII characters can only come from such a text. *)
Lemma units_ascii_inv (s : string) :
  Forall (λ u, (u < 0x80)%N) (Js.units s) →
  Forall (λ c, (N_of_ascii c < 0x80)%N) (list_ascii_of_string s).
Proof.
  induction s as [| a s IH]; simpl; [constructor |].
  destruct (decide (N_of_ascii a < 0x80)%N) as [Ha | Ha].
  - rewrite units_cons_ascii by done. intros [_ Hs]%Forall_cons.
    constructor; [done | by apply IH].
  - destruct (units_head a s) as (u & t & -> & Hu); [lia |].
    intros [Hu' _]%Forall_cons. lia.
Qed.

(** ** The two patterns *)

Lemma matches_eps_inv (s : Js.text) : matches Regex.Eps s → s = [].
Proof. by inversion 1. Qed.

Lemma matches_void_inv (s : Js.text) : ¬ matches Regex.Void s.
Proof. inversion 1. Qed.

Lemma matches_cls_inv (p : N -> bool) (s : Js.text) :
  matches (Regex.Cls p) s → ∃ c, s = [c] ∧ p c = true.
Proof. inversion 1; subst; eauto. Qed.

Lemma matches_cat_inv (r1 r2 : Regex.re) (s : Js.text) :
  matches (Regex.Cat r1 r2) s →
  ∃ s1 s2, s = (s1 ++ s2)%list ∧ matches r1 s1 ∧ matches r2 s2.
Proof. inversion 1; subst; eauto. Qed.

Lemma matches_alt_inv (r1 r2 : Regex.re) (s : Js.text) :
  matches (Regex.Alt r1 r2) s → matches r1 s ∨ matches r2 s.
Proof. inversion 1; subst; eauto. Qed.

Lemma nullable_spec (r : Regex.re) : Regex.nullable r = true ↔ matches r [].
Proof.
  induction r as [| | p | r1 IH1 r2 IH2 | r1 IH1 r2 IH2 | r IH]; simpl.
  - split; [done | by intros H%matches_void_inv].
  - split; [constructor | done].
  - split; [done | by intros (c & H & _)%matches_cls_inv].
  - rewrite andb_true_iff, IH1, IH2. split.
    + intros [H1 H2]. apply (matches_cat r1 r2 [] [] H1 H2).
    + intros (s1 & s2 & Heq & H1 & H2)%matches_cat_inv.
      symmetry in Heq. apply app_eq_nil in Heq as [-> ->]. done.
  - rewrite orb_true_iff, IH1, IH2. split.
    + intros [H | H]; [by apply matches_alt_l | by apply matches_alt_r].
    + apply matches_alt_inv.
  - split; [constructor | done].
Qed.

Lemma matches_star_split (r : Regex.re) (c : N) (s : Js.text) :
  matches (Regex.Star r) (c :: s) →
  ∃ s1 s2, s = (s1 ++ s2)%list ∧ matches r (c :: s1) ∧ matches (Regex.Star r) s2.
Proof.
  intros H. remember (Regex.Star r) as r' eqn:Hr. remember (c :: s) as t eqn:Ht.
  revert s Ht. induction H as [| | | | | | r0 s1 s2 H1 _ H2 IH2]; intros s' Ht;
    try discriminate.
  injection Hr as ->. destruct s1 as [| c1 s1].
  - simpl in Ht. by apply IH2.
  - simpl in Ht. injection Ht as -> <-. by exists s1, s2.
Qed.

Lemma matches_cat_cons (r1 r2 : Regex.re) (c : N) (s : Js.text) :
  matches (Regex.Cat r1 r2) (c :: s) ↔
  (∃ s1 s2, s = (s1 ++ s2)%list ∧ matches r1 (c :: s1) ∧ matches r2 s2)
  ∨ (matches r1 [] ∧ matches r2 (c :: s)).
Proof.
  split.
  - intros (s1 & s2 & Heq & H1 & H2)%matches_cat_inv.
    destruct s1 as [| c1 s1].
    + simpl in Heq. subst s2. by right.
    + simpl in Heq. injection Heq as <- ->. left. eauto.
  - intros [(s1 & s2 & -> & H1 & H2) | [H1 H2]].
    + apply (matches_cat r1 r2 (c :: s1) s2 H1 H2).
    + apply (matches_cat r1 r2 [] (c :: s) H1 H2).
Qed.

Lemma deriv_spec (r : Regex.re) (c : N) (s : Js.text) :
  matches (Regex.deriv c r) s ↔ matches r (c :: s).
Proof.
  revert s. induction r as [| | p | r1 IH1 r2 IH2 | r1 IH1 r2 IH2 | r IH];
    intros s; simpl.
  - split; by intros H%matches_void_inv.
  - split; [by intros H%matches_void_inv | by intros H%matches_eps_inv].
  - destruct (p c) eqn:Hp; split.
    + intros ->%matches_eps_inv. by constructor.
    + intros (c' & [= <- ->] & _)%matches_cls_inv. constructor.
    + by intros H%matches_void_inv.
    + intros (c' & [= <- ->] & Hc)%matches_cls_inv. congruence.
  - rewrite matches_cat_cons.
    assert (matches (Regex.Cat (Regex.deriv c r1) r2) s
            ↔ ∃ s1 s2, s = (s1 ++ s2)%list ∧ matches r1 (c :: s1) ∧ matches r2 s2)
      as Hcat.
    { split.
      - intros (s1 & s2 & -> & H1 & H2)%matches_cat_inv. apply IH1 in H1. eauto.
      - intros (s1 & s2 & -> & H1 & H2). apply IH1 in H1. by constructor. }
    destruct (Regex.nullable r1) eqn:Hnull.
    + apply nullable_spec in Hnull. split.
      * intros [H | H]%matches_alt_inv; [left; by apply Hcat |].
        right. split; [done | by apply IH2].
      * intros [H | [_ H]]; [apply matches_alt_l; by apply Hcat |].
        apply matches_alt_r. by apply IH2.
    + rewrite Hcat. split; [tauto |]. intros [H | [H _]]; [done |].
      apply nullable_spec in H. congruence.
  - split.
    + intros [H | H]%matches_alt_inv;
        [apply matches_alt_l; by apply IH1 | apply matches_alt_r; by apply IH2].
    + intros [H | H]%matches_alt_inv;
        [apply matches_alt_l; by apply IH1 | apply matches_alt_r; by apply IH2].
  - split.
    + intros (s1 & s2 & -> & H1 & H2)%matches_cat_inv.
      apply IH in H1. apply (matches_star_cons r (c :: s1) s2 H1 H2).
    + intros H. apply matches_star_split in H as (s1 & s2 & -> & H1 & H2).
      constructor; [by apply IH | done].
Qed.

(** The matcher by derivatives accepts exactly the strings the expression
    denotes. *)
Lemma accepts_spec (r : Regex.re) (s : Js.text) :
  Regex.accepts r s = true ↔ matches r s.
Proof.
  revert r. induction s as [| c s IH]; intros r; simpl.
  - apply nullable_spec.
  - rewrite IH. apply deriv_spec.
Qed.

Lemma test_spec (r : Regex.re) (s : string) :
  Regex.test r s = true ↔ matches r (Js.units s).
Proof. apply accepts_spec. Qed.

Lemma matches_star_cls (p : N -> bool) (s : Js.text) :
  matches (Regex.Star (Regex.Cls p)) s ↔ all_chars p s.
Proof.
  unfold all_chars. split.
  - intros H. remember (Regex.Star (Regex.Cls p)) as r eqn:Hr.
    induction H as [| | | | | | r0 s1 s2 H1 _ H2 IH2]; try discriminate.
    + constructor.
    + injection Hr as ->. apply matches_cls_inv in H1 as (c & -> & Hc).
      apply Forall_app. split; [| by apply IH2].
      by repeat constructor.
  - induction s as [| c s IH]; intros H; [constructor |].
    apply Forall_cons in H as [Hc H].
    apply (matches_star_cons (Regex.Cls p) [c] s); [by constructor | by apply IH].
Qed.

Lemma matches_plus_cls (p : N -> bool) (s : Js.text) :
  matches (Regex.Plus (Regex.Cls p)) s ↔ s ≠ [] ∧ all_chars p s.
Proof.
  unfold Regex.Plus. split.
  - intros (s1 & s2 & -> & (c & -> & Hc)%matches_cls_inv & H2%matches_star_cls)%matches_cat_inv.
    split; [done |]. apply Forall_app. split; [by repeat constructor | done].
  - intros [Hne H]. destruct s as [| c s]; [done |].
    apply Forall_cons in H as [Hc H].
    apply (matches_cat (Regex.Cls p) _ [c] s); [by constructor |].
    by apply matches_star_cls.
Qed.

Lemma matches_rep_cls (n : nat) (p : N -> bool) (s : Js.text) :
  matches (Regex.Rep n (Regex.Cls p)) s ↔ length s = n ∧ all_chars p s.
Proof.
  revert s. induction n as [| n IH]; intros s; simpl.
  - split.
    + intros ->%matches_eps_inv. split; [done | constructor].
    + intros [Hlen _]. destruct s; [constructor | discriminate].
  - split.
    + intros (s1 & s2 & -> & (c & -> & Hc)%matches_cls_inv & [Hlen H2]%IH)%matches_cat_inv.
      simpl. split; [by rewrite Hlen |]. by constructor.
    + intros [Hlen H]. destruct s as [| c s]; [discriminate |].
      injection Hlen as Hlen. apply Forall_cons in H as [Hc H].
      apply (matches_cat (Regex.Cls p) _ [c] s); [by constructor |].
      by apply IH.
Qed.

Lemma is_digit_spec (c : ascii) :
  Regex.is_digit (N_of_ascii c) = true ↔ c ∈ decimal_digits.
Proof.
  unfold decimal_digits. rewrite !elem_of_cons, elem_of_nil.
  destruct c as [[] [] [] [] [] [] [] []]; vm_compute; split;
    try discriminate; try tauto;
    intros H; repeat (destruct H as [H | H]; try discriminate H); done.
Qed.

Lemma is_digit_ascii (u : N) : Regex.is_digit u = true → (u < 0x80)%N.
Proof. unfold Regex.is_digit. rewrite andb_true_iff, !N.leb_le. lia. Qed.

Lemma length_list_ascii_of_string (s : string) :
  length (list_ascii_of_string s) = String.length s.
Proof. induction s as [| c s IH]; simpl; [done | by rewrite IH]. Qed.

(** X1: [isValidPhoneNumber] accepts exactly the texts made of ten decimal
    digits. *)
Theorem isValidPhoneNumber_ten_digits (phoneNumber : string) :
  isValidPhoneNumber phoneNumber = true
  ↔ String.length phoneNumber = 10%nat
    ∧ Forall (λ c, c ∈ decimal_digits) (list_ascii_of_string phoneNumber).
Proof.
  unfold isValidPhoneNumber, phoneNumberRegex.
  rewrite test_spec, matches_rep_cls. unfold all_chars. split.
  - intros [Hlen Hdigits].
    assert (Forall (λ c, (N_of_ascii c < 0x80)%N) (list_ascii_of_string phoneNumber))
      as Hascii.
    { apply units_ascii_inv. eapply Forall_impl; [exact Hdigits |].
      intros u. simpl. apply is_digit_ascii. }
    rewrite (units_ascii _ Hascii) in Hlen, Hdigits.
    rewrite length_map, length_list_ascii_of_string in Hlen. split; [done |].
    apply Forall_map in Hdigits. eapply Forall_impl; [exact Hdigits |].
    intros c. simpl. apply is_digit_spec.
  - intros [Hlen Hdigits].
    assert (Forall (λ c, Regex.is_digit (N_of_ascii c) = true)
              (list_ascii_of_string phoneNumber)) as Hd.
    { eapply Forall_impl; [exact Hdigits |]. intros c. simpl. apply is_digit_spec. }
    assert (Forall (λ c, (N_of_ascii c < 0x80)%N) (list_ascii_of_string phoneNumber))
      as Hascii.
    { eapply Forall_impl; [exact Hd |]. intros c. simpl. apply is_digit_ascii. }
    rewrite (units_ascii _ Hascii).
    rewrite length_map, length_list_ascii_of_string. split; [done |].
    by apply Forall_map.
Qed.

Lemma not_space_at_spec (c : N) :
  Regex.not_space_at c = true ↔ Regex.is_space c = false ∧ c ≠ at_sign.
Proof.
  unfold Regex.not_space_at, Regex.is_char.
  rewrite andb_true_iff, !negb_true_iff, N.eqb_neq. tauto.
Qed.

Lemma matches_email_part (s : Js.text) :
  matches (Regex.Plus (Regex.Cls Regex.not_space_at)) s ↔ email_part s.
Proof.
  rewrite matches_plus_cls. unfold email_part, all_chars.
  rewrite !Forall_forall. split; intros [Hne H]; (split; [done |]);
    intros c Hc; apply not_space_at_spec; auto.
Qed.

Lemma matches_char (a : ascii) (s : Js.text) :
  matches (Regex.Cls (Regex.is_char a)) s ↔ s = [N_of_ascii a].
Proof.
  split.
  - intros (c & -> & Hc)%matches_cls_inv. unfold Regex.is_char in Hc.
    by apply N.eqb_eq in Hc as ->.
  - intros ->. constructor. unfold Regex.is_char. apply N.eqb_refl.
Qed.

(** X2: [isValidEmail] accepts exactly the texts [a@b.c] in which [a], [b]
    and [c] are not empty and hold neither white space nor an at sign. *)
Theorem isValidEmail_shape (email : string) :
  isValidEmail email = true
  ↔ ∃ a b c, Js.units email = (a ++ [at_sign] ++ b ++ [dot] ++ c)%list
             ∧ email_part a ∧ email_part b ∧ email_part c.
Proof.
  unfold isValidEmail, emailRegex. rewrite test_spec. split.
  - intros (a & s1 & -> & Ha%matches_email_part & H)%matches_cat_inv.
    apply matches_cat_inv in H as (at_ & s2 & -> & ->%matches_char & H).
    apply matches_cat_inv in H as (b & s3 & -> & Hb%matches_email_part & H).
    apply matches_cat_inv in H as (dot_ & c & -> & ->%matches_char & Hc%matches_email_part).
    by exists a, b, c.
  - intros (a & b & c & -> & Ha & Hb & Hc).
    apply matches_cat; [by apply matches_email_part |].
    apply (matches_cat _ _ [at_sign] _); [by apply (matches_char "@") |].
    apply matches_cat; [by apply matches_email_part |].
    apply (matches_cat _ _ [dot] _); [by apply (matches_char ".") |].
    by apply matches_email_part.
Qed.

(** ** Failures and frames *)

Ltac branch_cases :=
  repeat match goal with
    | |- context [if ?c then _ else _] => destruct c eqn:?; simpl
    | |- context [match ?o with Some _ => _ | None => _ end] => destruct o eqn:?; simpl
    end.

(** X3: a call that fails leaves the state as it was, whatever the method;
    a failure is always [NotFound] or [InvalidPayload]; and a call that
    succeeds writes to the one store of its entity only. *)
Theorem failure_keeps_state (env : Env) (op : Op) (st : State) :
  (∀ m, failure_of env op st = Some m →
        step env op st = st ∧ not_found_or_invalid m)
  ∧ same_outside (store_of op) st (step env op st).
Proof.
  split.
  - intros m. unfold not_found_or_invalid.
    destruct op; simpl; unfold failure; unfold_methods;
      branch_cases; intros Hm; simplify_eq; split; eauto.
  - unfold same_outside.
    destruct op; simpl; unfold_methods; repeat case_match; simpl; done.
Qed.

(** ** When the creating and updating methods succeed *)

Lemma existsb_values_true_neg {V : Type} (f : V -> bool) (m : gmap string V) :
  existsb f (values m) = false ↔ ¬ ∃ k v, m !! k = Some v ∧ f v = true.
Proof.
  rewrite <- existsb_values. destruct (existsb f (values m)); split; done.
Qed.

Lemma email_taken_existsb (email : string) (st : State) :
  existsb (fun user => String.eqb (User.email user) email) (values (usersStorage st))
  = true ↔ email_taken email st.
Proof.
  rewrite existsb_values. unfold email_taken.
  split; intros (k & u & Hk & He); exists k, u; split; try done;
    by apply String.eqb_eq.
Qed.

Lemma email_taken_by_other_existsb (userId email : string) (st : State) :
  existsb (fun user => String.eqb (User.email user) email
                       && negb (String.eqb (User.userId user) userId))
    (values (usersStorage st)) = true
  ↔ email_taken_by_other userId email st.
Proof.
  rewrite existsb_values. unfold email_taken_by_other.
  split; intros (k & u & Hk & He); exists k, u; split; try done.
  - apply andb_true_iff in He as [He Hid]. apply String.eqb_eq in He.
    apply negb_true_iff, String.eqb_neq in Hid. done.
  - destruct He as [He Hid]. apply andb_true_iff. split; [by apply String.eqb_eq |].
    by apply negb_true_iff, String.eqb_neq.
Qed.

(** X4: [createUserProfile] succeeds exactly on a payload with a name, a
    well-formed email that no stored user has, and a ten-digit phone number.
    It then stores the new user, owned by the caller, under the identifier
    drawn and leaves the other users alone; on any other payload it fails
    with [InvalidPayload], never with [NotFound]. *)
Theorem createUserProfile_outcome (env : Env) (payload : UserPayload.t) (st : State) :
  (user_payload_accepted payload st →
   ∃ user st',
     createUserProfile env payload st = (Ok user, st')
     ∧ usersStorage st' !! uuid env = Some user
     ∧ User.owner user = caller env
     ∧ ∀ k, k ≠ uuid env → usersStorage st' !! k = usersStorage st !! k)
  ∧ (¬ user_payload_accepted payload st →
     ∃ msg, createUserProfile env payload st = (Err (InvalidPayload msg), st)).
Proof.
  split.
  - intros Hok.
    destruct (createUserProfile_then_getUserProfile env payload st Hok)
      as (user & st' & Hcall & Hget & _ & Howner).
    exists user, st'. split; [done |].
    unfold createUserProfile in Hcall. revert Hcall. branch_cases; intros Hcall;
      simplify_eq. simpl. split; [apply lookup_insert_eq |]. split; [done |].
    intros k Hk. by apply lookup_insert_ne.
  - intros Hbad. unfold createUserProfile. branch_cases; eauto.
    exfalso. apply Hbad. unfold user_payload_accepted.
    repeat match goal with
      | H : _ || _ = false |- _ => apply orb_false_iff in H as [? ?]
      | H : negb _ = false |- _ => apply negb_false_iff in H
      | H : Js.truthy _ = true |- _ => apply truthy_true in H
      end.
    repeat split; try done.
    intros k user Hk He.
    match goal with
    | H : existsb _ _ = false |- _ =>
        apply existsb_values_true_neg in H; apply H
    end.
    exists k, user. split; [done | by apply String.eqb_eq].
Qed.

(** X5: [updateUserProfile] succeeds exactly when the payload has a name, a
    well-formed email that no other user has, a ten-digit phone number, and
    the id is stored.  It then replaces name, email and phone number of that
    user and keeps [userId], [owner] and [createdAt]; otherwise it fails, and
    with [NotFound] only when the id is not stored. *)
Theorem updateUserProfile_outcome (userId : string) (payload : UserPayload.t)
    (st : State) :
  (user_update_accepted userId payload st →
   ∃ old new st',
     usersStorage st !! userId = Some old
     ∧ updateUserProfile userId payload st = (Ok new, st')
     ∧ usersStorage st' = <[userId := new]> (usersStorage st)
     ∧ user_from_payload payload (User.userId old) (User.createdAt old) new
     ∧ User.owner new = User.owner old)
  ∧ (¬ user_update_accepted userId payload st →
     ∃ m, updateUserProfile userId payload st = (Err m, st)
          ∧ ((∃ msg, m = NotFound msg) → usersStorage st !! userId = None)).
Proof.
  split.
  - intros (Hn & He & Hp & Hve & Hvp & Hfree & [old Hold]).
    unfold updateUserProfile. truthy_cases.
    unfold isValidEmail in Hve. unfold isValidPhoneNumber in Hvp.
    rewrite Hve, Hvp. simpl.
    assert (existsb (fun user => String.eqb (User.email user) (UserPayload.email payload)
                                 && negb (String.eqb (User.userId user) userId))
              (values (usersStorage st)) = false) as ->.
    { destruct (existsb _ _) eqn:Hex; [| done].
      by apply email_taken_by_other_existsb in Hex. }
    rewrite Hold. eexists old, _, _. repeat split; done.
  - intros Hbad. unfold updateUserProfile. branch_cases;
      try (eexists; split; [reflexivity |]; try done; intros [msg [=]]).
    exfalso. apply Hbad. unfold user_update_accepted.
    repeat match goal with
      | H : _ || _ = false |- _ => apply orb_false_iff in H as [? ?]
      | H : negb _ = false |- _ => apply negb_false_iff in H
      | H : Js.truthy _ = true |- _ => apply truthy_true in H
      end.
    repeat split; try done.
    intros Htaken%email_taken_by_other_existsb. congruence.
Qed.

Ltac bool_facts :=
  repeat match goal with
    | H : _ || _ = false |- _ => apply orb_false_iff in H as [? ?]
    | H : _ || _ = true |- _ => apply orb_true_iff in H as [? | ?]
    | H : negb _ = false |- _ => apply negb_false_iff in H
    | H : negb _ = true |- _ => apply negb_true_iff in H
    | H : Js.truthy _ = true |- _ => apply truthy_true in H
    | H : Js.truthy _ = false |- _ => apply truthy_false in H
    end.

(** X6: the answer of [createSwapRequest], case by case.  A payload with an
    empty field is [InvalidPayload]; with all fields given, an owner,
    requester or book that is not stored is [NotFound]; with all three
    stored, a request already stored for the triple is [InvalidPayload];
    and otherwise the request is stored as "Pending" under the identifier
    drawn. *)
Theorem createSwapRequest_outcome (env : Env) (payload : SwapRequestPayload.t)
    (st : State) :
  (¬ swap_fields_given payload →
   ∃ msg, createSwapRequest env payload st = (Err (InvalidPayload msg), st))
  ∧ (swap_fields_given payload → ¬ triple_resolves payload st →
     ∃ msg, createSwapRequest env payload st = (Err (NotFound msg), st))
  ∧ (swap_fields_given payload → triple_resolves payload st →
     triple_stored payload st →
     ∃ msg, createSwapRequest env payload st = (Err (InvalidPayload msg), st))
  ∧ (swap_fields_given payload → triple_resolves payload st →
     ¬ triple_stored payload st →
     ∃ swapRequest,
       createSwapRequest env payload st
       = (Ok swapRequest,
          set_swapRequests st (<[uuid env := swapRequest]> (swapRequestsStorage st)))
       ∧ SwapRequest.status swapRequest = "Pending"
       ∧ swapRequest_from_payload payload (uuid env) (Date.toISOString (now env))
           swapRequest).
Proof.
  assert (swap_fields_given payload ↔
          negb (Js.truthy (SwapRequestPayload.ownerId payload))
          || negb (Js.truthy (SwapRequestPayload.requesterId payload))
          || negb (Js.truthy (SwapRequestPayload.bookId payload)) = false) as Hgiven.
  { unfold swap_fields_given.
    rewrite !orb_false_iff, !negb_false_iff, !truthy_true. tauto. }
  split; [| split; [| split]].
  - intros Hbad. unfold createSwapRequest. branch_cases; eauto.
    all: exfalso; apply Hbad, Hgiven; done.
  - intros Hg Hbad. apply Hgiven in Hg. unfold createSwapRequest. rewrite Hg.
    branch_cases; eauto.
    all: exfalso; apply Hbad; unfold triple_resolves; eauto.
  - intros _ Hres Hdup.
    destruct (duplicate_triple_refused env payload st Hdup) as (m & Hm & Hinv).
    destruct (Hinv Hres) as [msg ->]. eauto.
  - intros (Ho & Hr & Hb) Hres Hfree.
    destruct (createSwapRequest_then_getSwapRequest env payload st)
      as (r & st' & Hcall & _ & Hfrom & Hstatus); [done |].
    exists r. split; [| done]. rewrite Hcall. f_equal.
    unfold createSwapRequest in Hcall. revert Hcall. branch_cases; intros Hcall;
      by simplify_eq.
Qed.

(** X7: the answer of [createFeedback], case by case.  Without a rating
    other than 0 or without a comment it is [InvalidPayload]; with both, a
    user or a swap request that is not stored is [NotFound]; and otherwise
    the feedback is stored under the identifier drawn, with the fields of
    the payload.  Nothing else is asked of the payload. *)
Theorem createFeedback_outcome (env : Env) (payload : FeedbackPayload.t) (st : State) :
  (¬ feedback_fields_given payload →
   createFeedback env payload st
   = (Err (InvalidPayload "Ensure 'rating' and 'comment' are provided."), st))
  ∧ (feedback_fields_given payload →
     usersStorage st !! FeedbackPayload.userId payload = None →
     createFeedback env payload st = (Err (NotFound "User not found."), st))
  ∧ (feedback_fields_given payload →
     is_Some (usersStorage st !! FeedbackPayload.userId payload) →
     swapRequestsStorage st !! FeedbackPayload.swapRequestId payload = None →
     createFeedback env payload st = (Err (NotFound "Swap request not found."), st))
  ∧ (feedback_payload_accepted payload st →
     ∃ feedback,
       createFeedback env payload st
       = (Ok feedback, set_feedback st (<[uuid env := feedback]> (feedbackStorage st)))
       ∧ feedback_from_payload payload (uuid env) (Date.toISOString (now env)) feedback).
Proof.
  assert (feedback_fields_given payload ↔ feedback_incomplete payload = false) as Hgiven.
  { unfold feedback_fields_given, feedback_incomplete.
    rewrite orb_false_iff, negb_false_iff, truthy_true, N.eqb_neq. tauto. }
  split; [| split; [| split]].
  - intros Hbad. unfold createFeedback.
    destruct (feedback_incomplete payload); [done |]. exfalso. by apply Hbad, Hgiven.
  - intros Hg%Hgiven Hu. unfold createFeedback. by rewrite Hg, Hu.
  - intros Hg%Hgiven [u Hu] Hs. unfold createFeedback. by rewrite Hg, Hu, Hs.
  - intros (Hr & Hc & [u Hu] & [r Hs]).
    assert (feedback_incomplete payload = false) as Hg by (by apply Hgiven).
    unfold createFeedback. rewrite Hg, Hu, Hs. eexists. split; [reflexivity |].
    repeat split.
Qed.

(** ** Listing a store *)

Lemma values_insert {V : Type} (m : gmap string V) (k : string) (v : V) :
  values (<[k := v]> m) ≡ₚ v :: values (delete k m).
Proof.
  unfold values. rewrite <- (insert_delete_eq m k v).
  rewrite map_to_list_insert by apply lookup_delete_eq. done.
Qed.

Lemma values_delete {V : Type} (m : gmap string V) (k : string) (v : V) :
  m !! k = Some v → values m ≡ₚ v :: values (delete k m).
Proof.
  intros Hk. rewrite <- (insert_id m k v Hk) at 1. apply values_insert.
Qed.

Lemma values_insert_fresh {V : Type} (m : gmap string V) (k : string) (v : V) :
  m !! k = None → values (<[k := v]> m) ≡ₚ v :: values m.
Proof. intros Hk. rewrite values_insert. by rewrite delete_id. Qed.

Lemma filter_perm_length {A : Type} (f : A -> bool) (l l' : list A) :
  l ≡ₚ l' → length (List.filter f l) = length (List.filter f l').
Proof.
  induction 1 as [| x l l' _ IH | x y l | l l' l'' _ IH1 _ IH2]; simpl.
  - done.
  - destruct (f x); simpl; by rewrite IH.
  - destruct (f x), (f y); done.
  - by rewrite IH1.
Qed.

Lemma filter_perm_elem {A : Type} (f : A -> bool) (l l' : list A) (x : A) :
  l ≡ₚ l' → x ∈ List.filter f l ↔ x ∈ List.filter f l'.
Proof.
  intros Hperm. rewrite !list_elem_of_In, !filter_In, <- !list_elem_of_In.
  by rewrite Hperm.
Qed.

Lemma length_values {V : Type} (m : gmap string V) : length (values m) = size m.
Proof. unfold values. by rewrite length_fmap, length_map_to_list. Qed.

(** ** Deleting *)

(** X8: each of the three deleting methods answers [NotFound] on an id that
    is not stored and changes nothing; on a stored id it removes that entry
    and no other, after which reading the id, or deleting it again, answers
    [NotFound]. *)
Theorem delete_then_read (id : string) (st : State) :
  (match booksStorage st !! id with
   | None => deleteBook id st = (Err (NotFound "Book not found."), st)
   | Some _ =>
       ∃ st', deleteBook id st = (Ok tt, st')
              ∧ getBook id st' = Err (NotFound "Book not found")
              ∧ fst (deleteBook id st') = Err (NotFound "Book not found.")
              ∧ ∀ k, k ≠ id → getBook k st' = getBook k st
   end)
  ∧ (match swapRequestsStorage st !! id with
     | None => deleteSwapRequest id st = (Err (NotFound "Swap request not found"), st)
     | Some _ =>
         ∃ st', deleteSwapRequest id st = (Ok tt, st')
                ∧ getSwapRequest id st' = Err (NotFound "Swap request not found.")
                ∧ fst (deleteSwapRequest id st') = Err (NotFound "Swap request not found")
                ∧ ∀ k, k ≠ id → getSwapRequest k st' = getSwapRequest k st
     end)
  ∧ (match feedbackStorage st !! id with
     | None => deleteFeedback id st = (Err (NotFound "Feedback not found"), st)
     | Some _ =>
         ∃ st', deleteFeedback id st = (Ok tt, st')
                ∧ getFeedback id st' = Err (NotFound "Feedback not found")
                ∧ fst (deleteFeedback id st') = Err (NotFound "Feedback not found")
                ∧ ∀ k, k ≠ id → getFeedback k st' = getFeedback k st
     end).
Proof.
  unfold deleteBook, deleteSwapRequest, deleteFeedback, getBook, getSwapRequest,
    getFeedback.
  split; [| split].
  - destruct (booksStorage st !! id) eqn:Hid; [| done].
    eexists. split; [reflexivity |]. simpl. rewrite lookup_delete_eq.
    repeat split. intros k Hk. by rewrite lookup_delete_ne.
  - destruct (swapRequestsStorage st !! id) eqn:Hid; [| done].
    eexists. split; [reflexivity |]. simpl. rewrite lookup_delete_eq.
    repeat split. intros k Hk. by rewrite lookup_delete_ne.
  - destruct (feedbackStorage st !! id) eqn:Hid; [| done].
    eexists. split; [reflexivity |]. simpl. rewrite lookup_delete_eq.
    repeat split. intros k Hk. by rewrite lookup_delete_ne.
Qed.

(** ** Counting and listing books *)

Lemma listBook_accepted (env : Env) (payload : BookPayload.t) (st : State) :
  book_payload_accepted payload st →
  ∃ book,
    listBook env payload st
    = (Ok book, set_books st (<[uuid env := book]> (booksStorage st)))
    ∧ book_from_payload payload (uuid env) (Date.toISOString (now env)) book.
Proof.
  intros (Ht & Ha & Hd & Hi & [user Hu]).
  unfold listBook. truthy_cases. rewrite Hu.
  eexists. split; [reflexivity | repeat split].
Qed.

(** X9: when [listBook] accepts a payload and the identifier drawn is new,
    the total of [getTotalBooks] and the number [getNumberOfBooks] gives for
    the owner both grow by one, the numbers of the other users stay, and the
    book is among those [getBooksByUser] lists for its owner and
    [getBooksByGenre] for its genre. *)
Theorem listBook_counts (env : Env) (payload : BookPayload.t) (st : State) :
  book_payload_accepted payload st →
  booksStorage st !! uuid env = None →
  ∃ book st' total owned,
    listBook env payload st = (Ok book, st')
    ∧ getTotalBooks st = Ok total ∧ getTotalBooks st' = Ok (total + 1)%N
    ∧ getNumberOfBooks (BookPayload.userId payload) st = Ok owned
    ∧ getNumberOfBooks (BookPayload.userId payload) st' = Ok (owned + 1)%N
    ∧ (∀ userId, userId ≠ BookPayload.userId payload →
                 getNumberOfBooks userId st' = getNumberOfBooks userId st)
    ∧ (∃ l, getBooksByUser (BookPayload.userId payload) st' = Ok l ∧ book ∈ l)
    ∧ (∃ l, getBooksByGenre (BookPayload.genre payload) st' = Ok l ∧ book ∈ l).
Proof.
  intros Hok Hfresh.
  destruct (listBook_accepted env payload st Hok) as (book & Hcall & Hfrom).
  destruct Hfrom as (_ & _ & Huser & _ & _ & Hgenre & _).
  pose proof (values_insert_fresh (booksStorage st) (uuid env) book Hfresh) as Hperm.
  eexists book, _, _, _. split; [exact Hcall |].
  unfold getTotalBooks, getNumberOfBooks, getBooksByUser, getBooksByGenre. simpl.
  split; [reflexivity |]. split.
  { f_equal. rewrite Hperm. simpl. lia. }
  split; [reflexivity |]. split.
  { f_equal. rewrite (filter_perm_length _ _ _ Hperm). simpl.
    rewrite Huser, String.eqb_refl. simpl. lia. }
  split.
  { intros userId Hne. f_equal. rewrite (filter_perm_length _ _ _ Hperm). simpl.
    rewrite Huser. by rewrite (proj2 (String.eqb_neq _ _)) by done. }
  split.
  - eexists. split; [reflexivity |]. rewrite (filter_perm_elem _ _ _ _ Hperm). simpl.
    rewrite Huser, String.eqb_refl. by left.
  - eexists. split; [reflexivity |]. rewrite (filter_perm_elem _ _ _ _ Hperm). simpl.
    rewrite Hgenre, String.eqb_refl. by left.
Qed.

(** X10: [deleteBook] of a stored book takes one off the total of
    [getTotalBooks] and off the number [getNumberOfBooks] gives for its
    owner, and leaves the numbers of the other users. *)
Theorem deleteBook_counts (bookId : string) (book : Book.t) (st : State) :
  booksStorage st !! bookId = Some book →
  ∃ st' total owned,
    deleteBook bookId st = (Ok tt, st')
    ∧ getTotalBooks st = Ok (total + 1)%N ∧ getTotalBooks st' = Ok total
    ∧ getNumberOfBooks (Book.userId book) st = Ok (owned + 1)%N
    ∧ getNumberOfBooks (Book.userId book) st' = Ok owned
    ∧ ∀ userId, userId ≠ Book.userId book →
                getNumberOfBooks userId st' = getNumberOfBooks userId st.
Proof.
  intros Hk. pose proof (values_delete (booksStorage st) bookId book Hk) as Hperm.
  unfold deleteBook. rewrite Hk.
  eexists _, _, _. split; [reflexivity |].
  unfold getTotalBooks, getNumberOfBooks. simpl.
  split; [| split; [reflexivity |]].
  { f_equal. rewrite Hperm. simpl. lia. }
  split; [| split; [reflexivity |]].
  { f_equal. rewrite (filter_perm_length _ _ _ Hperm). simpl.
    rewrite String.eqb_refl. simpl. lia. }
  intros userId Hne. f_equal. rewrite (filter_perm_length _ _ _ Hperm). simpl.
  by rewrite (proj2 (String.eqb_neq _ _)) by done.
Qed.

Lemma get_all_spec {V : Type} (m : gmap string V) (msg : string) :
  (if (length (values m) =? 0)%nat then Err (NotFound msg) else Ok (values m))
  = (if decide (m = ∅) then Err (NotFound msg) else Ok (values m)).
Proof.
  case_decide as Hm.
  - subst. reflexivity.
  - destruct (values m) eqn:Hv; [| done]. by apply values_nil in Hv.
Qed.

(** X11: [getAllBooks], [getAllSwapRequests] and [getAllFeedbacks] answer
    [NotFound] exactly on an empty store; otherwise the list has one element
    per stored key, and holds an entity if and only if it is stored. *)
Theorem get_all_lists_store (st : State) :
  (booksStorage st = ∅ ∧ getAllBooks st = Err (NotFound "No books found")
   ∨ booksStorage st ≠ ∅
     ∧ ∃ l, getAllBooks st = Ok l ∧ length l = size (booksStorage st)
            ∧ ∀ book, book ∈ l ↔ ∃ k, booksStorage st !! k = Some book)
  ∧ (swapRequestsStorage st = ∅
     ∧ getAllSwapRequests st = Err (NotFound "No swap requests found")
     ∨ swapRequestsStorage st ≠ ∅
       ∧ ∃ l, getAllSwapRequests st = Ok l ∧ length l = size (swapRequestsStorage st)
              ∧ ∀ r, r ∈ l ↔ ∃ k, swapRequestsStorage st !! k = Some r)
  ∧ (feedbackStorage st = ∅ ∧ getAllFeedbacks st = Err (NotFound "No feedbacks found")
     ∨ feedbackStorage st ≠ ∅
       ∧ ∃ l, getAllFeedbacks st = Ok l ∧ length l = size (feedbackStorage st)
              ∧ ∀ f, f ∈ l ↔ ∃ k, feedbackStorage st !! k = Some f).
Proof.
  unfold getAllBooks, getAllSwapRequests, getAllFeedbacks. cbv zeta.
  rewrite !get_all_spec.
  split; [| split]; case_decide; [by left | right | by left | right | by left | right];
    (split; [done |]); eexists; (split; [reflexivity |]);
    (split; [apply length_values | intros x; apply elem_of_values]).
Qed.

(** X12: on a store without books, [getAllBooks] answers [NotFound]; after
    [listBook] has accepted one payload it answers with that one book. *)
Theorem getAllBooks_first_book (env : Env) (payload : BookPayload.t) (st : State) :
  booksStorage st = ∅ →
  book_payload_accepted payload st →
  getAllBooks st = Err (NotFound "No books found")
  ∧ ∃ book st', listBook env payload st = (Ok book, st')
                ∧ getAllBooks st' = Ok [book].
Proof.
  intros Hempty Hok. split.
  { unfold getAllBooks. by rewrite Hempty. }
  destruct (listBook_accepted env payload st Hok) as (book & Hcall & _).
  eexists book, _. split; [exact Hcall |].
  unfold getAllBooks. simpl. rewrite Hempty.
  assert (values (<[uuid env := book]> (∅ : gmap string Book.t)) = [book]) as ->.
  { apply Permutation_singleton_r. rewrite values_insert_fresh by apply lookup_empty.
    by assert (values (∅ : gmap string Book.t) = []) as -> by by apply values_nil. }
  done.
Qed.

(** ** The profile of the caller *)

Lemma filter_perm {A : Type} (f : A -> bool) (l l' : list A) :
  l ≡ₚ l' → List.filter f l ≡ₚ List.filter f l'.
Proof.
  induction 1 as [| x l l' _ IH | x y l | l l' l'' _ IH1 _ IH2]; simpl.
  - done.
  - destruct (f x); by rewrite IH.
  - destruct (f x), (f y); try done. apply Permutation_swap.
  - by rewrite IH1.
Qed.

Lemma filter_none {A : Type} (f : A -> bool) (l : list A) :
  (∀ x, x ∈ l → f x = false) → List.filter f l = [].
Proof.
  induction l as [| x l IH]; intros H; simpl; [done |].
  rewrite (H x) by by left. apply IH. intros y Hy. apply H. by right.
Qed.

(** X13: [getUserProfileByOwner] answers with a stored user whose owner has
    the text of the caller, and with [NotFound] exactly when no stored user
    has. *)
Theorem getUserProfileByOwner_owned (env : Env) (st : State) :
  match getUserProfileByOwner env st with
  | Ok user =>
      (∃ k, usersStorage st !! k = Some user)
      ∧ toText (User.owner user) = toText (caller env)
  | Err m => m = NotFound "User not found" ∧ no_profile env st
  end.
Proof.
  unfold getUserProfileByOwner, no_profile.
  destruct (List.filter _ (values (usersStorage st))) as [| user l] eqn:Hf.
  - split; [done |]. intros k user Hk Howner.
    assert (user ∈ @nil User.t) as Hin; [| by apply elem_of_nil in Hin].
    rewrite <- Hf. rewrite list_elem_of_In, filter_In, <- list_elem_of_In, elem_of_values.
    split; [eauto | by apply String.eqb_eq].
  - assert (user ∈ user :: l) as Hin by by left.
    rewrite <- Hf in Hin.
    rewrite list_elem_of_In, filter_In, <- list_elem_of_In, elem_of_values in Hin.
    destruct Hin as [Hk Howner]. split; [done | by apply String.eqb_eq].
Qed.

(** X14: after [createUserProfile] has accepted the payload of a caller
    that had no profile, [getUserProfileByOwner] answers that caller with
    the new user. *)
Theorem createUserProfile_then_getUserProfileByOwner (env : Env)
    (payload : UserPayload.t) (st : State) :
  user_payload_accepted payload st →
  no_profile env st →
  ∃ user st',
    createUserProfile env payload st = (Ok user, st')
    ∧ ∀ env', toText (caller env') = toText (caller env) →
              getUserProfileByOwner env' st' = Ok user.
Proof.
  intros Hok Hnone.
  destruct (createUserProfile_then_getUserProfile env payload st Hok)
    as (user & st' & Hcall & _ & _ & Howner).
  exists user, st'. split; [done |].
  unfold createUserProfile in Hcall. revert Hcall. branch_cases; intros Hcall;
    simplify_eq.
  intros env' Hcaller. unfold getUserProfileByOwner. simpl.
  match goal with
  | |- context [List.filter ?f (values (<[?k := ?v]> ?m))] =>
      assert (List.filter f (values (<[k := v]> m)) = [v]) as ->; [| done];
      apply Permutation_singleton_r;
      rewrite (filter_perm f _ _ (values_insert m k v))
  end.
  simpl. rewrite <- Hcaller, (String.eqb_refl (toText (caller env'))).
  rewrite filter_none; [done |].
  intros u [k Hk]%elem_of_values.
  apply lookup_delete_Some in Hk as [_ Hk].
  apply String.eqb_neq. rewrite Hcaller. by eapply Hnone.
Qed.

(** ** Updating books and swap requests *)

(** X15: [updateBook] asks only for an id that is not empty and is stored.
    It then replaces the six payload fields, whatever they hold, and keeps
    [bookId] and [createdAt]; with an empty id it answers [InvalidPayload],
    with an id that is not stored [NotFound]. *)
Theorem updateBook_outcome (bookId : string) (payload : BookPayload.t) (st : State) :
  (bookId = "" →
   updateBook bookId payload st
   = (Err (InvalidPayload "Ensure 'bookId' is provided."), st))
  ∧ (bookId ≠ "" → booksStorage st !! bookId = None →
     updateBook bookId payload st = (Err (NotFound "Book not found"), st))
  ∧ (∀ old, bookId ≠ "" → booksStorage st !! bookId = Some old →
     ∃ new,
       updateBook bookId payload st
       = (Ok new, set_books st (<[bookId := new]> (booksStorage st)))
       ∧ book_from_payload payload (Book.bookId old) (Book.createdAt old) new).
Proof.
  unfold updateBook. split; [| split].
  - by intros ->.
  - intros Hid Hk. truthy_cases. by rewrite Hk.
  - intros old Hid Hk. truthy_cases. rewrite Hk.
    eexists. split; [reflexivity | repeat split].
Qed.

(** X16: [updateSwapRequest] answers [NotFound] on an id that is not
    stored; on a stored id it replaces owner, requester and book by those of
    the payload, without any check on them, and keeps [swapRequestId],
    [status] and [createdAt]. *)
Theorem updateSwapRequest_outcome (swapRequestId : string)
    (payload : SwapRequestPayload.t) (st : State) :
  match swapRequestsStorage st !! swapRequestId with
  | None =>
      updateSwapRequest swapRequestId payload st
      = (Err (NotFound "Swap request not found."), st)
  | Some old =>
      ∃ new,
        updateSwapRequest swapRequestId payload st
        = (Ok new, set_swapRequests st (<[swapRequestId := new]> (swapRequestsStorage st)))
        ∧ swapRequest_from_payload payload (SwapRequest.swapRequestId old)
            (SwapRequest.createdAt old) new
        ∧ SwapRequest.status new = SwapRequest.status old
  end.
Proof.
  unfold updateSwapRequest.
  destruct (swapRequestsStorage st !! swapRequestId) as [old |]; [| done].
  eexists. split; [reflexivity | repeat split].
Qed.

(** ** Accepting and rejecting again *)

Lemma set_status_twice (id s1 s2 : string) (r : SwapRequest.t) (st : State) :
  set_swapRequests
    (set_swapRequests st (<[id := with_status r s1]> (swapRequestsStorage st)))
    (<[id := with_status (with_status r s1) s2]>
       (<[id := with_status r s1]> (swapRequestsStorage st)))
  = set_swapRequests st (<[id := with_status r s2]> (swapRequestsStorage st)).
Proof. unfold set_swapRequests. simpl. by rewrite insert_insert_eq. Qed.

(** X17: of several calls of [acceptSwapRequest] and [rejectSwapRequest] on
    one id, the last decides: accepting twice is accepting once, and a
    rejected request can be accepted, a completed one rejected. *)
Theorem accept_reject_last_wins (id : string) (st : State) :
  snd (acceptSwapRequest id (snd (acceptSwapRequest id st)))
  = snd (acceptSwapRequest id st)
  ∧ snd (acceptSwapRequest id (snd (rejectSwapRequest id st)))
    = snd (acceptSwapRequest id st)
  ∧ snd (rejectSwapRequest id (snd (acceptSwapRequest id st)))
    = snd (rejectSwapRequest id st)
  ∧ snd (rejectSwapRequest id (snd (rejectSwapRequest id st)))
    = snd (rejectSwapRequest id st).
Proof.
  unfold acceptSwapRequest, rejectSwapRequest.
  destruct (swapRequestsStorage st !! id) as [r |] eqn:Hid; simpl.
  - rewrite !lookup_insert_eq. simpl. by rewrite !set_status_twice.
  - by rewrite Hid.
Qed.

(** ** What holds of every state the methods lead to *)

Ltac store_entry Hinv :=
  let k := fresh "k" in
  let x := fresh "x" in
  intros k x; simpl; rewrite ?lookup_insert, ?lookup_delete;
  repeat case_decide; subst; try done;
  try (intros [= <-]; simpl); try (by apply Hinv).

Lemma step_entities_well_formed (env : Env) (op : Op) (st : State) :
  is_time_value (now env) →
  entities_well_formed st → entities_well_formed (step env op st).
Proof.
  intros Hnow (Hu & Hb & Hs & Hf).
  assert (timestamp (Date.toISOString (now env))) as Hstamp by by exists (now env).
  unfold entities_well_formed.
  destruct op; simpl; unfold_methods; branch_cases; try done;
    (split; [store_entry Hu | split; [store_entry Hb | split;
       [store_entry Hs | store_entry Hf]]]);
    try (split; [done | done]);
    match goal with
    | H : _ !! _ = Some ?old |- _ =>
        first [ apply Hu in H | apply Hb in H | apply Hs in H | apply Hf in H ];
        destruct H; done
    end.
Qed.

(** X18: in every state reached by calls of the update methods, every user,
    book, swap request and feedback is stored under its own identifier and
    its [createdAt] is the ISO text of a time value: no update changes an
    identifier or a creation time. *)
Theorem reachable_entities_well_formed (st : State) :
  reachable st → entities_well_formed st.
Proof.
  induction 1 as [| st env op _ IH (_ & _ & Hnow)].
  - unfold entities_well_formed. simpl. repeat split; by rewrite lookup_empty in *.
  - by apply step_entities_well_formed.
Qed.

Lemma step_statuses_known (env : Env) (op : Op) (st : State) :
  statuses_known st → statuses_known (step env op st).
Proof.
  intros Hinv. unfold statuses_known.
  destruct op; simpl; unfold_methods; branch_cases; try done;
    store_entry Hinv; try tauto.
  match goal with
  | H : _ !! _ = Some ?old |- _ => by apply Hinv in H
  end.
Qed.

(** X19: in every state reached by calls of the update methods, the status
    of every stored request is "Pending", "Completed" or "Rejected";
    [updateSwapRequest] cannot set another one. *)
Theorem reachable_statuses_known (st : State) :
  reachable st → statuses_known st.
Proof.
  induction 1 as [| st env op _ IH _].
  - intros k r Hk. simpl in Hk. by rewrite lookup_empty in Hk.
  - by apply step_statuses_known.
Qed.

(** ** Users stay *)

Lemma step_user_stays (env : Env) (op : Op) (st : State) (k : string) (user : User.t) :
  usersStorage st !! k = Some user →
  ∃ user', usersStorage (step env op st) !! k = Some user'
           ∧ (uuid env ≠ k → same_identity user user').
Proof.
  intros Hk. unfold same_identity.
  destruct op; simpl; unfold_methods; branch_cases; eauto;
    rewrite lookup_insert; case_decide; subst; eauto.
  - eexists. split; [reflexivity |]. intros Hne. done.
  - eexists. split; [reflexivity |]. intros _. simpl. by simplify_eq.
Qed.

(** X20: no method removes a user.  A user id that is stored stays stored
    through every sequence of calls, so [getUserProfile] keeps answering for
    it; and as long as no call draws that id again, the user keeps its
    [userId], [owner] and [createdAt]. *)
Theorem users_stay (calls : list (Env * Op)) (st : State) (k : string) (user : User.t) :
  usersStorage st !! k = Some user →
  ∃ user', getUserProfile k (run calls st) = Ok user'
           ∧ (Forall (fun call => uuid (fst call) ≠ k) calls → same_identity user user').
Proof.
  revert st user. induction calls as [| [env op] calls IH]; intros st user Hk; simpl.
  - exists user. unfold getUserProfile. rewrite Hk. by split.
  - destruct (step_user_stays env op st k user Hk) as (user1 & Hk1 & Hsame1).
    destruct (IH _ _ Hk1) as (user' & Hget & Hsame).
    exists user'. split; [done |]. intros Hall. inversion Hall; subst.
    destruct Hsame1 as (? & ? & ?); [done |].
    destruct Hsame as (? & ? & ?); [done |].
    unfold same_identity. split; [congruence | split; congruence].
Qed.

(** ** Counting swap requests *)

(** X21: for a stored request, the total of [getTotalCompletedSwapRequests]
    is the number of the other completed requests plus one if this one is
    completed; after [acceptSwapRequest] on it the total is that number
    plus one, after [rejectSwapRequest] that number. *)
Theorem accept_reject_completed_total (id : string) (r : SwapRequest.t) (st : State) :
  swapRequestsStorage st !! id = Some r →
  ∃ others,
    getTotalCompletedSwapRequests st = Ok (others + completed_count r)%N
    ∧ getTotalCompletedSwapRequests (snd (acceptSwapRequest id st)) = Ok (others + 1)%N
    ∧ getTotalCompletedSwapRequests (snd (rejectSwapRequest id st)) = Ok others.
Proof.
  intros Hid.
  set (f := fun swapRequest : SwapRequest.t =>
              String.eqb (SwapRequest.status swapRequest) "Completed").
  exists (N.of_nat (length (List.filter f (values (delete id (swapRequestsStorage st)))))).
  unfold getTotalCompletedSwapRequests, acceptSwapRequest, rejectSwapRequest,
    completed_count. rewrite Hid. simpl. fold f.
  split; [| split]; f_equal.
  - rewrite (filter_perm_length f _ _ (values_delete _ id r Hid)). simpl.
    unfold f at 1. destruct (String.eqb (SwapRequest.status r) "Completed"); simpl; lia.
  - rewrite (filter_perm_length f _ _ (values_insert _ id _)). simpl. lia.
  - by rewrite (filter_perm_length f _ _ (values_insert _ id _)).
Qed.

Lemma filter_two_lengths {A : Type} (f g1 g2 : A -> bool) (l : list A) :
  (∀ x, g1 x = true → g2 x = true → False) →
  (length (List.filter (fun x => f x && g1 x) l)
   + length (List.filter (fun x => f x && g2 x) l)
   ≤ length (List.filter f l))%nat
  ∧ ((∀ x, x ∈ l → g1 x = true ∨ g2 x = true) →
     (length (List.filter (fun x => f x && g1 x) l)
      + length (List.filter (fun x => f x && g2 x) l)
      = length (List.filter f l))%nat).
Proof.
  intros Hdisj. induction l as [| x l [IHle IHeq]]; simpl; [by split |].
  pose proof (Hdisj x) as Hx.
  split.
  - destruct (f x), (g1 x), (g2 x); simpl; try lia; exfalso; by apply Hx.
  - intros Hall.
    assert ((length (List.filter (fun x => f x && g1 x) l)
             + length (List.filter (fun x => f x && g2 x) l)
             = length (List.filter f l))%nat) as IH.
    { apply IHeq. intros y Hy. apply Hall. by right. }
    destruct (Hall x) as [H1 | H2]; [by left | |].
    + rewrite H1 in *. destruct (f x), (g2 x); simpl; try lia; exfalso; by apply Hx.
    + rewrite H2 in *. destruct (f x), (g1 x); simpl; try lia; exfalso; by apply Hx.
Qed.

(** X22: for every user, the numbers of pending and of completed requests
    that [getNumberOfPendingSwapRequests] and
    [getNumberOfCompletedSwapRequests] give add up to at most the number
    [getSwapsByUser] gives, which is the length of the list of
    [getSwapRequestsByUser]; they add up to exactly that number when every
    stored request is pending or completed. *)
Theorem swap_counters_agree (userId : string) (st : State) :
  ∃ pending completed all l,
    getNumberOfPendingSwapRequests userId st = Ok (N.of_nat pending)
    ∧ getNumberOfCompletedSwapRequests userId st = Ok (N.of_nat completed)
    ∧ getSwapsByUser userId st = Ok (N.of_nat all)
    ∧ getSwapRequestsByUser userId st = Ok l
    ∧ length l = all
    ∧ (pending + completed ≤ all)%nat
    ∧ ((∀ k r, swapRequestsStorage st !! k = Some r →
               SwapRequest.status r = "Pending" ∨ SwapRequest.status r = "Completed") →
       (pending + completed = all)%nat).
Proof.
  eexists _, _, _, _.
  split; [reflexivity |]. split; [reflexivity |]. split; [reflexivity |].
  split; [reflexivity |]. split; [reflexivity |].
  pose proof (filter_two_lengths (takes_part userId)
                (fun r => String.eqb (SwapRequest.status r) "Pending")
                (fun r => String.eqb (SwapRequest.status r) "Completed")
                (values (swapRequestsStorage st))) as [Hle Heq].
  { intros r H1%String.eqb_eq H2%String.eqb_eq. congruence. }
  split; [exact Hle |].
  intros Hall. apply Heq. intros r [k Hk]%elem_of_values.
  destruct (Hall k r Hk) as [-> | ->]; [by left | by right].
Qed.

(** X23: [getSwapRequestsForUser] answers [NotFound] for a user that is not
    stored and for a stored user that owns no request; otherwise it lists
    exactly the stored requests of which the user is the owner, not those
    the user made, and each of them is also in the list of
    [getSwapRequestsByUser]. *)
Theorem getSwapRequestsForUser_owned (userId : string) (st : State) :
  (usersStorage st !! userId = None →
   getSwapRequestsForUser userId st = Err (NotFound "User not found"))
  ∧ (is_Some (usersStorage st !! userId) →
     match getSwapRequestsForUser userId st with
     | Ok l =>
         l ≠ []
         ∧ (∀ r, r ∈ l ↔ (∃ k, swapRequestsStorage st !! k = Some r)
                          ∧ SwapRequest.ownerId r = userId)
         ∧ ∃ l', getSwapRequestsByUser userId st = Ok l' ∧ l ⊆ l'
     | Err m =>
         m = NotFound "No swap requests found for this user."
         ∧ ∀ k r, swapRequestsStorage st !! k = Some r →
                  SwapRequest.ownerId r ≠ userId
     end).
Proof.
  unfold getSwapRequestsForUser, getSwapRequestsByUser. split.
  - by intros ->.
  - intros [user ->].
    set (f := fun swapRequest : SwapRequest.t =>
                String.eqb (SwapRequest.ownerId swapRequest) userId).
    assert (∀ r, r ∈ List.filter f (values (swapRequestsStorage st))
                 ↔ (∃ k, swapRequestsStorage st !! k = Some r)
                   ∧ SwapRequest.ownerId r = userId) as Hmem.
    { intros r. rewrite list_elem_of_In, filter_In, <- list_elem_of_In, elem_of_values.
      unfold f. by rewrite String.eqb_eq. }
    destruct (List.filter f (values (swapRequestsStorage st))) as [| r0 l] eqn:Hf; simpl.
    + split; [done |]. intros k r Hk Ho.
      assert (r ∈ @nil SwapRequest.t) as Hin by (apply Hmem; eauto).
      by apply elem_of_nil in Hin.
    + split; [done |]. split; [done |]. eexists. split; [reflexivity |].
      intros r Hr. apply Hmem in Hr as [[k Hk] Ho].
      rewrite list_elem_of_In, filter_In, <- list_elem_of_In, elem_of_values.
      split; [eauto |]. unfold takes_part. apply orb_true_iff. left.
      by apply String.eqb_eq.
Qed.

(** ** Feedback lists *)

(** X24: after [createFeedback] has accepted a payload, the new feedback is
    in the list of [getFeedbacksByUser] for its user, in the list of
    [getFeedbacksBySwapRequest] for its swap request and in the list of
    [getAllFeedbacks]. *)
Theorem createFeedback_then_lists (env : Env) (payload : FeedbackPayload.t) (st : State) :
  feedback_payload_accepted payload st →
  ∃ feedback st',
    createFeedback env payload st = (Ok feedback, st')
    ∧ (∃ l, getFeedbacksByUser (FeedbackPayload.userId payload) st' = Ok l ∧ feedback ∈ l)
    ∧ (∃ l, getFeedbacksBySwapRequest (FeedbackPayload.swapRequestId payload) st' = Ok l
            ∧ feedback ∈ l)
    ∧ (∃ l, getAllFeedbacks st' = Ok l ∧ feedback ∈ l).
Proof.
  intros Hok.
  destruct (createFeedback_then_getFeedback env payload st Hok)
    as (f & st' & Hcall & Hget & Hfrom).
  destruct Hfrom as (Hid & _ & Huser & Hswap & _).
  assert (feedbackStorage st' !! Feedback.feedbackId f = Some f) as Hstored.
  { unfold getFeedback in Hget. by destruct (feedbackStorage st' !! _); simplify_eq. }
  assert (f ∈ values (feedbackStorage st')) as Hin by (apply elem_of_values; eauto).
  exists f, st'. split; [done |].
  unfold getFeedbacksByUser, getFeedbacksBySwapRequest, getAllFeedbacks.
  split; [| split].
  - eexists. split; [reflexivity |].
    rewrite list_elem_of_In, filter_In, <- list_elem_of_In.
    split; [done | by apply String.eqb_eq].
  - eexists. split; [reflexivity |].
    rewrite list_elem_of_In, filter_In, <- list_elem_of_In.
    split; [done | by apply String.eqb_eq].
  - cbv zeta. destruct (values (feedbackStorage st')) as [| x l] eqn:Hv.
    + by apply elem_of_nil in Hin.
    + simpl. eauto.
Qed.

(** [getFeedbacksByUser] never fails: it lists exactly the stored
    feedback of the user, and the empty list for a user without feedback.
    The earlier definition of the same name, which the later one replaces,
    would answer [NotFound] in that one case and the same list otherwise. *)
Theorem getFeedbacksByUser_never_fails (userId : string) (st : State) :
  ∃ l,
    getFeedbacksByUser userId st = Ok l
    ∧ (∀ feedback, feedback ∈ l ↔
                   (∃ k, feedbackStorage st !! k = Some feedback)
                   ∧ Feedback.userId feedback = userId)
    ∧ getFeedbacksByUser_replaced userId st
      = match l with
        | [] => Err (NotFound "No feedbacks found for the user.")
        | _ => Ok l
        end.
Proof.
  eexists. split; [reflexivity |]. split.
  - intros f. rewrite list_elem_of_In, filter_In, <- list_elem_of_In, elem_of_values.
    by rewrite String.eqb_eq.
  - unfold getFeedbacksByUser_replaced. cbv zeta.
    by destruct (List.filter _ (values (feedbackStorage st))).
Qed.

(** X26: every book [getBooksByGenre] lists for a genre is also found by
    [searchBooks] for that genre as the term: the first asks for the exact
    genre, the second for the term anywhere in title, author or genre and
    whatever the case. *)
Theorem getBooksByGenre_within_searchBooks (genre : string) (st : State)
    (book : Book.t) :
  (∃ l, getBooksByGenre genre st = Ok l ∧ book ∈ l) →
  ∃ l', searchBooks genre st = Ok l' ∧ book ∈ l'.
Proof.
  unfold getBooksByGenre, searchBooks. intros (l & [= <-] & Hin).
  rewrite list_elem_of_In, filter_In, <- list_elem_of_In in Hin.
  destruct Hin as [Hin Hg%String.eqb_eq].
  assert (book ∈ List.filter (book_matches genre) (values (booksStorage st))) as Hfound.
  { rewrite list_elem_of_In, filter_In, <- list_elem_of_In. split; [done |].
    apply book_matches_spec. right. right. exists [], []. rewrite Hg. simpl.
    by rewrite app_nil_r. }
  destruct (List.filter (book_matches genre) (values (booksStorage st))) as [| b l'].
  - by apply elem_of_nil in Hfound.
  - simpl. eauto.
Qed.

(** ** Top swappers *)

Lemma SwapCountMap_get_set (m : SwapCountMap.t) (k k' : string) (v : SwapCount.t) :
  SwapCountMap.get (SwapCountMap.set m k v) k'
  = if String.eqb k k' then Some v else SwapCountMap.get m k'.
Proof.
  induction m as [| [k0 v0] m IH]; simpl; [done |].
  destruct (String.eqb_spec k0 k) as [-> | Hne]; simpl.
  - by destruct (String.eqb k k').
  - rewrite IH. destruct (String.eqb_spec k0 k') as [-> | Hne']; [| done].
    destruct (String.eqb_spec k k'); congruence.
Qed.

Lemma SwapCountMap_get_elem_of (m : SwapCountMap.t) (k : string) (v : SwapCount.t) :
  SwapCountMap.get m k = Some v → (k, v) ∈ m.
Proof.
  induction m as [| [k0 v0] m IH]; simpl; [done |].
  destruct (String.eqb_spec k0 k) as [-> | Hne].
  - intros [= ->]. by left.
  - intros H. right. by apply IH.
Qed.

Lemma SwapCountMap_elem_of_get (m : SwapCountMap.t) (k : string) (v : SwapCount.t) :
  NoDup m.*1 → (k, v) ∈ m → SwapCountMap.get m k = Some v.
Proof.
  induction m as [| [k0 v0] m IH]; simpl; intros Hnd Hin.
  - by apply elem_of_nil in Hin.
  - apply NoDup_cons in Hnd as [Hk0 Hnd].
    apply elem_of_cons in Hin as [[= -> ->] | Hin].
    + by rewrite String.eqb_refl.
    + destruct (String.eqb_spec k0 k) as [-> | Hne]; [| by apply IH].
      exfalso. apply Hk0. apply list_elem_of_fmap. by exists (k, v).
Qed.

Lemma SwapCountMap_set_keys (m : SwapCountMap.t) (k : string) (v : SwapCount.t) :
  NoDup m.*1 → NoDup (SwapCountMap.set m k v).*1.
Proof.
  induction m as [| [k0 v0] m IH]; simpl; intros Hnd.
  - apply NoDup_singleton.
  - apply NoDup_cons in Hnd as [Hk0 Hnd].
    destruct (String.eqb_spec k0 k) as [-> | Hne]; simpl.
    + by apply NoDup_cons.
    + apply NoDup_cons. split; [| by apply IH].
      rewrite list_elem_of_fmap. intros [[k1 v1] [Hk1 Hin]]. simpl in Hk1. subst k1.
      assert (SwapCountMap.get (SwapCountMap.set m k v) k0 = Some v1) as Hget.
      { apply SwapCountMap_elem_of_get; [by apply IH | done]. }
      rewrite SwapCountMap_get_set in Hget.
      destruct (String.eqb_spec k k0) as [-> | _]; [done |].
      apply SwapCountMap_get_elem_of in Hget. apply Hk0.
      apply list_elem_of_fmap. by exists (k0, v1).
Qed.

Lemma count_owner_ok (st : State) (m : SwapCountMap.t) (r : SwapRequest.t) :
  owner_map_ok st m →
  owner_map_ok st (count_owner st m r)
  ∧ ∀ u, owner_count_in (count_owner st m r) u
         = (owner_count_in m u + if decide (SwapRequest.ownerId r = u) then 1 else 0)%N.
Proof.
  intros [Hnd Hok]. unfold count_owner, owner_map_ok, owner_count_in.
  split; [split |].
  - by apply SwapCountMap_set_keys.
  - intros k v. rewrite SwapCountMap_get_set.
    destruct (String.eqb_spec (SwapRequest.ownerId r) k) as [<- | Hne]; [| apply Hok].
    intros [= <-]. simpl. split; [lia | done].
  - intros u. rewrite SwapCountMap_get_set.
    destruct (String.eqb_spec (SwapRequest.ownerId r) u) as [<- | Hne];
      case_decide; try done; simpl; lia.
Qed.

Lemma fold_count_owner (st : State) (l : list SwapRequest.t) (m : SwapCountMap.t) :
  owner_map_ok st m →
  owner_map_ok st (fold_left (count_owner st) l m)
  ∧ ∀ u, owner_count_in (fold_left (count_owner st) l m) u
         = (owner_count_in m u + owned_in u l)%N.
Proof.
  revert m. induction l as [| r l IH]; intros m Hm; simpl.
  - split; [done |]. intros u. unfold owned_in. simpl. lia.
  - destruct (count_owner_ok st m r Hm) as [Hm' Hcount'].
    destruct (IH _ Hm') as [Hm'' Hcount]. split; [done |].
    intros u. rewrite Hcount, Hcount'. unfold owned_in.
    rewrite filter_cons. case_decide; simpl; lia.
Qed.

Lemma swapCountMap_spec (st : State) (l : list SwapRequest.t) (u : string)
    (data : SwapCount.t) :
  (u, data) ∈ swapCountMap st l
  ↔ SwapCount.count data = owned_in u l ∧ (0 < owned_in u l)%N
    ∧ SwapCount.lastBook data = lastBookOf st u.
Proof.
  unfold swapCountMap.
  destruct (fold_count_owner st l []) as ([Hnd Hok] & Hcount).
  { split; [constructor | done]. }
  specialize (Hcount u). unfold owner_count_in in Hcount. simpl in Hcount. split.
  - intros Hin. apply SwapCountMap_elem_of_get in Hin; [| done].
    rewrite Hin in Hcount. simpl in Hcount.
    destruct (Hok u data Hin) as [Hpos Hlast]. repeat split; [lia | lia | done].
  - intros (Hc & Hpos & Hlast). apply SwapCountMap_get_elem_of.
    destruct (SwapCountMap.get (fold_left (count_owner st) l []) u) as [v |] eqn:Hget;
      simpl in Hcount; [| lia].
    destruct (Hok u v Hget) as [_ Hlast']. f_equal.
    destruct v as [c b], data as [c' b']. simpl in *. f_equal; [lia | congruence].
Qed.

Lemma top_entry_Some (st : State) (key : string) (data : SwapCount.t) (e : TopSwapper.t) :
  top_entry st (key, data) = Some e ↔
  ∃ user, usersStorage st !! key = Some user
          ∧ e = {| TopSwapper.userId := key;
                   TopSwapper.name := User.name user;
                   TopSwapper.swapsCompleted := SwapCount.count data;
                   TopSwapper.lastBookDetails := SwapCount.lastBook data |}.
Proof.
  unfold top_entry. destruct (usersStorage st !! key) as [user |].
  - split; [intros [= <-]; eauto | intros (u & [= <-] & ->); done].
  - split; [done | intros (u & [=] & _)].
Qed.

Lemma omap_length_le {A B : Type} (f : A -> option B) (l : list A) :
  (length (omap f l) ≤ length l)%nat.
Proof.
  induction l as [| x l IH]; simpl; [done |].
  change (list_omap A B f l) with (omap f l). destruct (f x); simpl; lia.
Qed.

Lemma most_owned_first_sorted (m : SwapCountMap.t) :
  StronglySorted owns_at_least (Array.sort most_owned_first m).
Proof.
  apply (sort_sorted most_owned_first (λ _, True)); unfold owns_at_least.
  - intros a b _ _. unfold Array.in_order, most_owned_first. intros H%Z.leb_le. lia.
  - intros a b _ _. unfold Array.in_order, most_owned_first. intros H%Z.leb_gt. lia.
  - intros a b c _ _ _. lia.
  - by apply Forall_forall.
Qed.

(** X27: [getTopSwappers] works on the completed requests of the month of
    the call and counts, for each owner, the requests owned; requesters do
    not count.  The ranking holds every owner once, with that number, in
    descending order of the number: an owner with more requests stands
    before an owner with fewer.  The method keeps the first five lines of
    the ranking and of these answers, in the same order, with the ones that
    are stored users, each with its name, its number and its most recent
    book.  Users that are not stored thus use up places among the five, and
    the busiest owner is never lost to the cut.  With no such request the
    answer is [NotFound]. *)
Theorem getTopSwappers_ranking (now : Z) (st : State) :
  let window := completedSwapRequests now st in
  ∃ ranked : list (string * SwapCount.t),
    NoDup ranked.*1
    ∧ (∀ key data, (key, data) ∈ ranked ↔
                   SwapCount.count data = owned_in key window
                   ∧ (0 < owned_in key window)%N
                   ∧ SwapCount.lastBook data = lastBookOf st key)
    ∧ StronglySorted owns_at_least ranked
    ∧ (∀ i j a b,
         ranked !! i = Some a → ranked !! j = Some b →
         (owned_in (fst b) window < owned_in (fst a) window)%N → (i < j)%nat)
    ∧ (∀ key, (0 < owned_in key window)%N →
              (∀ key', key' ≠ key → (owned_in key' window < owned_in key window)%N) →
              ∃ data, take 5 ranked !! 0%nat = Some (key, data))
    ∧ (window = [] →
       getTopSwappers now st = Err (NotFound "No top swappers found this month."))
    ∧ match getTopSwappers now st with
      | Ok l =>
          (0 < length l ≤ 5)%nat
          ∧ StronglySorted at_least_as_many l
          ∧ l = omap (top_entry st) (take 5 ranked)
          ∧ ∀ e, e ∈ l ↔ ∃ data, (TopSwapper.userId e, data) ∈ take 5 ranked
                                 ∧ top_line st window (TopSwapper.userId e) e
      | Err m =>
          m = NotFound "No top swappers found this month."
          ∧ ∀ key data, (key, data) ∈ take 5 ranked → usersStorage st !! key = None
      end.
Proof.
  intros window.
  set (ranked := Array.sort most_owned_first (swapCountMap st window)).
  assert (∀ key data, (key, data) ∈ ranked ↔
                      SwapCount.count data = owned_in key window
                      ∧ (0 < owned_in key window)%N
                      ∧ SwapCount.lastBook data = lastBookOf st key) as Hranked.
  { intros key data. unfold ranked. rewrite sort_perm. apply swapCountMap_spec. }
  assert (NoDup ranked.*1) as Hnd.
  { unfold ranked. rewrite sort_perm. unfold swapCountMap.
    apply (fold_count_owner st window []). split; [constructor | done]. }
  assert (StronglySorted owns_at_least ranked) as Hdesc
    by apply most_owned_first_sorted.
  assert (∀ i j a b,
            ranked !! i = Some a → ranked !! j = Some b →
            (owned_in (fst b) window < owned_in (fst a) window)%N → (i < j)%nat)
    as Hbefore.
  { intros i j [ka da] [kb db] Hi Hj Hlt. simpl in Hlt.
    assert (SwapCount.count da = owned_in ka window) as Ha.
    { by apply (Hranked ka da), (list_elem_of_lookup_2 _ i). }
    assert (SwapCount.count db = owned_in kb window) as Hb.
    { by apply (Hranked kb db), (list_elem_of_lookup_2 _ j). }
    destruct (decide (i < j)%nat) as [| Hge]; [done | exfalso].
    destruct (decide (i = j)) as [-> | Hne].
    - rewrite Hi in Hj. injection Hj as <- <-. lia.
    - assert (owns_at_least (kb, db) (ka, da)) as Hle.
      { apply (StronglySorted_lookup owns_at_least ranked j i (kb, db) (ka, da) Hdesc);
        [lia | done ..]. }
      unfold owns_at_least in Hle. simpl in Hle. lia. }
  exists ranked. split; [done |]. split; [done |]. split; [done |]. split; [done |].
  split.
  { intros key Hpos Hmost.
    assert (∃ data, (key, data) ∈ ranked) as [data Hin].
    { exists {| SwapCount.count := owned_in key window;
                SwapCount.lastBook := lastBookOf st key |}.
      by apply Hranked. }
    apply list_elem_of_lookup_1 in Hin as [i Hi].
    destruct (ranked !! 0%nat) as [[k0 d0] |] eqn:H0.
    - destruct (decide (k0 = key)) as [-> | Hne].
      + exists d0. by rewrite lookup_take_lt by lia.
      + exfalso. specialize (Hmost k0 Hne).
        assert (i < 0)%nat; [| lia].
        by apply (Hbefore i 0%nat (key, data) (k0, d0)).
    - exfalso. apply lookup_ge_None in H0. apply lookup_lt_Some in Hi. lia. }
  assert (getTopSwappers now st =
          match omap (top_entry st) (take 5 ranked) with
          | [] => Err (NotFound "No top swappers found this month.")
          | l => Ok l
          end) as Hresult.
  { unfold getTopSwappers, Array.slice0. fold window. fold ranked.
    by destruct (omap (top_entry st) (take 5 ranked)). }
  split.
  { intros Hwindow. rewrite Hresult. unfold ranked. by rewrite Hwindow. }
  assert (∀ e, e ∈ omap (top_entry st) (take 5 ranked) ↔
               ∃ data, (TopSwapper.userId e, data) ∈ take 5 ranked
                       ∧ top_line st window (TopSwapper.userId e) e) as Hmem.
  { intros e. rewrite list_elem_of_omap. split.
    - intros ([key data] & Hin & (user & Hu & ->)%top_entry_Some). simpl.
      exists data. split; [done |].
      assert ((key, data) ∈ ranked) as Hin' by by apply (subseteq_take 5 ranked).
      apply Hranked in Hin' as (Hc & Hpos & Hlast).
      exists user. simpl. done.
    - intros (data & Hin & (user & Hu & _ & Hname & Hc & Hpos & Hlast)).
      exists (TopSwapper.userId e, data). split; [done |].
      apply top_entry_Some. exists user. split; [done |].
      assert ((TopSwapper.userId e, data) ∈ ranked) as Hin'
        by by apply (subseteq_take 5 ranked).
      apply Hranked in Hin' as (Hc' & _ & Hlast').
      destruct e as [uid nm sc lb]. simpl in *. f_equal; congruence. }
  assert (StronglySorted at_least_as_many (omap (top_entry st) (take 5 ranked)))
    as Hsorted.
  { apply (StronglySorted_omap owns_at_least);
      [| by apply StronglySorted_take].
    intros [k d] [k' d'] e e' (u & _ & ->)%top_entry_Some (u' & _ & ->)%top_entry_Some.
    done. }
  assert (length (omap (top_entry st) (take 5 ranked)) ≤ 5)%nat as Hlen.
  { etransitivity; [apply omap_length_le |]. rewrite length_take. lia. }
  rewrite Hresult.
  destruct (omap (top_entry st) (take 5 ranked)) as [| e0 l] eqn:Homap.
  - split; [done |]. intros key data Hin.
    destruct (usersStorage st !! key) as [user |] eqn:Hu; [| done].
    assert (∃ e, top_entry st (key, data) = Some e) as [e He].
    { eexists. apply top_entry_Some. eauto. }
    assert (e ∈ omap (top_entry st) (take 5 ranked)) as He'.
    { apply list_elem_of_omap. eauto. }
    rewrite Homap in He'. by apply elem_of_nil in He'.
  - split; [simpl in *; lia |]. split; [done |]. split; [done |]. done.
Qed.

Lemma six_owners_reachable : reachable Cases.six_owners.
Proof.
  apply run_reachable; [| apply library_reachable].
  unfold Cases.six_owners_calls, Cases.request. cbn [app]. env_ok_by_computation.
Qed.

(** Six owners, one with three requests and the others with one: the busiest
    owner heads the five lines, and one of the others is cut. *)
Example getTopSwappers_six_owners :
  reachable Cases.six_owners
  ∧ ∃ first rest,
      getTopSwappers (Scenario.t0 + 60000) Cases.six_owners = Ok (first :: rest)
      ∧ TopSwapper.name first = "Dan" ∧ TopSwapper.swapsCompleted first = 3%N
      ∧ length rest = 4%nat
      ∧ Forall (λ e, TopSwapper.swapsCompleted e = 1%N) rest.
Proof.
  split; [exact six_owners_reachable |].
  eexists _, _. split; [vm_compute; reflexivity |].
  split; [reflexivity |]. split; [reflexivity |]. split; [reflexivity |].
  repeat constructor.
Qed.

(** ** Top swappers and featured swappers *)

Lemma getTopSwappers_entry (now : Z) (st : State) (l : list TopSwapper.t)
    (e : TopSwapper.t) :
  getTopSwappers now st = Ok l → e ∈ l →
  top_line st (completedSwapRequests now st) (TopSwapper.userId e) e.
Proof.
  unfold getTopSwappers, Array.slice0. cbv zeta.
  destruct (omap _ _) as [| e0 l0] eqn:Homap; [done |]. simpl.
  intros [= <-] Hin. rewrite <- Homap in Hin.
  apply list_elem_of_omap in Hin as ([key data] & Hin & (user & Hu & ->)%top_entry_Some).
  apply (subseteq_take 5) in Hin. rewrite sort_perm in Hin.
  apply swapCountMap_spec in Hin as (Hc & Hpos & Hlast).
  exists user. simpl. done.
Qed.

Lemma getFeaturedSwappers_entry (now : Z) (st : State) (l : list FeaturedSwapper.t)
    (e : FeaturedSwapper.t) :
  getFeaturedSwappers now st = Ok l → e ∈ l →
  ∃ key, ranks st (completedSwapRequests now st) key e.
Proof.
  unfold getFeaturedSwappers, Array.slice0. cbv zeta.
  destruct (take 5 _) as [| e0 l0] eqn:Htake; [done |]. simpl.
  intros [= <-] Hin. rewrite <- Htake in Hin.
  apply (subseteq_take 5) in Hin.
  apply list_elem_of_omap in Hin as ([key n] & Hin & He).
  rewrite sort_perm in Hin. apply swapCountPerUser_spec in Hin as [-> Hpos].
  apply featured_entry_Some in He as (user & Hu & Hname & Hid & Hn).
  exists key, user. done.
Qed.

Lemma owned_in_le_swaps_of (key : string) (l : list SwapRequest.t) :
  (owned_in key l ≤ swaps_of key l)%N.
Proof.
  unfold owned_in, swaps_of.
  assert (length (filter (λ r, SwapRequest.ownerId r = key) l)
          ≤ length (filter (λ r, SwapRequest.ownerId r = key
                                 ∨ SwapRequest.requesterId r = key) l))%nat; [| lia].
  induction l as [| r l IH]; [done |].
  rewrite !filter_cons. repeat case_decide; simpl; try lia. tauto.
Qed.

(** X28: in every state reached by calls of the update methods, a user that
    [getTopSwappers] and [getFeaturedSwappers] both list has at most as many
    swaps in the first list as in the second: the first counts the requests
    the user owns, the second those the user owns or made. *)
Theorem top_at_most_featured (now : Z) (st : State)
    (top : list TopSwapper.t) (featured : list FeaturedSwapper.t)
    (t : TopSwapper.t) (f : FeaturedSwapper.t) :
  reachable st →
  getTopSwappers now st = Ok top → getFeaturedSwappers now st = Ok featured →
  t ∈ top → f ∈ featured →
  TopSwapper.userId t = FeaturedSwapper.userId f →
  (TopSwapper.swapsCompleted t ≤ FeaturedSwapper.booksSwapped f)%N.
Proof.
  intros Hreach Htop Hfeat Ht Hf Hid.
  destruct (getTopSwappers_entry now st top t Htop Ht)
    as (ut & Hut & _ & _ & Hct & _).
  destruct (getFeaturedSwappers_entry now st featured f Hfeat Hf)
    as (key & uf & Huf & _ & Hidf & Hcf & _).
  destruct (reachable_users_inv st Hreach) as [Hkeyed _].
  rewrite (Hkeyed key uf Huf) in Hidf.
  rewrite Hct, Hcf, Hid, Hidf. apply owned_in_le_swaps_of.
Qed.

(** ** The empty search term *)

Lemma includes_empty (s : Js.text) : Js.includes s [] = true.
Proof. by destruct s. Qed.

(** X29: the empty term matches every book: [searchBooks] with it lists
    the whole store, and answers [NotFound] only on an empty store. *)
Theorem searchBooks_empty_term (st : State) :
  searchBooks "" st
  = if decide (booksStorage st = ∅)
    then Err (NotFound "No books found matching the search term.")
    else Ok (values (booksStorage st)).
Proof.
  unfold searchBooks.
  assert (List.filter (book_matches "") (values (booksStorage st))
          = values (booksStorage st)) as ->.
  { induction (values (booksStorage st)) as [| b l IH]; simpl; [done |].
    unfold book_matches at 1.
    change (Js.toLowerCase (Js.units "")) with (@nil N).
    rewrite includes_empty. simpl. by rewrite IH. }
  cbv zeta. apply get_all_spec.
Qed.

(** ** The most recent book of a user *)

Lemma lastBookOf_newest (st : State) (userId : string) :
  (∀ k book, booksStorage st !! k = Some book → book_dated book) →
  newest_book_of st userId (lastBookOf st userId).
Proof.
  intros Hdated. unfold lastBookOf, newest_book_of.
  set (f := fun book : Book.t => String.eqb (Book.userId book) userId).
  assert (∀ b, b ∈ Array.sort newest_first (List.filter f (values (booksStorage st)))
               ↔ (∃ k, booksStorage st !! k = Some b) ∧ Book.userId b = userId) as Hmem.
  { intros b. rewrite sort_perm, list_elem_of_In, filter_In, <- list_elem_of_In.
    unfold f. by rewrite elem_of_values, String.eqb_eq. }
  assert (StronglySorted not_older
            (Array.sort newest_first (List.filter f (values (booksStorage st)))))
    as Hsorted.
  { apply newest_first_sorted, Forall_forall. intros b Hb.
    rewrite list_elem_of_In, filter_In, <- list_elem_of_In, elem_of_values in Hb.
    destruct Hb as [[k Hk] _]. eauto. }
  destruct (Array.sort newest_first (List.filter f (values (booksStorage st))))
    as [| newest l]; simpl.
  - intros k book Hk Hu.
    assert (book ∈ @nil Book.t) as Hin by (apply Hmem; eauto).
    by apply elem_of_nil in Hin.
  - assert (newest ∈ newest :: l) as Hn by by left.
    apply Hmem in Hn as [[kn Hkn] Hun]. split; [eauto |]. split; [done |].
    intros k book Hk Hu.
    assert (book ∈ newest :: l) as Hin by (apply Hmem; eauto).
    apply StronglySorted_inv in Hsorted as [_ Hall].
    apply elem_of_cons in Hin as [-> | Hin].
    + destruct (Hdated kn newest Hkn) as [t Ht]. exists t, t. split; [done |].
      split; [done | lia].
    + rewrite Forall_forall in Hall. by apply Hall.
Qed.

Lemma featured_entry_book (st : State) (key : string) (n : N) (e : FeaturedSwapper.t) :
  featured_entry st (key, n) = Some e →
  FeaturedSwapper.bookDetails e = lastBookOf st key.
Proof.
  unfold featured_entry, lastBookOf.
  destruct (usersStorage st !! key); [| done]. by intros [= <-].
Qed.

(** X30: in every state reached by calls of the update methods, the book
    that [getFeaturedSwappers] and [getTopSwappers] attach to a user is the
    most recently created of the stored books of that user, and no book
    exactly when the user has none. *)
Theorem swappers_carry_newest_book (now : Z) (st : State) :
  reachable st →
  (∀ l e, getFeaturedSwappers now st = Ok l → e ∈ l →
          newest_book_of st (FeaturedSwapper.userId e) (FeaturedSwapper.bookDetails e))
  ∧ (∀ l e, getTopSwappers now st = Ok l → e ∈ l →
            newest_book_of st (TopSwapper.userId e) (TopSwapper.lastBookDetails e)).
Proof.
  intros Hreach.
  assert (∀ k book, booksStorage st !! k = Some book → book_dated book) as Hdated.
  { intros k book. apply books_timestamped_dated.
    by apply reachable_books_timestamped. }
  destruct (reachable_users_inv st Hreach) as [Hkeyed _].
  split.
  - intros l e. unfold getFeaturedSwappers, Array.slice0. cbv zeta.
    destruct (take 5 _) as [| e0 l0] eqn:Htake; [done |]. simpl.
    intros [= <-] Hin. rewrite <- Htake in Hin. apply (subseteq_take 5) in Hin.
    apply list_elem_of_omap in Hin as ([key n] & _ & He).
    pose proof (featured_entry_book st key n e He) as ->.
    apply featured_entry_Some in He as (user & Hu & _ & -> & _).
    rewrite (Hkeyed key user Hu). by apply lastBookOf_newest.
  - intros l e Hl He.
    destruct (getTopSwappers_entry now st l e Hl He) as (_ & _ & _ & _ & _ & _ & ->).
    by apply lastBookOf_newest.
Qed.

(** ** The further properties on the example states *)

Lemma dune_accepted_in_library : book_payload_accepted Scenario.dune Scenario.library.
Proof. repeat split; try discriminate. eexists. vm_compute. reflexivity. Qed.

Lemma freshId_is_new : booksStorage Scenario.library !! uuid Scenario.later = None.
Proof. vm_compute. reflexivity. Qed.

Lemma library_has_dune :
  ∃ book, booksStorage Scenario.library !! Scenario.duneId = Some book.
Proof. eexists. vm_compute. reflexivity. Qed.

Lemma library_has_ann :
  ∃ user, usersStorage Scenario.one_request !! Scenario.annId = Some user.
Proof. eexists. vm_compute. reflexivity. Qed.

Lemma one_request_has_swap1 :
  ∃ r, swapRequestsStorage Scenario.one_request !! Scenario.swap1 = Some r.
Proof. eexists. vm_compute. reflexivity. Qed.

Lemma library_lists_fantasy :
  ∃ book l, getBooksByGenre "Fantasy" Scenario.library = Ok l ∧ book ∈ l.
Proof. eexists _, _. split; [vm_compute; reflexivity | apply list_elem_of_here]. Qed.

Lemma busy_top_and_featured :
  ∃ t top f featured,
    getTopSwappers (Scenario.t0 + 60000) Scenario.busy = Ok (t :: top)
    ∧ getFeaturedSwappers (Scenario.t0 + 60000) Scenario.busy = Ok (f :: featured)
    ∧ TopSwapper.userId t = FeaturedSwapper.userId f.
Proof.
  eexists _, _, _, _. split; [vm_compute; reflexivity |].
  split; [vm_compute; reflexivity | reflexivity].
Qed.

Lemma listBook_counts_witness :
  book_payload_accepted Scenario.dune Scenario.library
  ∧ booksStorage Scenario.library !! uuid Scenario.later = None
  ∧ ∃ book st' total owned,
      listBook Scenario.later Scenario.dune Scenario.library = (Ok book, st')
      ∧ getTotalBooks Scenario.library = Ok total
      ∧ getTotalBooks st' = Ok (total + 1)%N
      ∧ getNumberOfBooks Scenario.annId Scenario.library = Ok owned
      ∧ getNumberOfBooks Scenario.annId st' = Ok (owned + 1)%N.
Proof.
  split; [exact dune_accepted_in_library |]. split; [exact freshId_is_new |].
  destruct (listBook_counts Scenario.later Scenario.dune Scenario.library
              dune_accepted_in_library freshId_is_new)
    as (book & st' & total & owned & H1 & H2 & H3 & H4 & H5 & _).
  exists book, st', total, owned.
  split; [exact H1 |]. split; [exact H2 |]. split; [exact H3 |].
  split; [exact H4 | exact H5].
Defined.

Lemma deleteBook_counts_witness :
  ∃ book,
    booksStorage Scenario.library !! Scenario.duneId = Some book
    ∧ ∃ st' total owned,
        deleteBook Scenario.duneId Scenario.library = (Ok tt, st')
        ∧ getTotalBooks Scenario.library = Ok (total + 1)%N
        ∧ getTotalBooks st' = Ok total
        ∧ getNumberOfBooks (Book.userId book) Scenario.library = Ok (owned + 1)%N
        ∧ getNumberOfBooks (Book.userId book) st' = Ok owned.
Proof.
  destruct library_has_dune as [book Hk].
  exists book. split; [exact Hk |].
  destruct (deleteBook_counts Scenario.duneId book Scenario.library Hk)
    as (st' & total & owned & H1 & H2 & H3 & H4 & H5 & _).
  exists st', total, owned.
  split; [exact H1 |]. split; [exact H2 |]. split; [exact H3 |].
  split; [exact H4 | exact H5].
Defined.

Lemma users_only_no_books : booksStorage Cases.users_only = ∅.
Proof. vm_compute. reflexivity. Qed.

Lemma dune_accepted_in_users_only :
  book_payload_accepted Scenario.dune Cases.users_only.
Proof. repeat split; try discriminate. eexists. vm_compute. reflexivity. Qed.

Lemma getAllBooks_first_book_witness :
  booksStorage Cases.users_only = ∅
  ∧ book_payload_accepted Scenario.dune Cases.users_only
  ∧ getAllBooks Cases.users_only = Err (NotFound "No books found")
  ∧ ∃ book st', listBook Scenario.later Scenario.dune Cases.users_only = (Ok book, st')
                ∧ getAllBooks st' = Ok [book].
Proof.
  split; [exact users_only_no_books |]. split; [exact dune_accepted_in_users_only |].
  exact (getAllBooks_first_book Scenario.later Scenario.dune Cases.users_only
           users_only_no_books dune_accepted_in_users_only).
Defined.

Lemma dee_accepted_in_library : user_payload_accepted Cases.dee Scenario.library.
Proof.
  split; [discriminate |]. split; [discriminate |]. split; [discriminate |].
  split; [vm_compute; reflexivity |]. split; [vm_compute; reflexivity |].
  intros k user Hk.
  assert (forallb (λ u, negb (String.eqb (User.email u) (UserPayload.email Cases.dee)))
            (values (usersStorage Scenario.library)) = true) as Hall.
  { vm_compute. reflexivity. }
  apply (forallb_values _ _ Hall) in Hk.
  by apply negb_true_iff, String.eqb_neq in Hk.
Qed.

Lemma dee_has_no_profile : no_profile Cases.dee_env Scenario.library.
Proof.
  intros k user Hk.
  assert (forallb (λ u, negb (String.eqb (toText (User.owner u))
                                         (toText (caller Cases.dee_env))))
            (values (usersStorage Scenario.library)) = true) as Hall.
  { vm_compute. reflexivity. }
  apply (forallb_values _ _ Hall) in Hk.
  by apply negb_true_iff, String.eqb_neq in Hk.
Qed.

Lemma createUserProfile_then_getUserProfileByOwner_witness :
  user_payload_accepted Cases.dee Scenario.library
  ∧ no_profile Cases.dee_env Scenario.library
  ∧ ∃ user st',
      createUserProfile Cases.dee_env Cases.dee Scenario.library = (Ok user, st')
      ∧ getUserProfileByOwner Cases.dee_env st' = Ok user.
Proof.
  split; [exact dee_accepted_in_library |]. split; [exact dee_has_no_profile |].
  destruct (createUserProfile_then_getUserProfileByOwner Cases.dee_env Cases.dee
              Scenario.library dee_accepted_in_library dee_has_no_profile)
    as (user & st' & Hcall & Hget).
  exists user, st'. split; [exact Hcall | exact (Hget Cases.dee_env eq_refl)].
Defined.

Lemma reachable_entities_well_formed_witness :
  reachable Scenario.busy ∧ entities_well_formed Scenario.busy.
Proof.
  split; [exact busy_reachable |].
  exact (reachable_entities_well_formed Scenario.busy busy_reachable).
Defined.

Lemma reachable_statuses_known_witness :
  reachable Scenario.busy ∧ statuses_known Scenario.busy.
Proof.
  split; [exact busy_reachable |].
  exact (reachable_statuses_known Scenario.busy busy_reachable).
Defined.

Lemma users_stay_witness :
  ∃ user,
    usersStorage Scenario.one_request !! Scenario.annId = Some user
    ∧ Forall (fun call => uuid (fst call) ≠ Scenario.annId) Scenario.rewrite_calls
    ∧ ∃ user', getUserProfile Scenario.annId Scenario.rewritten = Ok user'
               ∧ same_identity user user'.
Proof.
  destruct library_has_ann as [user Hk].
  assert (Forall (fun call => uuid (fst call) ≠ Scenario.annId) Scenario.rewrite_calls)
    as Hcalls.
  { repeat constructor; discriminate. }
  exists user. split; [exact Hk |]. split; [exact Hcalls |].
  destruct (users_stay Scenario.rewrite_calls Scenario.one_request Scenario.annId user Hk)
    as (user' & Hget & Hsame).
  exists user'. split; [exact Hget | exact (Hsame Hcalls)].
Defined.

Lemma accept_reject_completed_total_witness :
  ∃ r others,
    swapRequestsStorage Scenario.one_request !! Scenario.swap1 = Some r
    ∧ getTotalCompletedSwapRequests Scenario.one_request = Ok (others + completed_count r)%N
    ∧ getTotalCompletedSwapRequests
        (snd (acceptSwapRequest Scenario.swap1 Scenario.one_request)) = Ok (others + 1)%N
    ∧ getTotalCompletedSwapRequests
        (snd (rejectSwapRequest Scenario.swap1 Scenario.one_request)) = Ok others.
Proof.
  destruct one_request_has_swap1 as [r Hk].
  destruct (accept_reject_completed_total Scenario.swap1 r Scenario.one_request Hk)
    as (others & H1 & H2 & H3).
  exists r, others.
  split; [exact Hk |]. split; [exact H1 |]. split; [exact H2 | exact H3].
Defined.

Lemma praise_accepted : feedback_payload_accepted Scenario.praise Scenario.one_request.
Proof. repeat split; try discriminate; eexists; vm_compute; reflexivity. Qed.

Lemma createFeedback_then_lists_witness :
  feedback_payload_accepted Scenario.praise Scenario.one_request
  ∧ ∃ feedback st',
      createFeedback Scenario.later Scenario.praise Scenario.one_request = (Ok feedback, st')
      ∧ (∃ l, getFeedbacksByUser Scenario.bobId st' = Ok l ∧ feedback ∈ l)
      ∧ (∃ l, getFeedbacksBySwapRequest Scenario.swap1 st' = Ok l ∧ feedback ∈ l)
      ∧ (∃ l, getAllFeedbacks st' = Ok l ∧ feedback ∈ l).
Proof.
  split; [exact praise_accepted |].
  exact (createFeedback_then_lists Scenario.later Scenario.praise Scenario.one_request
           praise_accepted).
Defined.

Lemma getBooksByGenre_within_searchBooks_witness :
  ∃ book,
    (∃ l, getBooksByGenre "Fantasy" Scenario.library = Ok l ∧ book ∈ l)
    ∧ ∃ l', searchBooks "Fantasy" Scenario.library = Ok l' ∧ book ∈ l'.
Proof.
  destruct library_lists_fantasy as (book & l & Hl & Hin).
  assert (∃ l, getBooksByGenre "Fantasy" Scenario.library = Ok l ∧ book ∈ l) as Hlisted.
  { exists l. split; [exact Hl | exact Hin]. }
  exists book. split; [exact Hlisted |].
  exact (getBooksByGenre_within_searchBooks "Fantasy" Scenario.library book Hlisted).
Defined.

(** Ann owns two of the three completed requests and made the third. *)
Example getTopSwappers_busy :
  ∃ l, getTopSwappers (Scenario.t0 + 60000) Scenario.busy = Ok l
       ∧ map (λ e, (TopSwapper.name e, TopSwapper.swapsCompleted e)) l
         = [("Ann", 2%N); ("Bob", 1%N)].
Proof. eexists. split; vm_compute; reflexivity. Qed.

Lemma top_at_most_featured_witness :
  ∃ top featured t f,
    reachable Scenario.busy
    ∧ getTopSwappers (Scenario.t0 + 60000) Scenario.busy = Ok top
    ∧ getFeaturedSwappers (Scenario.t0 + 60000) Scenario.busy = Ok featured
    ∧ t ∈ top ∧ f ∈ featured
    ∧ TopSwapper.userId t = FeaturedSwapper.userId f
    ∧ (TopSwapper.swapsCompleted t ≤ FeaturedSwapper.booksSwapped f)%N.
Proof.
  destruct busy_top_and_featured as (t & top & f & featured & Htop & Hfeat & Hid).
  assert (t ∈ t :: top) as Hint by apply list_elem_of_here.
  assert (f ∈ f :: featured) as Hinf by apply list_elem_of_here.
  exists (t :: top), (f :: featured), t, f.
  split; [exact busy_reachable |]. split; [exact Htop |]. split; [exact Hfeat |].
  split; [exact Hint |]. split; [exact Hinf |]. split; [exact Hid |].
  exact (top_at_most_featured (Scenario.t0 + 60000) Scenario.busy (t :: top)
           (f :: featured) t f busy_reachable Htop Hfeat Hint Hinf Hid).
Defined.

Lemma swappers_carry_newest_book_witness :
  reachable Scenario.busy
  ∧ ∃ l e, getFeaturedSwappers (Scenario.t0 + 60000) Scenario.busy = Ok l ∧ e ∈ l
           ∧ newest_book_of Scenario.busy (FeaturedSwapper.userId e)
               (FeaturedSwapper.bookDetails e).
Proof.
  split; [exact busy_reachable |].
  destruct busy_top_and_featured as (_ & _ & e & l & _ & Hfeat & _).
  assert (e ∈ e :: l) as Hin by apply list_elem_of_here.
  exists (e :: l), e. split; [exact Hfeat |]. split; [exact Hin |].
  exact (proj1 (swappers_carry_newest_book (Scenario.t0 + 60000) Scenario.busy
                  busy_reachable) (e :: l) e Hfeat Hin).
Defined.

(** ** The number of users *)

Lemma step_users_dom (env : Env) (op : Op) (st : State) :
  dom (usersStorage st) ⊆ dom (usersStorage (step env op st)).
Proof.
  intros k [user Hk]%elem_of_dom.
  destruct (step_user_stays env op st k user Hk) as (user' & Hk' & _).
  apply elem_of_dom. eauto.
Qed.

(** X25: the number [getTotalUsers] gives never goes down, whatever calls
    are made; and it goes up by one when [createUserProfile] accepts a
    payload and the identifier drawn is new. *)
Theorem getTotalUsers_never_decreases (calls : list (Env * Op)) (st : State)
    (env : Env) (payload : UserPayload.t) :
  (∃ before after,
     getTotalUsers st = Ok before ∧ getTotalUsers (run calls st) = Ok after
     ∧ (before ≤ after)%N)
  ∧ (user_payload_accepted payload st → usersStorage st !! uuid env = None →
     ∃ before,
       getTotalUsers st = Ok before
       ∧ getTotalUsers (snd (createUserProfile env payload st)) = Ok (before + 1)%N).
Proof.
  unfold getTotalUsers. split.
  - eexists _, _. split; [reflexivity |]. split; [reflexivity |].
    rewrite !length_values.
    assert (size (usersStorage st) ≤ size (usersStorage (run calls st)))%nat; [| lia].
    revert st. induction calls as [| [e op] calls IH]; intros st; simpl; [done |].
    etransitivity; [| apply IH].
    rewrite <- !size_dom. apply subseteq_size, step_users_dom.
  - intros Hok Hfresh.
    destruct (createUserProfile_then_getUserProfile env payload st Hok)
      as (user & st' & Hcall & _).
    eexists. split; [reflexivity |].
    unfold createUserProfile in Hcall |- *. revert Hcall. branch_cases; intros Hcall;
      simplify_eq. f_equal.
    rewrite (values_insert_fresh _ _ _ Hfresh). simpl. lia.
Qed.

Lemma freshId_not_a_user :
  usersStorage Scenario.library !! uuid Cases.dee_env = None.
Proof. vm_compute. reflexivity. Qed.

Lemma getTotalUsers_never_decreases_witness :
  user_payload_accepted Cases.dee Scenario.library
  ∧ usersStorage Scenario.library !! uuid Cases.dee_env = None
  ∧ (∃ before after,
       getTotalUsers Scenario.library = Ok before
       ∧ getTotalUsers (run Scenario.busy_calls Scenario.library) = Ok after
       ∧ (before ≤ after)%N)
  ∧ ∃ before,
      getTotalUsers Scenario.library = Ok before
      ∧ getTotalUsers (snd (createUserProfile Cases.dee_env Cases.dee Scenario.library))
        = Ok (before + 1)%N.
Proof.
  assert (usersStorage Scenario.library !! uuid Cases.dee_env = None) as Hfresh.
  { exact freshId_not_a_user. }
  destruct (getTotalUsers_never_decreases Scenario.busy_calls Scenario.library
              Cases.dee_env Cases.dee) as [Hgrow Hnew].
  split; [exact dee_accepted_in_library |]. split; [exact Hfresh |].
  split; [exact Hgrow | exact (Hnew dee_accepted_in_library Hfresh)].
Defined.
